(** * Student task tracker: lifecycle and scheduling engines of [app.js]

    A shallow embedding of the time-on-task state machine
    ([getTaskStatus], [normalizeTaskMetrics], [handleStatusChange],
    [calcTimeSpentMs], [createTask], [updateTask]), of the
    categorisation engine ([parseYmd], [diffDays], [getCategory],
    [getDeadlineInfo], [compareTasks]), and of what the handlers do with
    them ([validate], [deleteTask], [toggleComplete], the submit handler,
    the buckets of [render], [escapeHtml]).

    Tasks are JavaScript objects, modelled as finite maps from field names
    to JavaScript values; reading a field that is absent yields
    [undefined], as in the source language.  The wall clock ([Date.now()])
    is a stream of readings threaded through a small state monad, so an
    operation that reads the clock twice sees two readings. *)

From Stdlib Require Import ZArith Lia Bool Ascii DecimalString.
From stdpp Require Import base option strings list gmap sorting.

Local Open Scope Z_scope.

(** ** JavaScript values *)

Module JS.

(** Numbers.  Every finite number the engines compute with is an integer
    count of milliseconds or days (clock readings, their sums and
    differences).  Double precision represents such an integer exactly up
    to [2^53] in magnitude; the statements that give the value of a sum or
    of a difference of instants are made within that range
    ([safe_integer]).  The three non-finite doubles are kept because the
    source tests for them. *)
Inductive number : Type :=
  | Fin (z : Z)
  | NaN
  | PInf
  | NInf.

Inductive value : Type :=
  | VUndefined
  | VNull
  | VBool (b : bool)
  | VNum (n : number)
  | VStr (s : string).

#[global] Instance number_eq_dec : EqDecision number.
Proof. solve_decision. Defined.

#[global] Instance value_eq_dec : EqDecision value.
Proof. solve_decision. Defined.

(** [typeof v] *)
Definition typeof (v : value) : string :=
  match v with
  | VUndefined => "undefined"
  | VNull => "object"
  | VBool _ => "boolean"
  | VNum _ => "number"
  | VStr _ => "string"
  end.

(** [Number.isFinite(v)]: no coercion, false on anything but a finite number. *)
Definition Number_isFinite (v : value) : bool :=
  match v with
  | VNum (Fin _) => true
  | _ => false
  end.

(** Truthiness, as used by [if], [&&], [||], [!] and the conditional. *)
Definition truthy (v : value) : bool :=
  match v with
  | VUndefined | VNull => false
  | VBool b => b
  | VNum (Fin z) => negb (z =? 0)
  | VNum NaN => false
  | VNum _ => true
  | VStr s => negb (String.eqb s "")
  end.

(** [a === b] on numbers: [NaN] differs from itself. *)
Definition num_eq (a b : number) : bool :=
  match a, b with
  | Fin x, Fin y => x =? y
  | PInf, PInf => true
  | NInf, NInf => true
  | _, _ => false
  end.

(** [a === b] on primitives. *)
Definition strict_eq (a b : value) : bool :=
  match a, b with
  | VUndefined, VUndefined => true
  | VNull, VNull => true
  | VBool x, VBool y => Bool.eqb x y
  | VNum x, VNum y => num_eq x y
  | VStr s, VStr t => String.eqb s t
  | _, _ => false
  end.

(** [a || b] on values. *)
Definition or_else (a b : value) : value := if truthy a then a else b.

(** [Number.MAX_SAFE_INTEGER], [2^53 - 1]. *)
Definition MAX_SAFE_INTEGER : Z := 9007199254740991.

(** [Number.isSafeInteger(z)] on an integer. *)
Definition safe_integer (z : Z) : Prop := - MAX_SAFE_INTEGER <= z <= MAX_SAFE_INTEGER.

(** The double nearest to the integer [z], a tie going to the even
    significand, and beyond the largest double an infinity: what the
    runtime yields when the exact result of [+] or [-] on two integers is
    [z]. *)
Definition round_double (z : Z) : number :=
  let e := Z.log2 (Z.abs z) - 52 in
  if e <=? 0 then Fin z
  else
    let ulp := 2 ^ e in
    let q := Z.abs z / ulp in
    let r := Z.abs z mod ulp in
    let q := if 2 * r <? ulp then q
             else if ulp <? 2 * r then q + 1
             else if Z.even q then q else q + 1 in
    if 2 ^ 1024 <=? q * ulp then (if z <? 0 then NInf else PInf)
    else Fin (Z.sgn z * (q * ulp)).

(** Arithmetic on numbers, with the IEEE rules for the non-finite ones.
    On two integers [nadd] is the exact sum.  The source adds doubles:
    its sum is [round_double] of the exact one, which is the exact one
    when it is a safe integer (lemmas [round_double_safe], [nadd_exact]);
    above [2^53] the two part.  A statement that gives the value of a sum
    carries [exact_sum] or [exact_difference] for it. *)
Definition nadd (a b : number) : number :=
  match a, b with
  | NaN, _ | _, NaN => NaN
  | Fin x, Fin y => Fin (x + y)
  | PInf, NInf | NInf, PInf => NaN
  | PInf, _ | _, PInf => PInf
  | NInf, _ | _, NInf => NInf
  end.

Definition nneg (a : number) : number :=
  match a with
  | Fin x => Fin (- x)
  | NaN => NaN
  | PInf => NInf
  | NInf => PInf
  end.

Definition nsub (a b : number) : number := nadd a (nneg b).

(** [x + y], and [x - y], are computed on safe integers and yield one:
    the operation of the source is exact. *)
Definition exact_sum (x y : Z) : Prop :=
  safe_integer x /\ safe_integer y /\ safe_integer (x + y).

Definition exact_difference (x y : Z) : Prop :=
  safe_integer x /\ safe_integer y /\ safe_integer (x - y).

(** A number that is a safe integer or not finite. *)
Definition safe_number (a : number) : Prop :=
  match a with
  | Fin z => safe_integer z
  | _ => True
  end.

(** [a < b]; any comparison with [NaN] is false. *)
Definition nlt (a b : number) : bool :=
  match a, b with
  | NaN, _ | _, NaN => false
  | Fin x, Fin y => x <? y
  | NInf, NInf | PInf, _ | _, NInf => false
  | NInf, _ | _, PInf => true
  end.

Definition ngt (a b : number) : bool := nlt b a.

(** [Math.max(a, b)] *)
Definition Math_max (a b : number) : number :=
  match a, b with
  | NaN, _ | _, NaN => NaN
  | _, _ => if nlt a b then b else a
  end.

(** [a <= b] *)
Definition nle (a b : number) : bool := nlt a b || num_eq a b.

(** [Math.round(a / q)] for a positive integer [q]: the nearest integer,
    a half rounded up. *)
Definition Math_round_div (a : number) (q : Z) : number :=
  match a with
  | Fin x => Fin ((2 * x + q) / (2 * q))
  | _ => a
  end.

(** [Number.isInteger(a)] *)
Definition Number_isInteger (a : number) : bool :=
  match a with
  | Fin _ => true
  | _ => false
  end.

(** The text a template literal inserts for a number.  Integers of the
    sizes met here (day counts) print in plain decimal. *)
Definition String_of_number (a : number) : string :=
  match a with
  | Fin x => NilZero.string_of_int (Z.to_int x)
  | NaN => "NaN"
  | PInf => "Infinity"
  | NInf => "-Infinity"
  end.

(** [s.split("-")] *)
Fixpoint split_dash (s : string) : list string :=
  match s with
  | EmptyString => [EmptyString]
  | String c r =>
      if Ascii.eqb c "-"%char then EmptyString :: split_dash r
      else match split_dash r with
           | h :: t => String c h :: t
           | [] => [String c EmptyString]
           end
  end.

(** [Math.abs(a)] *)
Definition Math_abs (a : number) : number :=
  match a with
  | Fin x => Fin (Z.abs x)
  | NaN => NaN
  | PInf | NInf => PInf
  end.

End JS.

Export JS.

(** The number held by a value whose [typeof] is ["number"]; the source
    reads it only under such a guard. *)
Definition num_of (v : value) : number :=
  match v with
  | VNum n => n
  | _ => NaN
  end.

(** ** Objects *)

(** A task, a form record or an operation result is an object: a finite
    map from property names to values. *)
Abbreviation object := (gmap string value).

(** [o.k]: the value of property [k], [undefined] when [o] has none. *)
Definition get (o : object) (k : string) : value := default VUndefined (o !! k).

(** [o.k = v] *)
Definition assign (k : string) (v : value) (o : object) : object := <[k := v]> o.

(** [k in o] *)
Definition has (k : string) (o : object) : bool := bool_decide (is_Some (o !! k)).

(** ** The clock *)

(** The readings [Date.now()] will return, in order. *)
Definition clock : Type := nat -> Z.

(** The clock whose next reading is [now] and which continues as [c]. *)
Definition tick (now : Z) (c : clock) : clock :=
  fun n => match n with O => now | S k => c k end.

(** Computations that may read the clock. *)
Definition M (A : Type) : Type := clock -> A * clock.

#[global] Instance M_ret : MRet M := fun A a c => (a, c).

#[global] Instance M_bind : MBind M :=
  fun A B k m c => let (a, c') := m c in k a c'.

(** [Date.now()] *)
Definition Date_now : M Z := fun c => (c O, fun n => c (S n)).

(** ** Lifecycle engine *)

Definition STATUS_ACTIVE : string := "active".
Definition STATUS_COMPLETED : string := "completed".

(** [task && task.completed ? STATUS_COMPLETED : STATUS_ACTIVE]; a task
    here is always an object, so the left conjunct is true. *)
Definition getTaskStatus (task : object) : string :=
  if truthy (get task "completed") then STATUS_COMPLETED else STATUS_ACTIVE.

(** The guard [if (!task || typeof task !== "object") return] never fires
    on an object and is left out. *)
Definition normalizeTaskMetrics (task : object) : M object :=
  let task :=
    if negb (String.eqb (typeof (get task "timeSpentMs")) "number")
       || negb (Number_isFinite (get task "timeSpentMs"))
    then assign "timeSpentMs" (VNum (Fin 0)) task else task in
  let task := if negb (has "activatedAt" task) then assign "activatedAt" VNull task else task in
  let task := if negb (has "completedAt" task) then assign "completedAt" VNull task else task in
  task ← (if String.eqb (getTaskStatus task) STATUS_ACTIVE
              && (strict_eq (get task "activatedAt") VNull
                  || negb (Number_isFinite (get task "activatedAt")))
           then now ← Date_now; mret (assign "activatedAt" (VNum (Fin now)) task)
           else mret task);
  mret (if String.eqb (getTaskStatus task) STATUS_COMPLETED
       then assign "activatedAt" VNull task else task).

(** [task.timeSpentMs += delta].  It runs after [normalizeTaskMetrics],
    which leaves a finite number in the field (lemma
    [normalize_spec]), so the addition is numeric. *)
Definition add_timeSpent (delta : number) (task : object) : object :=
  assign "timeSpentMs" (VNum (nadd (num_of (get task "timeSpentMs")) delta)) task.

Definition handleStatusChange (task : object) (nextStatus : value) : M (object * object) :=
  now ← Date_now;
  let currentStatus := getTaskStatus task in
  if negb (strict_eq nextStatus (VStr STATUS_ACTIVE))
     && negb (strict_eq nextStatus (VStr STATUS_COMPLETED))
  then mret ({[ "ok" := VBool false; "reason" := VStr "invalid_next_status" ]}, task)
  else if strict_eq (VStr currentStatus) nextStatus
  then mret ({[ "ok" := VBool true; "noop" := VBool true ]}, task)
  else
    task ← normalizeTaskMetrics task;
    if strict_eq nextStatus (VStr STATUS_ACTIVE)
    then
      let task := assign "completed" (VBool false) task in
      let task := assign "completedAt" VNull task in
      let task := assign "activatedAt" (VNum (Fin now)) task in
      mret ({[ "ok" := VBool true; "status" := VStr STATUS_ACTIVE ]}, task)
    else
      let task := assign "completed" (VBool true) task in
      let task :=
        if String.eqb (typeof (get task "activatedAt")) "number"
           && Number_isFinite (get task "activatedAt")
        then
          let delta := nsub (Fin now) (num_of (get task "activatedAt")) in
          if ngt delta (Fin 0) then add_timeSpent delta task else task
        else task in
      let task := assign "completedAt" (VNum (Fin now)) task in
      let task := assign "activatedAt" VNull task in
      mret ({[ "ok" := VBool true; "status" := VStr STATUS_COMPLETED ]}, task).

(** [calcTimeSpentMs(task, atTimeMs = Date.now())]: [None] stands for an
    omitted second argument.  The function returns a number and writes to
    no object. *)
Definition calcTimeSpentMs (task : object) (atTimeMs : option number) : M number :=
  atTimeMs ← match atTimeMs with
              | Some t => mret t
              | None => now ← Date_now; mret (Fin now)
              end;
  let base :=
    if String.eqb (typeof (get task "timeSpentMs")) "number"
    then num_of (get task "timeSpentMs") else Fin 0 in
  let active :=
    if String.eqb (getTaskStatus task) STATUS_ACTIVE
       && String.eqb (typeof (get task "activatedAt")) "number"
    then Math_max (Fin 0) (nsub atTimeMs (num_of (get task "activatedAt")))
    else Fin 0 in
  mret (nadd base active).

(** ** The host: string conversion, time zone, identifiers *)

(** What the engines take from the runtime.
    - [Number_ s] is [Number(s)] on text.  Finite non-integers are outside
      the number model; a conversion yields a non-integer ([NaN]) for text
      that denotes one, which is all [parseYmd] asks of it.
    - [local_day t] is the local calendar day (counted from 1970-01-01)
      that contains the instant [t].
    - [local_midnight d] is the instant at which local day [d] starts,
      the instant [new Date(y, m, d)] denotes.
    - [makeId] draws a fresh identifier; it may read the clock. *)
Class Host : Type := {
  Number_ : string -> number;
  local_day : Z -> Z;
  local_midnight : Z -> Z;
  makeId : M string
}.

Definition msPerDay : Z := 24 * 60 * 60 * 1000.

(** A time zone is regular when the start of a day lies in that day and
    the starts of two days are apart by the number of days between them,
    give or take less than half a day (daylight saving shifts). *)
Class HostLaws (H : Host) : Prop := {
  local_day_midnight : forall d, local_day (local_midnight d) = d;
  midnight_spacing : forall a b,
    2 * Z.abs (local_midnight b - local_midnight a - (b - a) * msPerDay) < msPerDay
}.

(** ** Calendar *)

(** Day number of the civil date [y]-[m]-[d], [m] in 1..12, counted from
    1970-01-01 in the proleptic Gregorian calendar. *)
Definition days_from_civil (y m d : Z) : Z :=
  let y := if m <=? 2 then y - 1 else y in
  let era := y / 400 in
  let yoe := y - era * 400 in
  let doy := (153 * (if 2 <? m then m - 3 else m + 9) + 2) / 5 + d - 1 in
  let doe := yoe * 365 + yoe / 4 - yoe / 100 + doy in
  era * 146097 + doe - 719468.

(** The civil date (year, month 1..12, day of month) of a day number. *)
Definition civil_from_days (z : Z) : Z * Z * Z :=
  let z := z + 719468 in
  let era := z / 146097 in
  let doe := z - era * 146097 in
  let yoe := (doe - doe / 1460 + doe / 36524 - doe / 146096) / 365 in
  let doy := doe - (365 * yoe + yoe / 4 - yoe / 100) in
  let mp := (5 * doy + 2) / 153 in
  let d := doy - (153 * mp + 2) / 5 + 1 in
  let m := if mp <? 10 then mp + 3 else mp - 9 in
  (yoe + era * 400 + (if m <=? 2 then 1 else 0), m, d).

(** A [Date] object holds a time value: an instant in epoch milliseconds,
    or [NaN] for an invalid date. *)
Record Date : Type := mkDate { getTime : number }.

#[global] Instance Date_eq_dec : EqDecision Date.
Proof. solve_decision. Defined.

(** A time value out of the representable range makes the date invalid. *)
Definition TimeClip (t : Z) : number :=
  if Z.abs t <=? 8640000000000000 then Fin t else NaN.

Section Engines.

Context {H : Host}.

(** [new Date()] *)
Definition Date_current : M Date := now ← Date_now; mret (mkDate (TimeClip now)).

(** [new Date(y, m, d)], local time, [m] a month index from 0.  A year in
    0..99 denotes 1900..1999; month and day outside their ranges carry
    over. *)
Definition Date_ymd (y m d : number) : Date :=
  match y, m, d with
  | Fin y, Fin m, Fin d =>
      let yr := if (0 <=? y) && (y <=? 99) then 1900 + y else y in
      let day := days_from_civil (yr + m / 12) (m mod 12 + 1) 1 + d - 1 in
      mkDate (TimeClip (local_midnight day))
  | _, _, _ => mkDate NaN
  end.

Definition getFullYear (dt : Date) : number :=
  match getTime dt with
  | Fin t => Fin (civil_from_days (local_day t)).1.1
  | _ => NaN
  end.

(** Month index, from 0. *)
Definition getMonth (dt : Date) : number :=
  match getTime dt with
  | Fin t => Fin ((civil_from_days (local_day t)).1.2 - 1)
  | _ => NaN
  end.

Definition getDate (dt : Date) : number :=
  match getTime dt with
  | Fin t => Fin (civil_from_days (local_day t)).2
  | _ => NaN
  end.

(** [parseYmd]; [None] is the source's [null]. *)
Definition parseYmd (ymd : value) : option Date :=
  if negb (truthy ymd) || negb (String.eqb (typeof ymd) "string") then None
  else
    match ymd with
    | VStr s =>
        match split_dash s with
        | [p0; p1; p2] =>
            let y := Number_ p0 in
            let m := Number_ p1 in
            let d := Number_ p2 in
            if negb (Number_isInteger y) || negb (Number_isInteger m)
               || negb (Number_isInteger d)
            then None
            else
              let dt := Date_ymd y (nsub m (Fin 1)) d in
              if negb (num_eq (getFullYear dt) y)
                 || negb (num_eq (getMonth dt) (nsub m (Fin 1)))
                 || negb (num_eq (getDate dt) d)
              then None
              else Some dt
        | _ => None
        end
    | _ => None
    end.

Definition startOfDay (d : Date) : Date :=
  Date_ymd (getFullYear d) (getMonth d) (getDate d).

Definition startOfToday : M Date := d ← Date_current; mret (startOfDay d).

Definition sameDay (a b : Date) : bool :=
  num_eq (getFullYear a) (getFullYear b)
  && num_eq (getMonth a) (getMonth b)
  && num_eq (getDate a) (getDate b).

Definition diffDays (start end_ : Date) : number :=
  Math_round_div (nsub (getTime (startOfDay end_)) (getTime (startOfDay start))) msPerDay.

(** The [{ text, cls }] record [getDeadlineInfo] returns. *)
Record DeadlineInfo : Type := mkInfo { text : string; cls : string }.

Definition getDeadlineInfo (task : object) : M DeadlineInfo :=
  if truthy (get task "completed") then mret (mkInfo "Completed" "done")
  else
    match parseYmd (get task "dueDate") with
    | None => mret (mkInfo "Due date invalid" "safe")
    | Some due =>
        today ← startOfToday;
        let dueStart := startOfDay due in
        let delta := diffDays today dueStart in
        if nlt delta (Fin 0) then
          let daysLate := Math_abs delta in
          let dayWord := if num_eq daysLate (Fin 1) then "day" else "days" in
          mret (mkInfo ("Overdue by " +:+ String_of_number daysLate +:+ " " +:+ dayWord) "overdue")
        else if num_eq delta (Fin 0) then mret (mkInfo "Due today" "warning")
        else if num_eq delta (Fin 1) then mret (mkInfo "Due tomorrow" "warning")
        else if nle delta (Fin 3) then
          let dayWord := if num_eq delta (Fin 1) then "day" else "days" in
          mret (mkInfo ("Due in " +:+ String_of_number delta +:+ " " +:+ dayWord) "warning")
        else
          let dayWord := if num_eq delta (Fin 1) then "day" else "days" in
          mret (mkInfo ("Due in " +:+ String_of_number delta +:+ " " +:+ dayWord) "safe")
    end.

Definition getCategory (task : object) : M string :=
  if truthy (get task "completed") then mret "completed"
  else
    match parseYmd (get task "dueDate") with
    | None => mret "upcoming"
    | Some due =>
        today ← startOfToday;
        let dueStart := startOfDay due in
        if nlt (getTime dueStart) (getTime today) then mret "overdue"
        else if sameDay dueStart today then mret "today"
        else
          let daysUntil := diffDays today dueStart in
          if nle (Fin 1) daysUntil && nle daysUntil (Fin 7) then mret "soon"
          else mret "upcoming"
    end.

(** Operands of the binary [-] are converted to numbers. *)
Definition ToNumber (v : value) : number :=
  match v with
  | VUndefined => NaN
  | VNull => Fin 0
  | VBool b => Fin (if b then 1 else 0)
  | VNum n => n
  | VStr s => Number_ s
  end.

Definition pScore (p : value) : number :=
  if strict_eq p (VStr "high") then Fin 3
  else if strict_eq p (VStr "medium") then Fin 2 else Fin 1.

Definition compareTasks (a b : object) : number :=
  let pDiff := nsub (pScore (get b "priority")) (pScore (get a "priority")) in
  if negb (num_eq pDiff (Fin 0)) then pDiff
  else
    let ad := parseYmd (get a "dueDate") in
    let bd := parseYmd (get b "dueDate") in
    let createdDiff :=
      nsub (ToNumber (or_else (get a "createdAt") (VNum (Fin 0))))
           (ToNumber (or_else (get b "createdAt") (VNum (Fin 0)))) in
    match ad, bd with
    | Some ad, Some bd =>
        let dDiff := nsub (getTime (startOfDay ad)) (getTime (startOfDay bd)) in
        if negb (num_eq dDiff (Fin 0)) then dDiff else createdDiff
    | Some _, None => Fin (-1)
    | None, Some _ => Fin 1
    | None, None => createdDiff
    end.

(** ** Create and update *)

(** [!!v] *)
Definition to_bool (v : value) : value := VBool (truthy v).

(** [createTask(data)]: pushes onto [tasks] and returns the new id. *)
Definition createTask (data : object) (tasks : list object) : M (string * list object) :=
  id ← makeId;
  now ← Date_now;
  let task : object :=
    {[ "id" := VStr id;
       "title" := get data "title";
       "dueDate" := get data "dueDate";
       "priority" := get data "priority";
       "completed" := to_bool (get data "completed");
       "createdAt" := VNum (Fin now);
       "activatedAt" := VNull;
       "completedAt" := VNull;
       "timeSpentMs" := VNum (Fin 0) ]} in
  let task :=
    if truthy (get task "completed")
    then assign "completedAt" (VNum (Fin now)) task
    else assign "activatedAt" (VNum (Fin now)) task in
  mret (id, tasks ++ [task]).

(** The body of [updateTask] once [tasks.find] has produced the task [t]. *)
Definition updateFound (data t : object) : M object :=
  let prevStatus := getTaskStatus t in
  let t := assign "title" (get data "title") t in
  let t := assign "dueDate" (get data "dueDate") t in
  let t := assign "priority" (get data "priority") t in
  let t := assign "completed" (to_bool (get data "completed")) t in
  let nextStatus := getTaskStatus t in
  t ← normalizeTaskMetrics t;
  if negb (String.eqb prevStatus nextStatus)
  then rt ← handleStatusChange t (VStr nextStatus); mret rt.2
  else if String.eqb nextStatus STATUS_ACTIVE
          && (strict_eq (get t "activatedAt") VNull
              || negb (Number_isFinite (get t "activatedAt")))
  then now ← Date_now; mret (assign "activatedAt" (VNum (Fin now)) t)
  else mret t.

(** [updateTask(data)]: the first task whose id is [data.id] is updated in
    place; with no such task nothing happens. *)
Definition updateTask (data : object) (tasks : list object) : M (list object) :=
  match list_find (fun x => strict_eq (get x "id") (get data "id") = true) tasks with
  | None => mret tasks
  | Some (i, t) => t' ← updateFound data t; mret (<[i := t']> tasks)
  end.

End Engines.

(** ** Calendar dates *)

Definition is_leap (y : Z) : bool :=
  (y mod 4 =? 0) && (negb (y mod 100 =? 0) || (y mod 400 =? 0)).

Definition days_in_month (y m : Z) : Z :=
  if m =? 2 then (if is_leap y then 29 else 28)
  else if (m =? 4) || (m =? 6) || (m =? 9) || (m =? 11) then 30 else 31.

(** [y]-[m]-[d] is a date of the Gregorian calendar. *)
Definition valid_date (y m d : Z) : Prop :=
  1 <= m <= 12 /\ 1 <= d <= days_in_month y m.

(** ** Text *)

(** [String(v)] *)
Definition ToString (v : value) : string :=
  match v with
  | VUndefined => "undefined"
  | VNull => "null"
  | VBool b => if b then "true" else "false"
  | VNum n => String_of_number n
  | VStr s => s
  end.

(** [s.replaceAll(c, r)] for a one-character pattern [c].  A string is a
    sequence of bytes here; the patterns of [escapeHtml] are ASCII, which
    never occurs inside the encoding of another character. *)
Fixpoint replaceAll (c : ascii) (r : string) (s : string) : string :=
  match s with
  | EmptyString => EmptyString
  | String x rest =>
      if Ascii.eqb x c then r +:+ replaceAll c r rest
      else String x (replaceAll c r rest)
  end.

(** The double quote and the apostrophe. *)
Definition dquote : ascii := "034"%char.
Definition squote : ascii := "039"%char.

Definition escapeHtml (str : value) : string :=
  replaceAll squote "&#039;"
    (replaceAll dquote "&quot;"
       (replaceAll ">" "&gt;"
          (replaceAll "<" "&lt;"
             (replaceAll "&" "&amp;" (ToString str))))).

(** The characters of a string, in order. *)
Fixpoint chars (s : string) : list ascii :=
  match s with
  | EmptyString => []
  | String x rest => x :: chars rest
  end.

(** The entity that stands for a character, or the character itself. *)
Definition escape_char (x : ascii) : string :=
  if Ascii.eqb x "&" then "&amp;"
  else if Ascii.eqb x "<" then "&lt;"
  else if Ascii.eqb x ">" then "&gt;"
  else if Ascii.eqb x dquote then "&quot;"
  else if Ascii.eqb x squote then "&#039;"
  else String x EmptyString.

(** Replace every character by a string, in one pass. *)
Fixpoint substitute (f : ascii -> string) (s : string) : string :=
  match s with
  | EmptyString => EmptyString
  | String x rest => f x +:+ substitute f rest
  end.

(** ** Validation, handlers and the bucket view *)

(** What a handler does to storage and page, in order.  [Saved] and
    [Rendered] carry the task list at that moment. *)
Inductive event : Type :=
  | Saved (tasks : list object)
  | Rendered (tasks : list object)
  | FormReset (clearMsg : bool)
  | Announced (msg : value)
  | Focused (id : value).

(** [a.sort(cmp)]: the stable sort of the language, computed by stable
    insertion; a comparator result that is not positive (zero, negative or
    [NaN]) leaves the earlier element first. *)
Fixpoint sort_insert (cmp : object -> object -> number) (x : object) (l : list object)
  : list object :=
  match l with
  | [] => [x]
  | y :: rest =>
      if ngt (cmp x y) (Fin 0) then y :: sort_insert cmp x rest
      else x :: y :: rest
  end.

Definition Array_sort (cmp : object -> object -> number) (l : list object) : list object :=
  foldr (sort_insert cmp) [] l.

(** [buckets[name].push(t)]; [None] is the [TypeError] of pushing onto a
    bucket that does not exist. *)
Definition bucket_push (name : string) (t : object) (buckets : gmap string (list object))
  : option (gmap string (list object)) :=
  match buckets !! name with
  | Some l => Some (<[name := l ++ [t]]> buckets)
  | None => None
  end.

Definition empty_buckets : gmap string (list object) :=
  {[ "overdue" := []; "today" := []; "soon" := []; "upcoming" := []; "completed" := [] ]}.

Section Application.

Context {H : Host}.

Definition validate (t : object) : object :=
  if negb (truthy (get t "title"))
  then {[ "ok" := VBool false; "message" := VStr "Title is required." ]}
  else if negb (truthy (get t "dueDate"))
  then {[ "ok" := VBool false; "message" := VStr "Due date is required." ]}
  else if negb (bool_decide (is_Some (parseYmd (get t "dueDate"))))
  then {[ "ok" := VBool false; "message" := VStr "Due date is invalid." ]}
  else {[ "ok" := VBool true ]}.

(** The loop [for (const t of tasks) buckets[getCategory(t)].push(t)]. *)
Fixpoint fill_buckets (tasks : list object) (buckets : gmap string (list object))
  : M (option (gmap string (list object))) :=
  match tasks with
  | [] => mret (Some buckets)
  | t :: rest =>
      name ← getCategory t;
      match bucket_push name t buckets with
      | Some buckets => fill_buckets rest buckets
      | None => mret None
      end
  end.

(** The bucket computation of [render()]: fill the five buckets, then
    sort each with [compareTasks].  Drawing the lists is outside the
    model. *)
Definition render_buckets (tasks : list object) : M (option (gmap string (list object))) :=
  filled ← fill_buckets tasks empty_buckets;
  mret (fmap (M := option) (fmap (M := gmap string) (Array_sort compareTasks)) filled).

(** The handlers below run to completion on the readings [c] of the clock
    and return the task list and the events in order; the readings that
    [render()] makes at the end are not tracked, so no clock comes back. *)

(** [deleteTask(id)] *)
Definition deleteTask (id : value) (tasks : list object) : list object * list event :=
  let tasks := filter (fun t => strict_eq (get t "id") id = false) tasks in
  (tasks, [Saved tasks; Rendered tasks; Announced (VStr "Assignment deleted.")]).

(** [toggleComplete(id)] *)
Definition toggleComplete (id : value) (tasks : list object) (c : clock)
  : list object * list event :=
  match list_find (fun x => strict_eq (get x "id") id = true) tasks with
  | None => (tasks, [])
  | Some (i, t) =>
      let nextStatus :=
        if truthy (get t "completed") then STATUS_ACTIVE else STATUS_COMPLETED in
      let '(res, t') := (handleStatusChange t (VStr nextStatus) c).1 in
      let tasks := <[i := t']> tasks in
      let msg :=
        if truthy (get res "ok") && negb (truthy (get res "noop"))
        then (if String.eqb nextStatus STATUS_COMPLETED
              then "Marked completed." else "Marked open.")
        else "Status update ignored." in
      (tasks, [Saved tasks; Rendered tasks; Announced (VStr msg); Focused id])
  end.


End Application.

(** ** A concrete host *)

(** Value of a run of decimal digits, [None] on any other character. *)
Fixpoint digits_value (acc : Z) (s : string) : option Z :=
  match s with
  | EmptyString => Some acc
  | String c r =>
      let n := Z.of_nat (nat_of_ascii c) in
      if (48 <=? n) && (n <=? 57) then digits_value (10 * acc + (n - 48)) r else None
  end.

(** [Number(s)] restricted to plain decimal text (the empty text is 0);
    other text is not a number here. *)
Definition Number_decimal (s : string) : number :=
  match digits_value 0 s with
  | Some z => Fin z
  | None => NaN
  end.

(** A zone at a fixed offset: local time is universal time plus [off]
    milliseconds.  Identifiers come from a constant generator. *)
Definition fixed_offset_host (off : Z) : Host :=
  {| Number_ := Number_decimal;
     local_day := fun t => (t + off) / msPerDay;
     local_midnight := fun d => d * msPerDay - off;
     makeId := mret "id-1" |}.

(** ** Notions used by the statements *)

(** The value a computation yields under the clock [c]. *)
Definition eval {A} (m : M A) (c : clock) : A := (m c).1.

(** A timestamp field is set when it holds neither [null] nor [undefined]. *)
Definition non_null (v : value) : bool :=
  match v with
  | VNull | VUndefined => false
  | _ => true
  end.

(** The accumulated time a task carries: its [timeSpentMs] when that is a
    finite number, and 0 otherwise, which is what normalisation stores. *)
Definition timeSpent_of (task : object) : Z :=
  match get task "timeSpentMs" with
  | VNum (Fin T) => T
  | _ => 0
  end.

(** Every reading of the clock is a safe integer: [Date.now()] returns a
    time value, an integer of at most [8.64e15] in magnitude. *)
Definition safe_clock (c : clock) : Prop := forall n, safe_integer (c n).

(** The stored time and the session start of a task are safe integers
    where they are finite numbers. *)
Definition safe_metrics (task : object) : Prop :=
  safe_number (num_of (get task "timeSpentMs"))
  /\ safe_number (num_of (get task "activatedAt")).

(** Exactly one of [activatedAt], [completedAt] is set, and which one
    mirrors [completed]. *)
Definition lifecycle_invariant (task : object) : Prop :=
  (non_null (get task "activatedAt") = true <-> truthy (get task "completed") = false)
  /\ (non_null (get task "completedAt") = true <-> truthy (get task "completed") = true).

(** The form fields [updateTask] copies onto the task. *)
Definition overwrite (data t : object) : object :=
  assign "completed" (to_bool (get data "completed"))
    (assign "priority" (get data "priority")
       (assign "dueDate" (get data "dueDate")
          (assign "title" (get data "title") t))).

(** Complete, reopen, complete again: three calls on one clock. *)
Definition complete_reopen_complete (task : object) : M object :=
  r1 ← handleStatusChange task (VStr STATUS_COMPLETED);
  r2 ← handleStatusChange r1.2 (VStr STATUS_ACTIVE);
  r3 ← handleStatusChange r2.2 (VStr STATUS_COMPLETED);
  mret r3.2.

(** A task in normal form: the accumulated time is a finite number, both
    timestamp keys exist, and [activatedAt] is a finite instant on an
    active task and [null] on a completed one. *)
Definition normalised (t : object) : Prop :=
  (exists T, t !! "timeSpentMs" = Some (VNum (Fin T)))
  /\ is_Some (t !! "completedAt")
  /\ (if truthy (get t "completed")
      then t !! "activatedAt" = Some VNull
      else exists A, t !! "activatedAt" = Some (VNum (Fin A))).

(** The tasks of bucket [name]. *)
Definition bucket (name : string) (buckets : gmap string (list object)) : list object :=
  default [] (buckets !! name).

(** All the tasks a bucket view shows, bucket after bucket. *)
Definition all_tasks (buckets : gmap string (list object)) : list object :=
  bucket "overdue" buckets ++ bucket "today" buckets ++ bucket "soon" buckets
  ++ bucket "upcoming" buckets ++ bucket "completed" buckets.

(** The view has its five buckets. *)
Definition five_buckets (buckets : gmap string (list object)) : Prop :=
  forall name, name ∈ ["overdue"; "today"; "soon"; "upcoming"; "completed"] ->
               is_Some (buckets !! name).

(** The three results of [handleStatusChange]. *)
Definition result_invalid : object :=
  {[ "ok" := VBool false; "reason" := VStr "invalid_next_status" ]}.
Definition result_noop : object :=
  {[ "ok" := VBool true; "noop" := VBool true ]}.
Definition result_status (s : string) : object :=
  {[ "ok" := VBool true; "status" := VStr s ]}.

Section SchedulingNotions.

Context {H : Host}.

(** The local calendar day of a date (0 for an invalid date). *)
Definition day_of (dt : Date) : Z :=
  match getTime dt with
  | Fin t => local_day t
  | _ => 0
  end.

(** A valid date that is the start of its local day. *)
Definition start_of_day (dt : Date) : Prop :=
  (exists t, getTime dt = Fin t) /\ startOfDay dt = dt.

(** [a] sorts before [b]: the comparator returns a negative number. *)
Definition sorts_before (a b : object) : Prop :=
  nlt (compareTasks a b) (Fin 0) = true.

(** Neither sorts before the other. *)
Definition tied (a b : object) : Prop :=
  ~ sorts_before a b /\ ~ sorts_before b a.

(** The creation instant the comparator subtracts: [t.createdAt || 0]. *)
Definition created (t : object) : number :=
  ToNumber (or_else (get t "createdAt") (VNum (Fin 0))).

(** The priority score as an integer. *)
Definition score (t : object) : Z :=
  if strict_eq (get t "priority") (VStr "high") then 3
  else if strict_eq (get t "priority") (VStr "medium") then 2 else 1.

(** A number other than [NaN] as a pair ordered lexicographically:
    minus infinity, the integers, plus infinity. *)
Definition rank (n : number) : Z * Z :=
  match n with
  | Fin x => (0, x)
  | PInf => (1, 0)
  | _ => (-1, 0)
  end.

(** The sort key of a task: priority (higher first), then whether a due
    day is missing, the due day, and the creation instant. *)
Definition sort_key (t : object) : Z * Z * Z * Z * Z :=
  let dated :=
    match parseYmd (get t "dueDate") with
    | Some d => (0, day_of d)
    | None => (1, 0)
    end in
  (- score t, dated.1, dated.2, (rank (created t)).1, (rank (created t)).2).

End SchedulingNotions.

(** Lexicographic order on sort keys. *)
Definition key_lt (x y : Z * Z * Z * Z * Z) : Prop :=
  let '(x1, x2, x3, x4, x5) := x in
  let '(y1, y2, y3, y4, y5) := y in
  x1 < y1 \/ (x1 = y1 /\ (x2 < y2 \/ (x2 = y2 /\ (x3 < y3 \/ (x3 = y3 /\
    (x4 < y4 \/ (x4 = y4 /\ x5 < y5))))))).

(** [createdAt] holds an instant, or the task has none. *)
Definition createdAt_typed (task : object) : Prop :=
  typeof (get task "createdAt") = "number" \/ task !! "createdAt" = None.

(** The text [n] prints as. *)
Definition decimal (n : Z) : string := String_of_number (Fin n).

(** ** Sample tasks and clocks *)

(** The tasks of the source's own unit tests. *)
Definition task_t1 : object :=
  {[ "id" := VStr "t1"; "completed" := VBool false; "timeSpentMs" := VNum (Fin 0);
     "activatedAt" := VNum (Fin 1000); "completedAt" := VNull ]}.

Definition task_t2 : object :=
  {[ "id" := VStr "t2"; "completed" := VBool true; "timeSpentMs" := VNum (Fin 3000);
     "activatedAt" := VNull; "completedAt" := VNum (Fin 4000) ]}.

(** A completed task as stored before the metrics fields existed. *)
Definition task_legacy_done : object :=
  {[ "id" := VStr "old"; "title" := VStr "Essay"; "dueDate" := VStr "2024-03-01";
     "priority" := VStr "low"; "completed" := VBool true; "createdAt" := VNum (Fin 500) ]}.

(** A form record that marks task [t1] completed. *)
Definition form_done_t1 : object :=
  {[ "id" := VStr "t1"; "title" := VStr "Lab report"; "dueDate" := VStr "2024-03-15";
     "priority" := VStr "high"; "completed" := VBool true ]}.

(** A form record that edits task [t1] and leaves it open. *)
Definition form_open_t1 : object :=
  {[ "id" := VStr "t1"; "title" := VStr "Lab report, part 2"; "dueDate" := VStr "2024-03-16";
     "priority" := VStr "medium"; "completed" := VBool false ]}.

(** An open task due on the day written in [due]. *)
Definition task_due (due priority : string) (createdAt : Z) : object :=
  {[ "id" := VStr "d1"; "title" := VStr "Problem set"; "dueDate" := VStr due;
     "priority" := VStr priority; "completed" := VBool false;
     "createdAt" := VNum (Fin createdAt) ]}.

(** A zone five hours behind universal time. *)
Definition host_minus5 : Host := fixed_offset_host (-18000000).

(** 15:00 local time on 2024-03-10 in that zone. *)
Definition afternoon_2024_03_10 : Z :=
  days_from_civil 2024 3 10 * msPerDay + 18000000 + 15 * 3600000.

(** The three tasks of the ordering example: high priority due in 5 days,
    high priority due in 2 days, medium priority due tomorrow. *)
Definition task_high_5 : object := task_due "2024-03-15" "high" 10.
Definition task_high_2 : object := task_due "2024-03-12" "high" 20.
Definition task_medium_1 : object := task_due "2024-03-11" "medium" 30.

(** A form record for a new task, and one whose due date is no date. *)
Definition form_new_quiz : object :=
  {[ "title" := VStr "Quiz"; "dueDate" := VStr "2024-03-20";
     "priority" := VStr "low"; "completed" := VBool false ]}.

Definition form_bad_date : object :=
  {[ "title" := VStr "Quiz"; "dueDate" := VStr "2024-02-30";
     "priority" := VStr "low"; "completed" := VBool false ]}.

(** A clock that reads [now] forever. *)
Definition clock_at (now : Z) : clock := fun _ => now.

(** * Properties *)

(** ** Exact arithmetic *)

(** A safe integer is a double. *)
Lemma round_double_safe (z : Z) : safe_integer z -> round_double z = Fin z.
Proof.
  unfold safe_integer, MAX_SAFE_INTEGER, round_double. intros Hz.
  assert (He : Z.log2 (Z.abs z) - 52 <= 0).
  { destruct (decide (z = 0)) as [-> | Hnz]; [done |].
    assert (Z.log2 (Z.abs z) < 53); [| lia].
    apply Z.log2_lt_pow2; [lia |].
    change (2 ^ 53) with 9007199254740992. lia. }
  apply Z.leb_le in He. cbv zeta. by rewrite He.
Qed.

(** Within the safe integers the sum and the difference of the model are
    the doubles the source computes. *)
Lemma nadd_exact (x y : Z) : exact_sum x y -> nadd (Fin x) (Fin y) = round_double (x + y).
Proof. intros (_ & _ & Hs). by rewrite round_double_safe. Qed.

Lemma nsub_exact (x y : Z) :
  exact_difference x y -> nsub (Fin x) (Fin y) = round_double (x - y).
Proof. intros (_ & _ & Hs). by rewrite round_double_safe. Qed.

(** Above [2^53] they part: [2^53 + 1] is no double. *)
Lemma round_double_above_safe :
  round_double (9007199254740992 + 1) = Fin 9007199254740992
  /\ nadd (Fin 9007199254740992) (Fin 1) = Fin 9007199254740993.
Proof. split; reflexivity. Qed.

(** ** Objects and values *)

Lemma get_assign_eq (o : object) k v : get (assign k v o) k = v.
Proof. unfold get, assign. by rewrite lookup_insert_eq. Qed.

Lemma get_assign_ne (o : object) k k' v : k <> k' -> get (assign k v o) k' = get o k'.
Proof. intros. unfold get, assign. by rewrite lookup_insert_ne. Qed.

Lemma get_defined (o : object) k v :
  get o k = v -> v <> VUndefined -> o !! k = Some v.
Proof. unfold get. destruct (o !! k); simpl; congruence. Qed.

Lemma strict_eq_VStr v s : strict_eq v (VStr s) = true <-> v = VStr s.
Proof.
  destruct v; simpl; try (split; [discriminate | discriminate]).
  rewrite String.eqb_eq. split; congruence.
Qed.

Lemma strict_eq_VStr_false v s : strict_eq v (VStr s) = false <-> v <> VStr s.
Proof.
  rewrite <- strict_eq_VStr. destruct (strict_eq v (VStr s)); split; congruence.
Qed.

Lemma getTaskStatus_cases task :
  (truthy (get task "completed") = true /\ getTaskStatus task = STATUS_COMPLETED)
  \/ (truthy (get task "completed") = false /\ getTaskStatus task = STATUS_ACTIVE).
Proof. unfold getTaskStatus. destruct (truthy _); auto. Qed.

(** ** Normalisation *)

Ltac unfold_M := unfold eval, mbind, mret, M_bind, M_ret, Date_now in *; simpl in *.

Ltac fields :=
  repeat first
    [ rewrite get_assign_eq
    | rewrite get_assign_ne by discriminate ].

(** Defaulting the key [k] to [null] when the object lacks it. *)
Lemma default_key_lookup (o : object) k k' :
  (if negb (has k o) then assign k VNull o else o) !! k'
  = if decide (k = k') then Some (default VNull (o !! k)) else o !! k'.
Proof.
  unfold has, assign. case_bool_decide as Hk; simpl.
  - destruct Hk as [v Hv]. case_decide; subst; by rewrite ?Hv.
  - apply eq_None_not_Some in Hk. rewrite lookup_insert.
    case_decide; subst; by rewrite ?Hk.
Qed.

(** Resetting [timeSpentMs] when it is not a finite number. *)
Lemma reset_timeSpent_lookup (o : object) k :
  (if negb (String.eqb (typeof (get o "timeSpentMs")) "number")
      || negb (Number_isFinite (get o "timeSpentMs"))
   then assign "timeSpentMs" (VNum (Fin 0)) o else o) !! k
  = if decide ("timeSpentMs" = k) then
      match o !! "timeSpentMs" with
      | Some (VNum (Fin T)) => Some (VNum (Fin T))
      | _ => Some (VNum (Fin 0))
      end
    else o !! k.
Proof.
  unfold get, assign.
  destruct (o !! "timeSpentMs") as [[| | |[]|]|] eqn:Hts; simpl;
    rewrite ?lookup_insert; case_decide; subst; by rewrite ?Hts.
Qed.

(** What [normalizeTaskMetrics] does, field by field. *)
Lemma normalize_spec (task : object) (c : clock) :
  let r := normalizeTaskMetrics task c in
  get r.1 "timeSpentMs" = VNum (Fin (timeSpent_of task))
  /\ r.1 !! "completedAt" = Some (default VNull (task !! "completedAt"))
  /\ (forall k, k <> "timeSpentMs" -> k <> "activatedAt" -> k <> "completedAt" ->
        r.1 !! k = task !! k)
  /\ (if truthy (get task "completed")
      then get r.1 "activatedAt" = VNull /\ r.2 = c
      else if Number_isFinite (get task "activatedAt")
      then r.1 !! "activatedAt" = task !! "activatedAt" /\ r.2 = c
      else get r.1 "activatedAt" = VNum (Fin (c O)) /\ r.2 = fun n => c (S n)).
Proof.
  unfold normalizeTaskMetrics.
  set (t1 := if (_ : bool) then assign "timeSpentMs" _ task else task).
  set (t2 := if negb (has "activatedAt" t1) then _ else _).
  set (t3 := if negb (has "completedAt" t2) then _ else _).
  assert (L1 : forall k, t1 !! k = _) by (intros k; apply reset_timeSpent_lookup).
  assert (L2 : forall k, t2 !! k = _) by (intros k; apply default_key_lookup).
  assert (L3 : forall k, t3 !! k = _) by (intros k; apply default_key_lookup).
  assert (G3 : forall k, k <> "timeSpentMs" -> k <> "activatedAt" -> k <> "completedAt" ->
                 t3 !! k = task !! k).
  { intros k ? ? ?. rewrite L3, !L2, !L1. repeat case_decide; congruence. }
  assert (T3 : get t3 "timeSpentMs" = VNum (Fin (timeSpent_of task))).
  { unfold get at 1, timeSpent_of, get. rewrite L3, !L2, !L1. simpl.
    by destruct (task !! "timeSpentMs") as [[| | |[]|]|]. }
  assert (C3 : t3 !! "completedAt" = Some (default VNull (task !! "completedAt"))).
  { rewrite L3, !L2, !L1. simpl. done. }
  assert (A3 : t3 !! "activatedAt" = Some (default VNull (task !! "activatedAt"))).
  { rewrite L3, !L2, !L1. simpl. done. }
  assert (S3 : get t3 "completed" = get task "completed").
  { unfold get. by rewrite G3. }
  clearbody t3. clear t1 t2 L1 L2 L3.
  unfold_M. unfold getTaskStatus. rewrite S3.
  destruct (truthy (get task "completed")) eqn:Hd; simpl.
  - unfold getTaskStatus. rewrite S3, Hd. simpl. fields.
    unfold assign. rewrite lookup_insert_ne by discriminate.
    repeat split; try done.
    intros k ? ? ?. rewrite lookup_insert_ne by done. by apply G3.
  - assert (Hf : Number_isFinite (get t3 "activatedAt") = Number_isFinite (get task "activatedAt")).
    { unfold get. rewrite A3. by destruct (task !! "activatedAt"). }
    assert (Hn : strict_eq (get t3 "activatedAt") VNull = true ->
                 Number_isFinite (get task "activatedAt") = false).
    { rewrite <- Hf. by destruct (get t3 "activatedAt") as [| | |[]|]. }
    rewrite Hf.
    destruct (Number_isFinite (get task "activatedAt")) eqn:Hfin; simpl.
    + destruct (strict_eq (get t3 "activatedAt") VNull) eqn:Hnull;
        [by specialize (Hn eq_refl) |]. simpl.
      unfold getTaskStatus. rewrite S3, Hd. simpl.
      repeat split; try done.
      rewrite A3. unfold get in Hfin. by destruct (task !! "activatedAt").
    + rewrite orb_true_r. simpl.
      unfold getTaskStatus. rewrite get_assign_ne by discriminate. rewrite S3, Hd. simpl.
      fields. unfold assign. rewrite lookup_insert_ne by discriminate.
      repeat split; try done.
      intros k ? ? ?. rewrite lookup_insert_ne by done. by apply G3.
Qed.

(** ** Status transitions *)

#[local] Arguments normalizeTaskMetrics : simpl never.
#[local] Arguments assign : simpl never.
#[local] Arguments get : simpl never.
#[local] Arguments result_invalid : simpl never.
#[local] Arguments result_noop : simpl never.
#[local] Arguments result_status : simpl never.

Lemma active_is_active : strict_eq (VStr STATUS_ACTIVE) (VStr STATUS_ACTIVE) = true.
Proof. reflexivity. Qed.
Lemma active_is_not_completed : strict_eq (VStr STATUS_ACTIVE) (VStr STATUS_COMPLETED) = false.
Proof. reflexivity. Qed.
Lemma completed_is_not_active : strict_eq (VStr STATUS_COMPLETED) (VStr STATUS_ACTIVE) = false.
Proof. reflexivity. Qed.
Lemma completed_is_completed : strict_eq (VStr STATUS_COMPLETED) (VStr STATUS_COMPLETED) = true.
Proof. reflexivity. Qed.

(** Decide the tests a call makes on two known status names. *)
Ltac status_tests :=
  rewrite ?active_is_active, ?active_is_not_completed,
    ?completed_is_not_active, ?completed_is_completed;
  cbn [negb andb orb].

(** The three ways a call of [handleStatusChange] can go. *)
Lemma handleStatusChange_unfold (task : object) (nextStatus : value) (c : clock) :
  handleStatusChange task nextStatus c =
  let now := c O in
  let c1 : clock := fun n => c (S n) in
  if negb (strict_eq nextStatus (VStr STATUS_ACTIVE))
     && negb (strict_eq nextStatus (VStr STATUS_COMPLETED))
  then (result_invalid, task, c1)
  else if strict_eq (VStr (getTaskStatus task)) nextStatus
  then (result_noop, task, c1)
  else
    let n := normalizeTaskMetrics task c1 in
    if strict_eq nextStatus (VStr STATUS_ACTIVE)
    then (result_status STATUS_ACTIVE,
          assign "activatedAt" (VNum (Fin now))
            (assign "completedAt" VNull (assign "completed" (VBool false) n.1)), n.2)
    else
      let t := assign "completed" (VBool true) n.1 in
      let t :=
        if String.eqb (typeof (get t "activatedAt")) "number"
           && Number_isFinite (get t "activatedAt")
        then
          let delta := nsub (Fin now) (num_of (get t "activatedAt")) in
          if ngt delta (Fin 0) then add_timeSpent delta t else t
        else t in
      (result_status STATUS_COMPLETED,
       assign "activatedAt" VNull (assign "completedAt" (VNum (Fin now)) t), n.2).
Proof.
  unfold handleStatusChange, mbind, M_bind, Date_now, mret, M_ret.
  destruct (negb _ && negb _); [reflexivity |].
  destruct (strict_eq (VStr _) _); [reflexivity |].
  destruct (normalizeTaskMetrics task _) as [t' c'].
  destruct (strict_eq nextStatus _); reflexivity.
Qed.

(** A target that is neither status name is rejected and the task kept. *)
Lemma handleStatusChange_invalid_target_gen (task : object) (nextStatus : value) (c : clock) :
  nextStatus <> VStr STATUS_ACTIVE ->
  nextStatus <> VStr STATUS_COMPLETED ->
  eval (handleStatusChange task nextStatus) c = (result_invalid, task)
  /\ get result_invalid "ok" = VBool false.
Proof.
  intros Ha Hc. split; [| reflexivity].
  unfold eval. rewrite handleStatusChange_unfold. cbv zeta.
  apply strict_eq_VStr_false in Ha, Hc. by rewrite Ha, Hc.
Qed.

(** C8: a target status that is neither ["active"] nor ["completed"] is
    rejected: the result has [ok = false] and the reason
    ["invalid_next_status"], and the task comes back exactly as it was. *)
Theorem handleStatusChange_invalid_target (task : object) (nextStatus : value) (c : clock) :
  nextStatus <> VStr STATUS_ACTIVE ->
  nextStatus <> VStr STATUS_COMPLETED ->
  eval (handleStatusChange task nextStatus) c = (result_invalid, task)
  /\ get result_invalid "ok" = VBool false
  /\ get result_invalid "reason" = VStr "invalid_next_status".
Proof.
  intros Ha Hc.
  destruct (handleStatusChange_invalid_target_gen task nextStatus c Ha Hc) as [Hr Hok].
  by split_and!.
Qed.

Lemma handleStatusChange_invalid_target_witness :
  eval (handleStatusChange task_t1 (VStr "bogus")) (clock_at 4000) = (result_invalid, task_t1)
  /\ get result_invalid "ok" = VBool false
  /\ get result_invalid "reason" = VStr "invalid_next_status".
Proof.
  apply (handleStatusChange_invalid_target task_t1 (VStr "bogus") (clock_at 4000));
    discriminate.
Defined.

(** A call whose target is the current status changes nothing. *)
Lemma handleStatusChange_same_status (task : object) (s : string) (c : clock) :
  getTaskStatus task = s ->
  eval (handleStatusChange task (VStr s)) c = (result_noop, task).
Proof.
  intros <-. unfold eval. rewrite handleStatusChange_unfold. cbv zeta.
  assert (Hs : strict_eq (VStr (getTaskStatus task)) (VStr (getTaskStatus task)) = true)
    by by apply strict_eq_VStr.
  rewrite Hs.
  destruct (getTaskStatus_cases task) as [[_ ->] | [_ ->]]; reflexivity.
Qed.

(** After a call with a recognised target the task has that status. *)
Lemma handleStatusChange_reaches_target (task : object) (s : string) (c : clock) :
  s = STATUS_ACTIVE \/ s = STATUS_COMPLETED ->
  getTaskStatus (eval (handleStatusChange task (VStr s)) c).2 = s.
Proof.
  intros Hs. unfold eval. rewrite handleStatusChange_unfold. cbv zeta.
  destruct (getTaskStatus_cases task) as [[_ Hst] | [_ Hst]]; rewrite Hst;
    destruct Hs as [-> | ->]; status_tests; cbn [fst snd]; try done.
  all: unfold getTaskStatus; fields; try reflexivity.
  repeat (match goal with |- context [if ?b then _ else _] =>
            lazymatch b with truthy _ => fail | _ => destruct b end end);
    unfold add_timeSpent; fields; reflexivity.
Qed.

(** C6: when the task already has the requested status the call is a
    no-op: it reports [ok] with the [noop] mark and returns the task
    unmodified; hence a second call with the same recognised target leaves
    the task as the first call left it. *)
Theorem handleStatusChange_idempotent (task : object) (s : string) (c c' : clock) :
  (getTaskStatus task = s ->
   eval (handleStatusChange task (VStr s)) c = (result_noop, task)
   /\ get result_noop "ok" = VBool true /\ get result_noop "noop" = VBool true)
  /\ (s = STATUS_ACTIVE \/ s = STATUS_COMPLETED ->
      let once := (eval (handleStatusChange task (VStr s)) c).2 in
      eval (handleStatusChange once (VStr s)) c' = (result_noop, once)).
Proof.
  split.
  - intros Hs. split; [by apply handleStatusChange_same_status | by split].
  - intros Hs once. apply handleStatusChange_same_status.
    by apply handleStatusChange_reaches_target.
Qed.

Lemma handleStatusChange_idempotent_witness :
  eval (handleStatusChange task_t2 (VStr "completed")) (clock_at 5000) = (result_noop, task_t2)
  /\ (let once := (eval (handleStatusChange task_t1 (VStr "completed")) (clock_at 4000)).2 in
      eval (handleStatusChange once (VStr "completed")) (clock_at 9000) = (result_noop, once)).
Proof.
  split.
  - apply (proj1 (handleStatusChange_idempotent task_t2 "completed"
                     (clock_at 5000) (clock_at 5000))).
    reflexivity.
  - apply (proj2 (handleStatusChange_idempotent task_t1 "completed"
                     (clock_at 4000) (clock_at 9000))).
    right. reflexivity.
Defined.

Lemma active_not_completed task :
  getTaskStatus task = STATUS_ACTIVE -> truthy (get task "completed") = false.
Proof. by destruct (getTaskStatus_cases task) as [[_ ->] | [? _]]. Qed.

Lemma completed_not_active task :
  getTaskStatus task = STATUS_COMPLETED -> truthy (get task "completed") = true.
Proof. by destruct (getTaskStatus_cases task) as [[? _] | [_ ->]]. Qed.

Lemma timeSpent_of_get task T :
  get task "timeSpentMs" = VNum (Fin T) -> timeSpent_of task = T.
Proof. unfold timeSpent_of. by intros ->. Qed.

(** Completing an active task whose session start is the instant [A]. *)
Lemma handleStatusChange_complete (task : object) (A : Z) (c : clock) :
  getTaskStatus task = STATUS_ACTIVE ->
  get task "activatedAt" = VNum (Fin A) ->
  let now := c O in
  let r := handleStatusChange task (VStr STATUS_COMPLETED) c in
  r.1.1 = result_status STATUS_COMPLETED
  /\ r.2 = (fun n => c (S n))
  /\ get r.1.2 "completed" = VBool true
  /\ get r.1.2 "completedAt" = VNum (Fin now)
  /\ get r.1.2 "activatedAt" = VNull
  /\ get r.1.2 "timeSpentMs" = VNum (Fin (timeSpent_of task + Z.max 0 (now - A)))
  /\ (forall k, k <> "completed" -> k <> "completedAt" -> k <> "activatedAt" ->
        k <> "timeSpentMs" -> r.1.2 !! k = task !! k).
Proof.
  intros Hst HA now r. subst r now.
  rewrite handleStatusChange_unfold. cbv zeta. rewrite Hst. status_tests.
  destruct (normalize_spec task (fun n => c (S n))) as (Hts & _ & Hother & Hact).
  rewrite (active_not_completed _ Hst), HA in Hact. cbn [Number_isFinite] in Hact.
  destruct Hact as [Hact Hclock].
  set (n := normalizeTaskMetrics task _) in *.
  assert (HnA : get n.1 "activatedAt" = VNum (Fin A)).
  { unfold get in *. by rewrite Hact. }
  cbn [fst snd]. fields. rewrite HnA. cbn [typeof Number_isFinite num_of].
  change (String.eqb "number" "number") with true. cbn [andb].
  unfold nsub, ngt. cbn [nneg nadd nlt].
  destruct (Z.ltb_spec 0 (c O + - A)); unfold add_timeSpent; fields;
    rewrite ?Hts; cbn [num_of nadd].
  all: split_and!.
  all: try (apply (f_equal VNum), (f_equal Fin); lia).
  all: try exact Hclock.
  all: try (intros k ? ? ? ?; unfold assign; rewrite !lookup_insert_ne by done;
    by apply Hother).
  all: reflexivity.
Qed.

(** Reopening a completed task. *)
Lemma handleStatusChange_reopen (task : object) (c : clock) :
  getTaskStatus task = STATUS_COMPLETED ->
  let now := c O in
  let r := handleStatusChange task (VStr STATUS_ACTIVE) c in
  r.1.1 = result_status STATUS_ACTIVE
  /\ r.2 = (fun n => c (S n))
  /\ get r.1.2 "completed" = VBool false
  /\ get r.1.2 "completedAt" = VNull
  /\ get r.1.2 "activatedAt" = VNum (Fin now)
  /\ get r.1.2 "timeSpentMs" = VNum (Fin (timeSpent_of task))
  /\ (Number_isFinite (get task "timeSpentMs") = true ->
      r.1.2 !! "timeSpentMs" = task !! "timeSpentMs")
  /\ (forall k, k <> "completed" -> k <> "completedAt" -> k <> "activatedAt" ->
        k <> "timeSpentMs" -> r.1.2 !! k = task !! k).
Proof.
  intros Hst now r. subst r now.
  rewrite handleStatusChange_unfold. cbv zeta. rewrite Hst. status_tests.
  destruct (normalize_spec task (fun n => c (S n))) as (Hts & _ & Hother & Hact).
  rewrite (completed_not_active _ Hst) in Hact. destruct Hact as [_ Hclock].
  set (n := normalizeTaskMetrics task _) in *.
  cbn [fst snd]. fields.
  split_and!; try reflexivity; try assumption.
  - intros Hfin. unfold assign. rewrite !lookup_insert_ne by done.
    destruct (get task "timeSpentMs") as [| | |[T| | |]|] eqn:HT; try discriminate.
    rewrite (timeSpent_of_get _ _ HT) in Hts.
    by rewrite (get_defined _ _ _ Hts), (get_defined _ _ _ HT).
  - intros k ? ? ? ?. unfold assign. rewrite !lookup_insert_ne by done.
    by apply Hother.
Qed.

Lemma bind_run {A B} (m : M A) (k : A -> M B) (c : clock) :
  (m ≫= k) c = k (m c).1 (m c).2.
Proof. unfold mbind, M_bind. by destruct (m c). Qed.

Lemma getTaskStatus_of_flag task b :
  get task "completed" = VBool b ->
  getTaskStatus task = if b then STATUS_COMPLETED else STATUS_ACTIVE.
Proof. unfold getTaskStatus. by intros ->. Qed.

(** C3: completing, at the instant [B], an active task whose session
    began at the finite instant [A] sets [completed = true] and
    [completedAt = B], clears [activatedAt], and adds exactly
    [max(0, B - A)] to the accumulated time: [B - A] when [B > A], nothing
    when [B <= A], so the accumulated time never decreases.  The instants,
    the accumulated time, the difference [now - task.activatedAt] and the
    sum [task.timeSpentMs += delta] are safe integers, the range in which
    the source's arithmetic is exact. *)
Theorem complete_adds_session_time (task : object) (A B : Z) (c : clock) :
  getTaskStatus task = STATUS_ACTIVE ->
  get task "activatedAt" = VNum (Fin A) ->
  exact_difference B A ->
  exact_sum (timeSpent_of task) (Z.max 0 (B - A)) ->
  let after := (eval (handleStatusChange task (VStr STATUS_COMPLETED)) (tick B c)).2 in
  get after "completed" = VBool true
  /\ get after "completedAt" = VNum (Fin B)
  /\ get after "activatedAt" = VNull
  /\ get after "timeSpentMs" = VNum (Fin (timeSpent_of task + Z.max 0 (B - A)))
  /\ (A < B -> get after "timeSpentMs" = VNum (Fin (timeSpent_of task + (B - A))))
  /\ (B <= A -> get after "timeSpentMs" = VNum (Fin (timeSpent_of task)))
  /\ (forall T, get task "timeSpentMs" = VNum (Fin T) -> B <= A ->
        get after "timeSpentMs" = get task "timeSpentMs")
  /\ timeSpent_of task <= timeSpent_of after.
Proof.
  intros Hst HA _ _ after.
  destruct (handleStatusChange_complete task A (tick B c) Hst HA)
    as (_ & _ & Hc & Hca & Haa & Hts & _).
  change (tick B c O) with B in *.
  subst after. unfold eval.
  split_and!; try assumption.
  - intros ?. rewrite Hts. apply (f_equal VNum), (f_equal Fin). lia.
  - intros ?. rewrite Hts. apply (f_equal VNum), (f_equal Fin). lia.
  - intros T HT ?. rewrite Hts, HT, (timeSpent_of_get _ _ HT).
    apply (f_equal VNum), (f_equal Fin). lia.
  - rewrite (timeSpent_of_get _ _ Hts). lia.
Qed.

Lemma complete_adds_session_time_witness :
  let after :=
    (eval (handleStatusChange task_t1 (VStr STATUS_COMPLETED)) (tick 4000 (clock_at 0))).2 in
  get after "completed" = VBool true
  /\ get after "completedAt" = VNum (Fin 4000)
  /\ get after "activatedAt" = VNull
  /\ get after "timeSpentMs" = VNum (Fin 3000).
Proof.
  destruct (complete_adds_session_time task_t1 1000 4000 (clock_at 0))
    as (H1 & H2 & H3 & H4 & _);
    [reflexivity | reflexivity | by vm_compute | by vm_compute |].
  split_and!; assumption.
Defined.

(** C7: reopening a completed task at the instant [C] sets
    [completed = false], clears [completedAt], sets [activatedAt = C] and
    leaves the accumulated time and every other field as it was; hence a
    session from [A] to [B] followed by a session from [C] to [D] adds
    [(B - A) + (D - C)], whatever the gap between [B] and [C].  The two
    differences and the two sums the source computes on the way are on
    safe integers, the range in which its arithmetic is exact. *)
Theorem reopen_keeps_time :
  (forall (task : object) (C : Z) (c : clock),
     getTaskStatus task = STATUS_COMPLETED ->
     let after := (eval (handleStatusChange task (VStr STATUS_ACTIVE)) (tick C c)).2 in
     get after "completed" = VBool false
     /\ get after "completedAt" = VNull
     /\ get after "activatedAt" = VNum (Fin C)
     /\ timeSpent_of after = timeSpent_of task
     /\ (Number_isFinite (get task "timeSpentMs") = true ->
         after !! "timeSpentMs" = task !! "timeSpentMs")
     /\ (forall k, k <> "completed" -> k <> "completedAt" -> k <> "activatedAt" ->
           k <> "timeSpentMs" -> after !! k = task !! k))
  /\ (forall (task : object) (A B C D : Z) (c : clock),
        getTaskStatus task = STATUS_ACTIVE ->
        get task "activatedAt" = VNum (Fin A) ->
        A <= B -> C <= D ->
        exact_difference B A ->
        exact_sum (timeSpent_of task) (B - A) ->
        exact_difference D C ->
        exact_sum (timeSpent_of task + (B - A)) (D - C) ->
        get (eval (complete_reopen_complete task) (tick B (tick C (tick D c))))
            "timeSpentMs"
        = VNum (Fin (timeSpent_of task + ((B - A) + (D - C))))).
Proof.
  split.
  - intros task C c Hst after.
    destruct (handleStatusChange_reopen task (tick C c) Hst)
      as (_ & _ & Hc & Hca & Haa & Hts & Hkeep & Hother).
    change (tick C c O) with C in *.
    subst after. unfold eval.
    split_and!; try assumption. by apply timeSpent_of_get.
  - intros task A B C D c Hst HA HAB HCD _ _ _ _.
    unfold complete_reopen_complete, eval. rewrite !bind_run.
    destruct (handleStatusChange_complete task A (tick B (tick C (tick D c))) Hst HA)
      as (_ & Hk1 & Hc1 & _ & _ & Hts1 & _).
    set (r1 := handleStatusChange task _ _) in *.
    change (tick B (tick C (tick D c)) O) with B in *.
    assert (Hst1 : getTaskStatus r1.1.2 = STATUS_COMPLETED)
      by apply (getTaskStatus_of_flag _ true Hc1).
    destruct (handleStatusChange_reopen r1.1.2 r1.2 Hst1)
      as (_ & Hk2 & Hc2 & _ & Ha2 & Hts2 & _).
    set (r2 := handleStatusChange r1.1.2 _ _) in *.
    rewrite Hk1 in Ha2, Hk2. change (tick B (tick C (tick D c)) 1%nat) with C in *.
    assert (Hst2 : getTaskStatus r2.1.2 = STATUS_ACTIVE)
      by apply (getTaskStatus_of_flag _ false Hc2).
    destruct (handleStatusChange_complete r2.1.2 C r2.2 Hst2 Ha2)
      as (_ & _ & _ & _ & _ & Hts3 & _).
    assert (HD : r2.2 O = D) by by rewrite Hk2.
    rewrite HD in Hts3.
    cbn [fst snd mret M_ret]. unfold mret, M_ret. cbn [fst snd].
    rewrite Hts3, (timeSpent_of_get _ _ Hts2), (timeSpent_of_get _ _ Hts1).
    apply (f_equal VNum), (f_equal Fin). lia.
Qed.

Lemma reopen_keeps_time_witness :
  (let after := (eval (handleStatusChange task_t2 (VStr STATUS_ACTIVE))
                   (tick 5000 (clock_at 0))).2 in
   get after "activatedAt" = VNum (Fin 5000)
   /\ after !! "timeSpentMs" = task_t2 !! "timeSpentMs")
  /\ get (eval (complete_reopen_complete task_t1)
            (tick 4000 (tick 50000 (tick 53000 (clock_at 0))))) "timeSpentMs"
     = VNum (Fin (timeSpent_of task_t1 + ((4000 - 1000) + (53000 - 50000)))).
Proof.
  split.
  - destruct (proj1 reopen_keeps_time task_t2 5000 (clock_at 0))
      as (_ & _ & Ha & _ & Hts & _); [reflexivity |].
    split; [exact Ha | apply Hts; reflexivity].
  - apply (proj2 reopen_keeps_time task_t1 1000 4000 50000 53000 (clock_at 0));
      [reflexivity | reflexivity | lia | lia | by vm_compute ..].
Defined.

(** ** Elapsed time *)

Lemma nadd_zero_r (a : number) : nadd a (Fin 0) = a.
Proof. destruct a; simpl; try done. by rewrite Z.add_0_r. Qed.

Lemma Math_max_zero_not_negative (a : number) : nlt (Math_max (Fin 0) a) (Fin 0) = false.
Proof.
  destruct a as [x| | |]; simpl; try done.
  destruct (Z.ltb_spec 0 x); simpl; [apply Z.ltb_ge; lia | done].
Qed.

Lemma nadd_not_below (a b : number) : nlt b (Fin 0) = false -> nlt (nadd a b) a = false.
Proof.
  destruct a as [x| | |], b as [y| | |]; simpl; try done.
  intros Hy. apply Z.ltb_ge in Hy. apply Z.ltb_ge. lia.
Qed.

(** C10: [calcTimeSpentMs] writes nothing (it yields a number only, and
    with an explicit instant it does not even read the clock).  For a task
    whose [timeSpentMs] is the number [T] it returns [T] plus
    [max(0, atTimeMs - activatedAt)] when the task is active and
    [activatedAt] is a number, and [T] alone otherwise, in particular for
    every completed task whatever the instant; the result is never below
    [T].  The stored time and the query instant are safe integers (or the
    stored time is not finite), and so are [activatedAt], the difference
    [atTimeMs - task.activatedAt] and the sum [base + active] where their
    value is stated: the range in which the source's arithmetic is
    exact. *)
Theorem calcTimeSpentMs_elapsed (task : object) (atTimeMs : Z) (T : number) (c : clock) :
  get task "timeSpentMs" = VNum T ->
  safe_number T ->
  safe_integer atTimeMs ->
  let r := calcTimeSpentMs task (Some (Fin atTimeMs)) c in
  r.2 = c
  /\ (forall A, getTaskStatus task = STATUS_ACTIVE -> get task "activatedAt" = VNum A ->
        safe_number A ->
        safe_number (nsub (Fin atTimeMs) A) ->
        safe_number (nadd T (Math_max (Fin 0) (nsub (Fin atTimeMs) A))) ->
        r.1 = nadd T (Math_max (Fin 0) (nsub (Fin atTimeMs) A)))
  /\ (forall A T0, getTaskStatus task = STATUS_ACTIVE ->
        get task "activatedAt" = VNum (Fin A) -> T = Fin T0 ->
        exact_difference atTimeMs A ->
        exact_sum T0 (Z.max 0 (atTimeMs - A)) ->
        r.1 = Fin (T0 + Z.max 0 (atTimeMs - A)))
  /\ (getTaskStatus task = STATUS_COMPLETED \/ typeof (get task "activatedAt") <> "number" ->
        r.1 = T)
  /\ nlt r.1 T = false.
Proof.
  intros HT _ _ r. subst r.
  unfold calcTimeSpentMs. rewrite bind_run. unfold mret, M_ret. cbn [fst snd].
  rewrite HT. cbn [typeof num_of].
  change (String.eqb "number" "number") with true. cbv iota.
  assert (Hgen : forall A, getTaskStatus task = STATUS_ACTIVE ->
            get task "activatedAt" = VNum A ->
            nadd T (if String.eqb (getTaskStatus task) STATUS_ACTIVE
                       && String.eqb (typeof (get task "activatedAt")) "number"
                    then Math_max (Fin 0) (nsub (Fin atTimeMs) (num_of (get task "activatedAt")))
                    else Fin 0)
            = nadd T (Math_max (Fin 0) (nsub (Fin atTimeMs) A))).
  { intros A -> ->. reflexivity. }
  split_and!.
  - reflexivity.
  - intros A Hst HA _ _ _. by apply Hgen.
  - intros A T0 Hst HA -> _ _. rewrite (Hgen _ Hst HA).
    unfold nsub. cbn [nneg nadd Math_max nlt].
    destruct (Z.ltb_spec 0 (atTimeMs + - A)); cbn [nadd]; f_equal; lia.
  - intros [-> | Hty].
    + apply nadd_zero_r.
    + destruct (String.eqb_spec (typeof (get task "activatedAt")) "number");
        [done |]. rewrite andb_false_r. apply nadd_zero_r.
  - apply nadd_not_below.
    destruct (_ && _); [apply Math_max_zero_not_negative | done].
Qed.

Lemma calcTimeSpentMs_elapsed_witness :
  (calcTimeSpentMs task_t1 (Some (Fin 2500)) (clock_at 0)).1 = Fin (0 + Z.max 0 (2500 - 1000))
  /\ (calcTimeSpentMs task_t2 (Some (Fin 99000)) (clock_at 0)).1 = Fin 3000.
Proof.
  split.
  - destruct (calcTimeSpentMs_elapsed task_t1 2500 (Fin 0) (clock_at 0) eq_refl)
      as (_ & _ & H & _); [by vm_compute | by vm_compute |].
    apply (H 1000 0); [reflexivity | reflexivity | reflexivity | by vm_compute ..].
  - destruct (calcTimeSpentMs_elapsed task_t2 99000 (Fin 3000) (clock_at 0) eq_refl)
      as (_ & _ & _ & H & _); [by vm_compute | by vm_compute |].
    apply H. left. reflexivity.
Defined.

(** ** The lifecycle invariant *)

Lemma invariant_of_fields (task : object) (b : bool) (n : Z) :
  get task "completed" = VBool b ->
  get task "activatedAt" = (if b then VNull else VNum (Fin n)) ->
  get task "completedAt" = (if b then VNum (Fin n) else VNull) ->
  lifecycle_invariant task.
Proof.
  intros Hc Ha Hd. unfold lifecycle_invariant. rewrite Hc, Ha, Hd.
  destruct b; simpl; split; split; congruence.
Qed.

(** Completing an active task, whatever its [activatedAt] holds. *)
Lemma handleStatusChange_completed_fields (task : object) (c : clock) :
  getTaskStatus task = STATUS_ACTIVE ->
  let r := handleStatusChange task (VStr STATUS_COMPLETED) c in
  get r.1.2 "completed" = VBool true
  /\ get r.1.2 "completedAt" = VNum (Fin (c O))
  /\ get r.1.2 "activatedAt" = VNull.
Proof.
  intros Hst r. subst r.
  rewrite handleStatusChange_unfold. cbv zeta. rewrite Hst. status_tests.
  cbn [fst snd]. fields.
  repeat (match goal with |- context [if ?b then _ else _] => destruct b end);
    unfold add_timeSpent; fields; split_and!; reflexivity.
Qed.

(** A call that performs a transition establishes the invariant. *)
Lemma handleStatusChange_transition_invariant (task : object) (s : string) (c : clock) :
  s = STATUS_ACTIVE \/ s = STATUS_COMPLETED ->
  getTaskStatus task <> s ->
  lifecycle_invariant (handleStatusChange task (VStr s) c).1.2.
Proof.
  intros Hs Hne.
  destruct (getTaskStatus_cases task) as [[_ Hst] | [_ Hst]];
    destruct Hs as [-> | ->]; try congruence.
  - destruct (handleStatusChange_reopen task c Hst) as (_ & _ & Hc & Hd & Ha & _).
    by apply (invariant_of_fields _ false (c O)).
  - destruct (handleStatusChange_completed_fields task c Hst) as (Hc & Hd & Ha).
    by apply (invariant_of_fields _ true (c O)).
Qed.

(** Whatever the call does, a task that satisfies the invariant still
    satisfies it afterwards. *)
Lemma handleStatusChange_preserves_invariant (task : object) (s : value) (c : clock) :
  lifecycle_invariant task ->
  lifecycle_invariant (handleStatusChange task s c).1.2.
Proof.
  intros Hinv.
  destruct (decide (s = VStr STATUS_ACTIVE \/ s = VStr STATUS_COMPLETED)) as [Hs | Hs].
  - assert (exists n, s = VStr n /\ (n = STATUS_ACTIVE \/ n = STATUS_COMPLETED))
      as (n & -> & Hn) by (destruct Hs as [-> | ->]; eauto).
    destruct (decide (getTaskStatus task = n)) as [Heq | Hne].
    + pose proof (handleStatusChange_same_status task n c Heq) as Hr.
      unfold eval in Hr. by rewrite Hr.
    + by apply handleStatusChange_transition_invariant.
  - destruct (handleStatusChange_invalid_target_gen task s c) as [Hr _]; [tauto | tauto |].
    unfold eval in Hr. by rewrite Hr.
Qed.

Lemma normalize_keeps_completed (task : object) (c : clock) :
  get (normalizeTaskMetrics task c).1 "completed" = get task "completed".
Proof.
  destruct (normalize_spec task c) as (_ & _ & Hother & _).
  unfold get. by rewrite Hother.
Qed.

(** After normalisation [activatedAt] is set exactly on active tasks. *)
Lemma normalize_activatedAt_mirrors (task : object) (c : clock) :
  let t := (normalizeTaskMetrics task c).1 in
  non_null (get t "activatedAt") = true <-> truthy (get t "completed") = false.
Proof.
  intros t. subst t. rewrite normalize_keeps_completed.
  destruct (normalize_spec task c) as (_ & _ & _ & Hact).
  destruct (truthy (get task "completed")).
  - destruct Hact as [-> _]. simpl. split; congruence.
  - destruct (Number_isFinite (get task "activatedAt")) eqn:Hfin.
    + destruct Hact as [Hact _]. unfold get in *. rewrite Hact.
      by destruct (task !! "activatedAt") as [[| | |[]|]|].
    + by destruct Hact as [-> _].
Qed.

(** Normalisation leaves [completedAt] set or unset as it found it. *)
Lemma normalize_completedAt_non_null (task : object) (c : clock) :
  non_null (get (normalizeTaskMetrics task c).1 "completedAt")
  = non_null (get task "completedAt").
Proof.
  destruct (normalize_spec task c) as (_ & Hc & _).
  unfold get. rewrite Hc. by destruct (task !! "completedAt").
Qed.

Lemma normalize_preserves_invariant (task : object) (c : clock) :
  lifecycle_invariant task -> lifecycle_invariant (normalizeTaskMetrics task c).1.
Proof.
  intros [_ Hc]. split.
  - apply normalize_activatedAt_mirrors.
  - by rewrite normalize_completedAt_non_null, normalize_keeps_completed.
Qed.

Lemma to_bool_truthy v : truthy (to_bool v) = truthy v.
Proof. reflexivity. Qed.

Lemma updateFound_unfold (data t : object) (c : clock) :
  updateFound data t c =
  let t' := overwrite data t in
  let n := normalizeTaskMetrics t' c in
  if negb (String.eqb (getTaskStatus t) (getTaskStatus t'))
  then let r := handleStatusChange n.1 (VStr (getTaskStatus t')) n.2 in (r.1.2, r.2)
  else if String.eqb (getTaskStatus t') STATUS_ACTIVE
          && (strict_eq (get n.1 "activatedAt") VNull
              || negb (Number_isFinite (get n.1 "activatedAt")))
  then (assign "activatedAt" (VNum (Fin (n.2 O))) n.1, fun k => n.2 (S k))
  else n.
Proof.
  unfold updateFound. fold (overwrite data t). cbv zeta.
  rewrite bind_run.
  destruct (negb _).
  - rewrite bind_run. reflexivity.
  - destruct (_ && _); [| by destruct (normalizeTaskMetrics _ _)].
    rewrite bind_run. reflexivity.
Qed.

Lemma getTaskStatus_normalize (task : object) (c : clock) :
  getTaskStatus (normalizeTaskMetrics task c).1 = getTaskStatus task.
Proof. unfold getTaskStatus. by rewrite normalize_keeps_completed. Qed.

(** An edit that flips the completion flag only overwrites the form fields
    and normalises: the call of [handleStatusChange] it makes finds the
    flag already flipped and does nothing. *)
Lemma updateFound_flip (data t : object) (c : clock) :
  getTaskStatus t <> getTaskStatus (overwrite data t) ->
  (updateFound data t c).1 = (normalizeTaskMetrics (overwrite data t) c).1.
Proof.
  intros Hne. rewrite updateFound_unfold. cbv zeta.
  destruct (String.eqb_spec (getTaskStatus t) (getTaskStatus (overwrite data t))); [done |].
  cbn [negb fst snd].
  set (nt := normalizeTaskMetrics _ c).
  pose proof (handleStatusChange_same_status nt.1 (getTaskStatus (overwrite data t)) nt.2) as Hr.
  unfold eval in Hr. rewrite Hr; [done |].
  apply getTaskStatus_normalize.
Qed.

(** An edit that keeps the completion flag keeps the invariant. *)
Lemma updateFound_preserves_invariant (data t : object) (c : clock) :
  truthy (get data "completed") = truthy (get t "completed") ->
  lifecycle_invariant t ->
  lifecycle_invariant (updateFound data t c).1.
Proof.
  intros Hsame Hinv.
  assert (Hflag : truthy (get (overwrite data t) "completed") = truthy (get t "completed")).
  { unfold overwrite. by fields. }
  assert (Hst : getTaskStatus (overwrite data t) = getTaskStatus t).
  { unfold getTaskStatus. by rewrite Hflag. }
  assert (Hinv' : lifecycle_invariant (overwrite data t)).
  { unfold lifecycle_invariant. rewrite Hflag. unfold overwrite. by fields. }
  rewrite updateFound_unfold. cbv zeta. rewrite Hst, String.eqb_refl. cbn [negb].
  pose proof (normalize_preserves_invariant _ c Hinv') as Hn.
  set (n := normalizeTaskMetrics _ c) in *.
  destruct (String.eqb_spec (getTaskStatus t) STATUS_ACTIVE) as [Hact | Hact];
    [| exact Hn].
  destruct (_ || _); [| exact Hn]. cbn [andb fst].
  destruct Hn as [_ Hc]. unfold lifecycle_invariant. fields.
  assert (Hf : truthy (get n.1 "completed") = false).
  { unfold n. rewrite normalize_keeps_completed, Hflag. by apply active_not_completed. }
  rewrite Hf in *. split; [done | exact Hc].
Qed.

Lemma updateTask_preserves_invariant (data : object) (tasks : list object) (c : clock) :
  (forall i t, list_find (fun x => strict_eq (get x "id") (get data "id") = true) tasks
               = Some (i, t) ->
               truthy (get data "completed") = truthy (get t "completed")) ->
  Forall lifecycle_invariant tasks ->
  Forall lifecycle_invariant (updateTask data tasks c).1.
Proof.
  intros Hsame Hall. unfold updateTask.
  destruct (list_find _ tasks) as [[i t] |] eqn:Hfind; [| exact Hall].
  rewrite bind_run. unfold mret, M_ret. cbn [fst].
  apply Forall_insert; [exact Hall |].
  apply updateFound_preserves_invariant; [by eapply Hsame |].
  apply list_find_Some in Hfind as (Hi & _ & _).
  eapply Forall_lookup_1; eauto.
Qed.

Lemma createTask_invariant `{H : Host} (data : object) (tasks : list object) (c : clock) :
  exists t, (createTask data tasks c).1.2 = tasks ++ [t] /\ lifecycle_invariant t.
Proof.
  unfold createTask. rewrite !bind_run. unfold mret, M_ret. cbn [fst snd].
  eexists. split; [reflexivity |].
  set (id := (makeId c).1). set (now := Date_now _).
  unfold to_bool.
  destruct (truthy (get data "completed")) eqn:Hd.
  - apply (invariant_of_fields _ true now.1); unfold get, assign; by simplify_map_eq.
  - apply (invariant_of_fields _ false now.1); unfold get, assign; by simplify_map_eq.
Qed.

(** C1: an edit that marks the active task [t1] (session started at 1000)
    completed at the instant 4000 adds no time and records no completion
    instant: [timeSpentMs] stays 0 and [completedAt] stays [null], while
    the explicit toggle of the same task at the same instant yields
    [timeSpentMs = 3000] and [completedAt = 4000]. *)
Theorem updateTask_edit_skips_transition :
  let toggled :=
    (eval (handleStatusChange task_t1 (VStr STATUS_COMPLETED)) (clock_at 4000)).2 in
  exists edited,
    eval (updateTask form_done_t1 [task_t1]) (clock_at 4000) = [edited]
    /\ get edited "completed" = VBool true
    /\ get edited "timeSpentMs" = VNum (Fin 0)
    /\ get edited "completedAt" = VNull
    /\ get edited "activatedAt" = VNull
    /\ get toggled "completed" = VBool true
    /\ get toggled "timeSpentMs" = VNum (Fin 3000)
    /\ get toggled "completedAt" = VNum (Fin 4000)
    /\ get toggled "activatedAt" = VNull.
Proof. eexists. split; [vm_compute; reflexivity |]. by vm_compute. Qed.

(** The invariant of C2 fails after [normalizeTaskMetrics] on a completed
    task stored before the metrics fields existed: the task is completed
    and both timestamps are [null]. *)
Lemma normalize_legacy_completed_unset :
  let t := eval (normalizeTaskMetrics task_legacy_done) (clock_at 4000) in
  get t "completed" = VBool true
  /\ get t "activatedAt" = VNull
  /\ get t "completedAt" = VNull
  /\ ~ lifecycle_invariant t.
Proof.
  split_and!; try by vm_compute.
  intros [_ Hc]. vm_compute in Hc. destruct Hc as [_ Hc]. by specialize (Hc eq_refl).
Qed.

(** C2, amended: [createTask], and a [handleStatusChange] that performs a
    transition, yield a task on which exactly one of [activatedAt] and
    [completedAt] is set, mirroring [completed].  Every call of
    [handleStatusChange], [normalizeTaskMetrics], and an [updateTask] that
    keeps the completion flag of the task it edits, preserve that invariant;
    [normalizeTaskMetrics] by itself makes [activatedAt] set exactly on
    active tasks and leaves [completedAt] set or unset as it was. *)
Theorem lifecycle_invariant_by_operation `{H : Host} :
  (forall data tasks c,
     exists t, (createTask data tasks c).1.2 = tasks ++ [t] /\ lifecycle_invariant t)
  /\ (forall task s c,
        s = STATUS_ACTIVE \/ s = STATUS_COMPLETED ->
        getTaskStatus task <> s ->
        lifecycle_invariant (eval (handleStatusChange task (VStr s)) c).2)
  /\ (forall task s c,
        lifecycle_invariant task ->
        lifecycle_invariant (eval (handleStatusChange task s) c).2)
  /\ (forall task c,
        let t := eval (normalizeTaskMetrics task) c in
        (non_null (get t "activatedAt") = true <-> truthy (get t "completed") = false)
        /\ non_null (get t "completedAt") = non_null (get task "completedAt")
        /\ (lifecycle_invariant task -> lifecycle_invariant t))
  /\ (forall data tasks c,
        (forall i t,
           list_find (fun x => strict_eq (get x "id") (get data "id") = true) tasks
           = Some (i, t) ->
           truthy (get data "completed") = truthy (get t "completed")) ->
        Forall lifecycle_invariant tasks ->
        Forall lifecycle_invariant (eval (updateTask data tasks) c)).
Proof.
  split_and!.
  - apply createTask_invariant.
  - intros. by apply handleStatusChange_transition_invariant.
  - intros. by apply handleStatusChange_preserves_invariant.
  - intros task c t. subst t. unfold eval. split_and!.
    + apply normalize_activatedAt_mirrors.
    + apply normalize_completedAt_non_null.
    + apply normalize_preserves_invariant.
  - intros. by apply updateTask_preserves_invariant.
Qed.

Lemma task_t1_invariant : lifecycle_invariant task_t1.
Proof. by apply (invariant_of_fields _ false 1000). Qed.

Lemma task_t2_invariant : lifecycle_invariant task_t2.
Proof. by apply (invariant_of_fields _ true 4000). Qed.

Lemma lifecycle_invariant_by_operation_witness :
  lifecycle_invariant
    (eval (handleStatusChange task_t1 (VStr STATUS_COMPLETED)) (clock_at 4000)).2
  /\ lifecycle_invariant (eval (handleStatusChange task_t2 (VStr "bogus")) (clock_at 4000)).2
  /\ lifecycle_invariant (eval (normalizeTaskMetrics task_t2) (clock_at 4000))
  /\ Forall lifecycle_invariant (eval (updateTask form_open_t1 [task_t1]) (clock_at 4000)).
Proof.
  destruct (lifecycle_invariant_by_operation (H := fixed_offset_host 0))
    as (_ & Htrans & Hkeep & Hnorm & Hupd).
  split_and!.
  - apply Htrans; [by right | discriminate].
  - apply Hkeep, task_t2_invariant.
  - apply Hnorm, task_t2_invariant.
  - apply Hupd.
    + intros i t Hfind. vm_compute in Hfind. by simplify_eq.
    + constructor; [apply task_t1_invariant | constructor].
Defined.

(** ** Dates *)

Lemma fixed_offset_laws (off : Z) : HostLaws (fixed_offset_host off).
Proof.
  split; cbn [fixed_offset_host local_day local_midnight].
  - intros d. replace (d * msPerDay - off + off) with (d * msPerDay) by lia.
    by apply Z.div_mul.
  - intros a b. unfold msPerDay. lia.
Qed.

Lemma num_eq_true (a b : number) : num_eq a b = true -> a = b.
Proof.
  destruct a, b; simpl; try discriminate; try reflexivity.
  intros Heq. apply Z.eqb_eq in Heq. by subst.
Qed.

Lemma num_eq_Fin (x y : Z) : num_eq (Fin x) (Fin y) = (x =? y).
Proof. reflexivity. Qed.

Lemma TimeClip_Fin (t u : Z) : TimeClip t = Fin u -> u = t.
Proof. unfold TimeClip. destruct (_ <=? _); congruence. Qed.

(** Within a 400-year era the year and the day of the year stay in range. *)
Lemma year_of_era (doe : Z) :
  0 <= doe <= 146096 ->
  let yoe := (doe - doe / 1460 + doe / 36524 - doe / 146096) / 365 in
  let doy := doe - (365 * yoe + yoe / 4 - yoe / 100) in
  0 <= yoe <= 399 /\ 0 <= doy <= 365.
Proof.
  intros Hd yoe doy. subst yoe doy.
  Z.div_mod_to_equations. lia.
Qed.

(** The civil date of a day number is a calendar date, and it denotes
    that day again. *)
Lemma civil_from_days_spec (z : Z) :
  let '(y, m, d) := civil_from_days z in
  1 <= m <= 12 /\ 1 <= d <= 31 /\ days_from_civil y m 1 + d - 1 = z.
Proof.
  unfold civil_from_days.
  set (z' := z + 719468). set (era := z' / 146097). set (doe := z' - era * 146097).
  assert (Hdoe : 0 <= doe <= 146096) by (subst doe era; Z.div_mod_to_equations; lia).
  destruct (year_of_era doe Hdoe) as [Hyoe Hdoy].
  set (yoe := (doe - doe / 1460 + doe / 36524 - doe / 146096) / 365) in *.
  set (doy := doe - (365 * yoe + yoe / 4 - yoe / 100)) in *.
  set (mp := (5 * doy + 2) / 153).
  assert (Hmp : 0 <= mp <= 11) by (subst mp; Z.div_mod_to_equations; lia).
  assert (Hd : 1 <= doy - (153 * mp + 2) / 5 + 1 <= 31)
    by (subst mp; Z.div_mod_to_equations; lia).
  unfold days_from_civil.
  destruct (Z.ltb_spec mp 10).
  - replace (mp + 3 <=? 2) with false by lia. replace (2 <? mp + 3) with true by lia.
    replace (yoe + era * 400 + 0) with (yoe + era * 400) by lia.
    replace ((yoe + era * 400) / 400) with era by (Z.div_mod_to_equations; lia).
    replace (yoe + era * 400 - era * 400) with yoe by lia.
    replace (mp + 3 - 3) with mp by lia.
    split; [lia |]. split; [lia |]. subst doy z' doe. fold era. lia.
  - replace (mp - 9 <=? 2) with true by lia. replace (2 <? mp - 9) with false by lia.
    replace (yoe + era * 400 + 1 - 1) with (yoe + era * 400) by lia.
    replace ((yoe + era * 400) / 400) with era by (Z.div_mod_to_equations; lia).
    replace (yoe + era * 400 - era * 400) with yoe by lia.
    replace (mp - 9 + 9) with mp by lia.
    split; [lia |]. split; [lia |]. subst doy z' doe. fold era. lia.
Qed.

Lemma TimeClip_in_range (t : Z) : Z.abs t <= 8640000000000000 -> TimeClip t = Fin t.
Proof. unfold TimeClip. intros Ht. by destruct (Z.leb_spec (Z.abs t) 8640000000000000); [| lia]. Qed.

Section Scheduling.

Context {H : Host} {HL : HostLaws H}.

(** The starts of local days come in the order of the days. *)
Lemma local_midnight_lt (a b : Z) : local_midnight a < local_midnight b <-> a < b.
Proof.
  destruct (decide (a = b)) as [-> | Hne]; [lia |].
  pose proof (midnight_spacing a b) as Hab. unfold msPerDay in Hab. lia.
Qed.

Lemma local_midnight_inj (a b : Z) : local_midnight a = local_midnight b -> a = b.
Proof.
  pose proof (midnight_spacing a b) as Hab. unfold msPerDay in Hab. lia.
Qed.

(** Rounding the distance between two day starts gives the day count. *)
Lemma round_midnight_distance (a b : Z) :
  (2 * (local_midnight b - local_midnight a) + msPerDay) / (2 * msPerDay) = b - a.
Proof.
  pose proof (midnight_spacing a b) as Hab. unfold msPerDay in *.
  symmetry. apply (Z.div_unique_pos _ _ _
    (2 * (local_midnight b - local_midnight a - (b - a) * 86400000) + 86400000)); lia.
Qed.

(** A valid date built from year, month index and day starts a local day,
    and that day is its [day_of]. *)
Lemma Date_ymd_time (y m d : number) (t : Z) :
  getTime (Date_ymd y m d) = Fin t ->
  t = local_midnight (day_of (Date_ymd y m d)).
Proof.
  intros Ht. unfold day_of. rewrite Ht.
  destruct y as [y| | |], m as [m| | |], d as [d| | |]; try discriminate.
  simpl in Ht. apply TimeClip_Fin in Ht. subst t.
  by rewrite local_day_midnight.
Qed.

Lemma start_of_day_time (dt : Date) :
  start_of_day dt -> getTime dt = Fin (local_midnight (day_of dt)).
Proof.
  intros [[t Ht] Hs]. rewrite Ht. f_equal.
  rewrite <- Hs in Ht |- *. by apply Date_ymd_time.
Qed.

(** What [parseYmd] accepts is a valid start of day. *)
Lemma parseYmd_start_of_day (v : value) (dt : Date) :
  parseYmd v = Some dt -> start_of_day dt.
Proof.
  unfold parseYmd.
  destruct (negb (truthy v) || _); [discriminate |].
  destruct v as [| | | |s]; try discriminate.
  destruct (split_dash s) as [|p0 [|p1 [|p2 [|]]]]; try discriminate.
  destruct (Number_ p0) as [y| | |], (Number_ p1) as [m| | |], (Number_ p2) as [d| | |];
    try discriminate.
  cbn [Number_isInteger negb orb].
  set (built := Date_ymd _ _ _).
  destruct (num_eq (getFullYear built) (Fin y)) eqn:Hy; [| discriminate].
  destruct (num_eq (getMonth built) (nsub (Fin m) (Fin 1))) eqn:Hm; [| discriminate].
  destruct (num_eq (getDate built) (Fin d)) eqn:Hd; [| discriminate].
  cbn [negb orb]. intros [= <-].
  apply num_eq_true in Hy, Hm, Hd. split.
  - unfold getFullYear in Hy. destruct (getTime built); try discriminate. eauto.
  - unfold startOfDay. by rewrite Hy, Hm, Hd.
Qed.

Lemma start_of_day_idem (dt : Date) : start_of_day dt -> startOfDay dt = dt.
Proof. by intros [_ ?]. Qed.

Lemma start_of_day_eq (a b : Date) :
  start_of_day a -> start_of_day b -> day_of a = day_of b -> a = b.
Proof.
  intros Ha Hb Hd. apply start_of_day_time in Ha, Hb.
  destruct a as [ta], b as [tb]. simpl in *. congruence.
Qed.

(** On starts of days, [<] on dates is [<] on days. *)
Lemma date_lt_days (a b : Date) :
  start_of_day a -> start_of_day b ->
  nlt (getTime a) (getTime b) = (day_of a <? day_of b).
Proof.
  intros Ha Hb. rewrite (start_of_day_time _ Ha), (start_of_day_time _ Hb).
  cbn [nlt]. destruct (Z.ltb_spec (day_of a) (day_of b)) as [Hlt | Hge].
  - apply Z.ltb_lt. by apply local_midnight_lt.
  - apply Z.ltb_ge. pose proof (local_midnight_lt (day_of a) (day_of b)). lia.
Qed.

(** On starts of days, [sameDay] is equality of days. *)
Lemma sameDay_days (a b : Date) :
  start_of_day a -> start_of_day b ->
  sameDay a b = (day_of a =? day_of b).
Proof.
  intros Ha Hb. destruct (Z.eqb_spec (day_of a) (day_of b)) as [Heq | Hne].
  - rewrite (start_of_day_eq a b Ha Hb Heq).
    destruct Hb as [[t Ht] _]. unfold sameDay, getFullYear, getMonth, getDate.
    rewrite Ht. cbn [num_eq]. by rewrite !Z.eqb_refl.
  - destruct (sameDay a b) eqn:Hs; [| done]. exfalso. apply Hne.
    unfold sameDay in Hs. apply andb_prop in Hs as [Hs Hd]. apply andb_prop in Hs as [Hy Hm].
    apply num_eq_true in Hy, Hm, Hd.
    rewrite <- (start_of_day_idem a Ha), <- (start_of_day_idem b Hb).
    unfold startOfDay. by rewrite Hy, Hm, Hd.
Qed.

(** On starts of days, [diffDays] is the difference of days. *)
Lemma diffDays_days (a b : Date) :
  start_of_day a -> start_of_day b ->
  diffDays a b = Fin (day_of b - day_of a).
Proof.
  intros Ha Hb. unfold diffDays.
  rewrite (start_of_day_idem a Ha), (start_of_day_idem b Hb).
  rewrite (start_of_day_time _ Ha), (start_of_day_time _ Hb).
  unfold nsub. cbn [nneg nadd Math_round_div]. f_equal.
  rewrite <- round_midnight_distance. f_equal; lia.
Qed.

(** The due day [parseYmd] yields is the day the text writes. *)
Lemma parseYmd_civil (v : value) (due : Date) :
  parseYmd v = Some due ->
  exists s p0 p1 p2 y m d,
    v = VStr s /\ split_dash s = [p0; p1; p2]
    /\ Number_ p0 = Fin y /\ Number_ p1 = Fin m /\ Number_ p2 = Fin d
    /\ civil_from_days (day_of due) = (y, m, d).
Proof.
  unfold parseYmd.
  destruct (negb (truthy v) || _); [discriminate |].
  destruct v as [| | | |s]; try discriminate.
  destruct (split_dash s) as [|p0 [|p1 [|p2 [|]]]] eqn:Es; try discriminate.
  destruct (Number_ p0) as [y| | |] eqn:E0, (Number_ p1) as [m| | |] eqn:E1,
    (Number_ p2) as [d| | |] eqn:E2; try discriminate.
  cbn [Number_isInteger negb orb].
  set (built := Date_ymd _ _ _).
  destruct (num_eq (getFullYear built) (Fin y)) eqn:Hy; [| discriminate].
  destruct (num_eq (getMonth built) (nsub (Fin m) (Fin 1))) eqn:Hm; [| discriminate].
  destruct (num_eq (getDate built) (Fin d)) eqn:Hd; [| discriminate].
  cbn [negb orb]. intros [= <-].
  apply num_eq_true in Hy, Hm, Hd.
  exists s, p0, p1, p2, y, m, d. split_and!; try done.
  unfold getFullYear, getMonth, getDate, day_of in *.
  destruct (getTime built) as [t| | |]; try discriminate.
  destruct (civil_from_days (local_day t)) as [[cy cm] cd].
  cbn [fst snd nsub nneg nadd] in *. simplify_eq.
  by replace cm with m by lia.
Qed.

(** At an instant of the representable range whose local year is outside
    0..99, [startOfToday()] is the valid start of the current local day. *)
Lemma startOfToday_start_of_day (c : clock) :
  let now := c O in
  Z.abs now <= 8640000000000000 ->
  Z.abs (local_midnight (local_day now)) <= 8640000000000000 ->
  ~ 0 <= (civil_from_days (local_day now)).1.1 <= 99 ->
  start_of_day (eval startOfToday c) /\ day_of (eval startOfToday c) = local_day now.
Proof.
  intros now Hnow Hmid Hyear.
  assert (Hstart : forall t, local_day t = local_day now ->
            startOfDay (mkDate (Fin t)) = mkDate (Fin (local_midnight (local_day now)))).
  { intros t Ht. unfold startOfDay, getFullYear, getMonth, getDate. cbn [getTime].
    rewrite Ht. pose proof (civil_from_days_spec (local_day now)) as Hc.
    destruct (civil_from_days (local_day now)) as [[y m] d].
    cbn [fst snd] in *. destruct Hc as (Hm & Hd & Hz).
    unfold Date_ymd.
    replace ((0 <=? y) && (y <=? 99)) with false by lia.
    replace ((m - 1) / 12) with 0 by (Z.div_mod_to_equations; lia).
    replace ((m - 1) mod 12 + 1) with m by (Z.div_mod_to_equations; lia).
    replace (y + 0) with y by lia.
    by rewrite Hz, TimeClip_in_range. }
  unfold eval, startOfToday, Date_current. rewrite !bind_run.
  unfold mret, M_ret, Date_now. cbn [fst snd]. fold now.
  rewrite (TimeClip_in_range now Hnow), (Hstart now eq_refl).
  split; [split; [by eexists |] |].
  - apply Hstart. apply local_day_midnight.
  - unfold day_of. cbn [getTime]. apply local_day_midnight.
Qed.

End Scheduling.

(** ** Buckets and deadline descriptors *)

Section Categorisation.

Context {H : Host} {HL : HostLaws H}.

Lemma startOfToday_clock (c : clock) : (startOfToday c).2 = fun n => c (S n).
Proof. reflexivity. Qed.

(** The bucket of an open task with a parsed due date, by day difference. *)
Lemma getCategory_dated (task : object) (c : clock) (due : Date) :
  truthy (get task "completed") = false ->
  parseYmd (get task "dueDate") = Some due ->
  start_of_day (eval startOfToday c) ->
  eval (getCategory task) c =
  let delta := day_of due - day_of (eval startOfToday c) in
  if delta <? 0 then "overdue"
  else if delta =? 0 then "today"
  else if (1 <=? delta) && (delta <=? 7) then "soon"
  else "upcoming".
Proof.
  intros Hopen Hparse Htoday.
  pose proof (parseYmd_start_of_day _ _ Hparse) as Hdue.
  unfold getCategory, eval in *. rewrite Hopen, Hparse, bind_run.
  set (today := (startOfToday c).1) in *.
  rewrite (start_of_day_idem due Hdue).
  rewrite (date_lt_days due today Hdue Htoday), (sameDay_days due today Hdue Htoday),
    (diffDays_days today due Htoday Hdue).
  unfold nle. cbn [nlt num_eq]. cbv zeta.
  set (delta := day_of due - day_of today).
  replace (day_of due <? day_of today) with (delta <? 0) by (subst delta; lia).
  replace (day_of due =? day_of today) with (delta =? 0) by (subst delta; lia).
  replace ((1 <? delta) || (1 =? delta)) with (1 <=? delta) by lia.
  replace ((delta <? 7) || (delta =? 7)) with (delta <=? 7) by lia.
  destruct (delta <? 0); [reflexivity |].
  destruct (delta =? 0); [reflexivity |].
  destruct (_ && _); reflexivity.
Qed.

(** C4: a completed task lands in [completed] whatever its due date.  An
    open task lands in [upcoming] when its due date is missing or does not
    parse, in [overdue] when the due day is before today, in [today] when
    it is today, in [soon] when it is 1 to 7 days ahead, and in [upcoming]
    from 8 days ahead on. *)
Theorem getCategory_buckets (task : object) (c : clock) :
  (truthy (get task "completed") = true -> eval (getCategory task) c = "completed")
  /\ (truthy (get task "completed") = false ->
      (task !! "dueDate" = None -> eval (getCategory task) c = "upcoming")
      /\ (parseYmd (get task "dueDate") = None -> eval (getCategory task) c = "upcoming")
      /\ (forall due,
            parseYmd (get task "dueDate") = Some due ->
            start_of_day (eval startOfToday c) ->
            let delta := day_of due - day_of (eval startOfToday c) in
            (delta < 0 -> eval (getCategory task) c = "overdue")
            /\ (delta = 0 -> eval (getCategory task) c = "today")
            /\ (1 <= delta <= 7 -> eval (getCategory task) c = "soon")
            /\ (8 <= delta -> eval (getCategory task) c = "upcoming"))).
Proof.
  split.
  - intros Hdone. unfold getCategory, eval. by rewrite Hdone.
  - intros Hopen. split_and!.
    + intros Hnone. unfold getCategory, eval. rewrite Hopen.
      unfold get. by rewrite Hnone.
    + intros Hnone. unfold getCategory, eval. by rewrite Hopen, Hnone.
    + intros due Hparse Htoday delta.
      rewrite (getCategory_dated task c due Hopen Hparse Htoday). cbv zeta.
      fold delta. split_and!; intros Hd.
      * by destruct (Z.ltb_spec delta 0); [| lia].
      * subst delta. by rewrite Hd.
      * destruct (Z.ltb_spec delta 0); [lia |].
        destruct (Z.eqb_spec delta 0); [lia |].
        destruct (Z.leb_spec 1 delta); [| lia].
        by destruct (Z.leb_spec delta 7); [| lia].
      * destruct (Z.ltb_spec delta 0); [lia |].
        destruct (Z.eqb_spec delta 0); [lia |].
        destruct (Z.leb_spec 1 delta); [| lia].
        by destruct (Z.leb_spec delta 7); [lia |].
Qed.

(** The descriptor of an open task with a parsed due date. *)
Lemma getDeadlineInfo_dated (task : object) (c : clock) (due : Date) :
  truthy (get task "completed") = false ->
  parseYmd (get task "dueDate") = Some due ->
  start_of_day (eval startOfToday c) ->
  eval (getDeadlineInfo task) c =
  let delta := day_of due - day_of (eval startOfToday c) in
  if delta <? 0 then
    mkInfo ("Overdue by " +:+ decimal (Z.abs delta) +:+ " "
            +:+ (if Z.abs delta =? 1 then "day" else "days")) "overdue"
  else if delta =? 0 then mkInfo "Due today" "warning"
  else if delta =? 1 then mkInfo "Due tomorrow" "warning"
  else if delta <=? 3 then
    mkInfo ("Due in " +:+ decimal delta +:+ " "
            +:+ (if delta =? 1 then "day" else "days")) "warning"
  else
    mkInfo ("Due in " +:+ decimal delta +:+ " "
            +:+ (if delta =? 1 then "day" else "days")) "safe".
Proof.
  intros Hopen Hparse Htoday.
  pose proof (parseYmd_start_of_day _ _ Hparse) as Hdue.
  unfold getDeadlineInfo, eval in *. rewrite Hopen, Hparse, bind_run.
  set (today := (startOfToday c).1) in *.
  rewrite (start_of_day_idem due Hdue), (diffDays_days today due Htoday Hdue).
  unfold nle, decimal. cbn [nlt num_eq Math_abs]. cbv zeta.
  set (delta := day_of due - day_of today).
  replace ((delta <? 3) || (delta =? 3)) with (delta <=? 3) by lia.
  destruct (delta <? 0); [reflexivity |].
  destruct (delta =? 0); [reflexivity |].
  destruct (delta =? 1) eqn:H1; [reflexivity |].
  destruct (delta <=? 3); reflexivity.
Qed.

(** C9: the descriptor is ["Completed"]/[done] for a completed task and
    ["Due date invalid"]/[safe] when the due date does not parse; for a
    due day [delta] days from today it is ["Overdue by N day(s)"]/[overdue]
    with [N = -delta] when [delta < 0], ["Due today"]/[warning] at 0,
    ["Due tomorrow"]/[warning] at 1, ["Due in N days"]/[warning] for 2 and
    3, and ["Due in N days"]/[safe] from 4 on; the word is ["day"] for
    exactly one day and ["days"] otherwise. *)
Theorem getDeadlineInfo_descriptor (task : object) (c : clock) :
  (truthy (get task "completed") = true ->
   eval (getDeadlineInfo task) c = mkInfo "Completed" "done")
  /\ (truthy (get task "completed") = false ->
      (parseYmd (get task "dueDate") = None ->
       eval (getDeadlineInfo task) c = mkInfo "Due date invalid" "safe")
      /\ (forall due,
            parseYmd (get task "dueDate") = Some due ->
            start_of_day (eval startOfToday c) ->
            let delta := day_of due - day_of (eval startOfToday c) in
            (delta = -1 ->
               eval (getDeadlineInfo task) c = mkInfo "Overdue by 1 day" "overdue")
            /\ (delta < -1 ->
                  eval (getDeadlineInfo task) c
                  = mkInfo ("Overdue by " +:+ decimal (- delta) +:+ " days") "overdue")
            /\ (delta = 0 -> eval (getDeadlineInfo task) c = mkInfo "Due today" "warning")
            /\ (delta = 1 -> eval (getDeadlineInfo task) c = mkInfo "Due tomorrow" "warning")
            /\ (2 <= delta <= 3 ->
                  eval (getDeadlineInfo task) c
                  = mkInfo ("Due in " +:+ decimal delta +:+ " days") "warning")
            /\ (4 <= delta ->
                  eval (getDeadlineInfo task) c
                  = mkInfo ("Due in " +:+ decimal delta +:+ " days") "safe"))).
Proof.
  split.
  - intros Hdone. unfold getDeadlineInfo, eval. by rewrite Hdone.
  - intros Hopen. split.
    + intros Hnone. unfold getDeadlineInfo, eval. by rewrite Hopen, Hnone.
    + intros due Hparse Htoday delta.
      rewrite (getDeadlineInfo_dated task c due Hopen Hparse Htoday). cbv zeta.
      fold delta. split_and!; intros Hd.
      * by rewrite Hd.
      * destruct (Z.ltb_spec delta 0); [| lia].
        replace (Z.abs delta) with (- delta) by lia.
        by destruct (Z.eqb_spec (- delta) 1); [lia |].
      * by rewrite Hd.
      * by rewrite Hd.
      * destruct (Z.ltb_spec delta 0); [lia |].
        destruct (Z.eqb_spec delta 0); [lia |].
        destruct (Z.eqb_spec delta 1); [lia |].
        by destruct (Z.leb_spec delta 3); [| lia].
      * destruct (Z.ltb_spec delta 0); [lia |].
        destruct (Z.eqb_spec delta 0); [lia |].
        destruct (Z.eqb_spec delta 1); [lia |].
        by destruct (Z.leb_spec delta 3); [lia |].
Qed.

End Categorisation.

Lemma today_2024_03_10 :
  start_of_day (H := host_minus5)
    (eval (startOfToday (H := host_minus5)) (clock_at afternoon_2024_03_10)).
Proof. split; [eexists |]; vm_compute; reflexivity. Qed.

Lemma getCategory_buckets_witness :
  let c := clock_at afternoon_2024_03_10 in
  eval (getCategory (H := host_minus5) task_t2) c = "completed"
  /\ eval (getCategory (H := host_minus5) (task_due "soonish" "high" 1)) c = "upcoming"
  /\ eval (getCategory (H := host_minus5) (task_due "2024-03-09" "high" 1)) c = "overdue"
  /\ eval (getCategory (H := host_minus5) (task_due "2024-03-10" "high" 1)) c = "today"
  /\ eval (getCategory (H := host_minus5) (task_due "2024-03-17" "high" 1)) c = "soon"
  /\ eval (getCategory (H := host_minus5) (task_due "2024-03-18" "high" 1)) c = "upcoming".
Proof.
  intros c.
  pose proof (fun task => getCategory_buckets (H := host_minus5)
                            (HL := fixed_offset_laws _) task c) as G.
  split_and!.
  - apply (proj1 (G task_t2)). reflexivity.
  - apply (proj2 (G (task_due "soonish" "high" 1)) eq_refl). reflexivity.
  - eapply (proj2 (G (task_due "2024-03-09" "high" 1)) eq_refl);
      [vm_compute; reflexivity | apply today_2024_03_10 | vm_compute; reflexivity].
  - eapply (proj2 (G (task_due "2024-03-10" "high" 1)) eq_refl);
      [vm_compute; reflexivity | apply today_2024_03_10 | vm_compute; reflexivity].
  - eapply (proj2 (G (task_due "2024-03-17" "high" 1)) eq_refl);
      [vm_compute; reflexivity | apply today_2024_03_10 | vm_compute; split; discriminate].
  - eapply (proj2 (G (task_due "2024-03-18" "high" 1)) eq_refl);
      [vm_compute; reflexivity | apply today_2024_03_10 | vm_compute; discriminate].
Defined.

Lemma getDeadlineInfo_descriptor_witness :
  let c := clock_at afternoon_2024_03_10 in
  eval (getDeadlineInfo (H := host_minus5) task_t2) c = mkInfo "Completed" "done"
  /\ eval (getDeadlineInfo (H := host_minus5) (task_due "2024-02-30" "low" 1)) c
     = mkInfo "Due date invalid" "safe"
  /\ eval (getDeadlineInfo (H := host_minus5) (task_due "2024-03-09" "low" 1)) c
     = mkInfo "Overdue by 1 day" "overdue"
  /\ eval (getDeadlineInfo (H := host_minus5) (task_due "2024-02-29" "low" 1)) c
     = mkInfo "Overdue by 10 days" "overdue"
  /\ eval (getDeadlineInfo (H := host_minus5) (task_due "2024-03-10" "low" 1)) c
     = mkInfo "Due today" "warning"
  /\ eval (getDeadlineInfo (H := host_minus5) (task_due "2024-03-11" "low" 1)) c
     = mkInfo "Due tomorrow" "warning"
  /\ eval (getDeadlineInfo (H := host_minus5) (task_due "2024-03-13" "low" 1)) c
     = mkInfo "Due in 3 days" "warning"
  /\ eval (getDeadlineInfo (H := host_minus5) (task_due "2024-03-14" "low" 1)) c
     = mkInfo "Due in 4 days" "safe".
Proof.
  intros c.
  pose proof (fun task => getDeadlineInfo_descriptor (H := host_minus5)
                            (HL := fixed_offset_laws _) task c) as G.
  split_and!.
  - apply (proj1 (G task_t2)). reflexivity.
  - apply (proj2 (G (task_due "2024-02-30" "low" 1)) eq_refl). reflexivity.
  - edestruct (proj2 (proj2 (G (task_due "2024-03-09" "low" 1)) eq_refl))
      as (Hk & _); [vm_compute; reflexivity | apply today_2024_03_10 |].
    apply Hk. vm_compute. reflexivity.
  - edestruct (proj2 (proj2 (G (task_due "2024-02-29" "low" 1)) eq_refl))
      as (_ & Hk & _); [vm_compute; reflexivity | apply today_2024_03_10 |].
    etransitivity; [apply Hk; vm_compute; reflexivity | vm_compute; reflexivity].
  - edestruct (proj2 (proj2 (G (task_due "2024-03-10" "low" 1)) eq_refl))
      as (_ & _ & Hk & _); [vm_compute; reflexivity | apply today_2024_03_10 |].
    apply Hk. vm_compute. reflexivity.
  - edestruct (proj2 (proj2 (G (task_due "2024-03-11" "low" 1)) eq_refl))
      as (_ & _ & _ & Hk & _); [vm_compute; reflexivity | apply today_2024_03_10 |].
    apply Hk. vm_compute. reflexivity.
  - edestruct (proj2 (proj2 (G (task_due "2024-03-13" "low" 1)) eq_refl))
      as (_ & _ & _ & _ & Hk & _); [vm_compute; reflexivity | apply today_2024_03_10 |].
    etransitivity; [apply Hk; vm_compute; split; discriminate | vm_compute; reflexivity].
  - edestruct (proj2 (proj2 (G (task_due "2024-03-14" "low" 1)) eq_refl))
      as (_ & _ & _ & _ & _ & Hk); [vm_compute; reflexivity | apply today_2024_03_10 |].
    etransitivity; [apply Hk; vm_compute; discriminate | vm_compute; reflexivity].
Defined.

(** ** Ordering *)

Lemma nlt_nsub_zero (a b : number) :
  a <> NaN -> b <> NaN -> nlt (nsub a b) (Fin 0) = nlt a b.
Proof.
  destruct a as [x| | |], b as [y| | |]; simpl; try done. intros _ _.
  destruct (Z.ltb_spec x y); [apply Z.ltb_lt | apply Z.ltb_ge]; lia.
Qed.

Lemma nlt_rank (a b : number) :
  a <> NaN -> b <> NaN ->
  (nlt a b = true <->
   (rank a).1 < (rank b).1 \/ ((rank a).1 = (rank b).1 /\ (rank a).2 < (rank b).2)).
Proof.
  destruct a as [x| | |], b as [y| | |]; simpl; try done; intros _ _;
    rewrite ?Z.ltb_lt; split; try lia; try done.
Qed.

Lemma createdAt_typed_created `{H : Host} (t : object) :
  createdAt_typed t -> created t <> NaN.
Proof.
  unfold createdAt_typed, created, or_else, get.
  intros [Hty | ->]; [| done].
  destruct (t !! "createdAt") as [[| | |[x| | |]|]|]; simpl in *; try done.
  by destruct (x =? 0).
Qed.

Section Ordering.

Context {H : Host} {HL : HostLaws H}.

Lemma pScore_score (t : object) : pScore (get t "priority") = Fin (score t).
Proof.
  unfold pScore, score.
  destruct (strict_eq _ (VStr "high")); [done |].
  by destruct (strict_eq _ (VStr "medium")).
Qed.

Lemma score_range (t : object) : 1 <= score t <= 3.
Proof.
  unfold score.
  destruct (strict_eq _ (VStr "high")); [lia |].
  destruct (strict_eq _ (VStr "medium")); lia.
Qed.

(** The comparator in terms of scores, due days and creation instants. *)
Lemma compareTasks_unfold (a b : object) :
  compareTasks a b =
  if score b - score a =? 0 then
    match parseYmd (get a "dueDate"), parseYmd (get b "dueDate") with
    | Some da, Some db =>
        if day_of da =? day_of db then nsub (created a) (created b)
        else Fin (local_midnight (day_of da) - local_midnight (day_of db))
    | Some _, None => Fin (-1)
    | None, Some _ => Fin 1
    | None, None => nsub (created a) (created b)
    end
  else Fin (score b - score a).
Proof.
  unfold compareTasks. rewrite !pScore_score. fold (created a) (created b).
  unfold nsub at 1 2. cbn [nneg nadd num_eq].
  replace (score b + - score a) with (score b - score a) by lia.
  destruct (score b - score a =? 0); [| reflexivity]. cbn [negb].
  destruct (parseYmd (get a "dueDate")) as [da |] eqn:Ha,
           (parseYmd (get b "dueDate")) as [db |] eqn:Hb; try reflexivity.
  apply parseYmd_start_of_day in Ha, Hb.
  rewrite (start_of_day_idem da Ha), (start_of_day_idem db Hb),
    (start_of_day_time da Ha), (start_of_day_time db Hb).
  unfold nsub at 1 2. cbn [nneg nadd num_eq].
  destruct (Z.eqb_spec (day_of da) (day_of db)) as [-> | Hne].
  - by replace (_ + - _ =? 0) with true by lia.
  - pose proof (local_midnight_inj (day_of da) (day_of db)).
    replace (_ + - _ =? 0) with false by lia.
    cbn [negb]. f_equal; lia.
Qed.

(** [a] sorts before [b] exactly when its key is the smaller one; and
    exactly when the comparator, asked the other way round, is positive. *)
Lemma sorts_before_key (a b : object) :
  createdAt_typed a -> createdAt_typed b ->
  (sorts_before a b <-> key_lt (sort_key a) (sort_key b))
  /\ (ngt (compareTasks b a) (Fin 0) = true <-> key_lt (sort_key a) (sort_key b)).
Proof.
  intros Ha Hb. apply createdAt_typed_created in Ha, Hb.
  pose proof (nlt_rank (created a) (created b) Ha Hb) as Hr.
  pose proof (nlt_nsub_zero (created a) (created b) Ha Hb) as Hab.
  assert (Hba : ngt (nsub (created b) (created a)) (Fin 0) = nlt (created a) (created b)).
  { unfold ngt. destruct (created a) as [x| | |], (created b) as [y| | |]; simpl; try done.
    destruct (Z.ltb_spec x y); [apply Z.ltb_lt | apply Z.ltb_ge]; lia. }
  unfold sorts_before. rewrite !compareTasks_unfold.
  unfold sort_key, key_lt.
  pose proof (score_range a). pose proof (score_range b).
  destruct (rank (created a)) as [ra1 ra2], (rank (created b)) as [rb1 rb2].
  cbn [fst snd] in *.
  destruct (Z.eqb_spec (score b - score a) 0) as [Hs | Hs],
           (Z.eqb_spec (score a - score b) 0) as [Hs' | Hs']; try lia.
  - destruct (parseYmd (get a "dueDate")) as [da |], (parseYmd (get b "dueDate")) as [db |];
      cbn [fst snd].
    + rewrite (Z.eqb_sym (day_of db)).
      destruct (Z.eqb_spec (day_of da) (day_of db)) as [Hd | Hd].
      * rewrite Hab, Hba, Hr. split; lia.
      * pose proof (local_midnight_lt (day_of da) (day_of db)).
        pose proof (local_midnight_lt (day_of db) (day_of da)).
        unfold ngt. cbn [nlt]. rewrite !Z.ltb_lt. split; lia.
    + unfold ngt. cbn [nlt]. rewrite !Z.ltb_lt. split; lia.
    + unfold ngt. cbn [nlt]. rewrite !Z.ltb_lt. split; lia.
    + rewrite Hab, Hba, Hr. split; lia.
  - unfold ngt. cbn [nlt]. rewrite !Z.ltb_lt. split; lia.
Qed.

End Ordering.

Lemma key_lt_irrefl x : ~ key_lt x x.
Proof. destruct x as [[[[x1 x2] x3] x4] x5]. unfold key_lt. lia. Qed.

Lemma key_lt_trans x y z : key_lt x y -> key_lt y z -> key_lt x z.
Proof.
  destruct x as [[[[x1 x2] x3] x4] x5], y as [[[[y1 y2] y3] y4] y5],
    z as [[[[z1 z2] z3] z4] z5].
  unfold key_lt. lia.
Qed.

Lemma key_tied_eq x y : ~ key_lt x y -> ~ key_lt y x -> x = y.
Proof.
  destruct x as [[[[x1 x2] x3] x4] x5], y as [[[[y1 y2] y3] y4] y5].
  unfold key_lt. intros Hxy Hyx.
  assert (x1 = y1 /\ x2 = y2 /\ x3 = y3 /\ x4 = y4 /\ x5 = y5) as (-> & -> & -> & -> & ->)
    by lia.
  reflexivity.
Qed.

Section OrderingLaws.

Context {H : Host} {HL : HostLaws H}.

Lemma created_of_instant (t : object) (x : Z) :
  get t "createdAt" = VNum (Fin x) -> created t = Fin x.
Proof.
  unfold created, or_else. intros ->. simpl.
  destruct (Z.eqb_spec x 0) as [-> | _]; reflexivity.
Qed.

(** C5: on tasks whose [createdAt] is an instant, [compareTasks] is a
    strict weak ordering: "sorts before" is irreflexive and transitive,
    being tied is transitive, and the comparator is consistent (negative
    one way round exactly when positive the other way).  It orders by
    priority first (high, then medium, then low); at equal priority the
    earlier due day comes first and a task with a valid due date comes
    before one without; when the due days are equal or both missing the
    result is the difference of the creation instants, earlier first. *)
Theorem compareTasks_strict_weak_order :
  (forall a, createdAt_typed a -> ~ sorts_before a a)
  /\ (forall a b c, createdAt_typed a -> createdAt_typed b -> createdAt_typed c ->
        sorts_before a b -> sorts_before b c -> sorts_before a c)
  /\ (forall a b c, createdAt_typed a -> createdAt_typed b -> createdAt_typed c ->
        tied a b -> tied b c -> tied a c)
  /\ (forall a b, createdAt_typed a -> createdAt_typed b ->
        (sorts_before a b <-> ngt (compareTasks b a) (Fin 0) = true))
  /\ (forall t,
        (get t "priority" = VStr "high" -> score t = 3)
        /\ (get t "priority" = VStr "medium" -> score t = 2)
        /\ (get t "priority" = VStr "low" -> score t = 1))
  /\ (forall a b, score b < score a -> sorts_before a b)
  /\ (forall a b da db,
        score a = score b ->
        parseYmd (get a "dueDate") = Some da ->
        parseYmd (get b "dueDate") = Some db ->
        (day_of da < day_of db -> sorts_before a b)
        /\ (day_of da = day_of db ->
            compareTasks a b = nsub (created a) (created b)))
  /\ (forall a b da,
        score a = score b ->
        parseYmd (get a "dueDate") = Some da ->
        parseYmd (get b "dueDate") = None ->
        sorts_before a b /\ ~ sorts_before b a)
  /\ (forall a b,
        score a = score b ->
        parseYmd (get a "dueDate") = None ->
        parseYmd (get b "dueDate") = None ->
        compareTasks a b = nsub (created a) (created b))
  /\ (forall a b x y,
        get a "createdAt" = VNum (Fin x) ->
        get b "createdAt" = VNum (Fin y) ->
        nsub (created a) (created b) = Fin (x - y)).
Proof.
  split_and!.
  - intros a Ha Hlt. apply (sorts_before_key a a Ha Ha) in Hlt.
    by apply key_lt_irrefl in Hlt.
  - intros a b c Ha Hb Hc Hab Hbc.
    apply (sorts_before_key a b Ha Hb) in Hab. apply (sorts_before_key b c Hb Hc) in Hbc.
    apply (sorts_before_key a c Ha Hc). by eapply key_lt_trans.
  - intros a b c Ha Hb Hc [Hab Hba] [Hbc Hcb].
    rewrite (proj1 (sorts_before_key a b Ha Hb)) in Hab.
    rewrite (proj1 (sorts_before_key b a Hb Ha)) in Hba.
    rewrite (proj1 (sorts_before_key b c Hb Hc)) in Hbc.
    rewrite (proj1 (sorts_before_key c b Hc Hb)) in Hcb.
    pose proof (key_tied_eq _ _ Hab Hba) as Eab.
    pose proof (key_tied_eq _ _ Hbc Hcb) as Ebc.
    unfold tied.
    rewrite (proj1 (sorts_before_key a c Ha Hc)), (proj1 (sorts_before_key c a Hc Ha)).
    rewrite Eab, Ebc. split; apply key_lt_irrefl.
  - intros a b Ha Hb. destruct (sorts_before_key a b Ha Hb) as [H1 H2].
    rewrite H1, H2. done.
  - intros t. unfold score. split_and!; by intros ->.
  - intros a b Hs. unfold sorts_before. rewrite compareTasks_unfold.
    destruct (Z.eqb_spec (score b - score a) 0); [lia |].
    cbn [nlt]. apply Z.ltb_lt. lia.
  - intros a b da db Hs Ha Hb. split.
    + intros Hd. unfold sorts_before. rewrite compareTasks_unfold, Ha, Hb, Hs, Z.sub_diag.
      cbn [Z.eqb]. destruct (Z.eqb_spec (day_of da) (day_of db)); [lia |].
      cbn [nlt]. apply Z.ltb_lt.
      pose proof (local_midnight_lt (day_of da) (day_of db)). lia.
    + intros Hd. rewrite compareTasks_unfold, Ha, Hb, Hs, Z.sub_diag, Hd, !Z.eqb_refl.
      reflexivity.
  - intros a b da Hs Ha Hb. unfold sorts_before.
    rewrite !compareTasks_unfold, Ha, Hb, Hs, Z.sub_diag. by cbn.
  - intros a b Hs Ha Hb. by rewrite compareTasks_unfold, Ha, Hb, Hs, Z.sub_diag.
  - intros a b x y Ha Hb. rewrite (created_of_instant a x Ha), (created_of_instant b y Hb).
    reflexivity.
Qed.

End OrderingLaws.

Lemma task_due_typed due priority createdAt :
  createdAt_typed (task_due due priority createdAt).
Proof. left. reflexivity. Qed.

Lemma compareTasks_strict_weak_order_witness :
  sorts_before (H := host_minus5) task_high_2 task_high_5
  /\ sorts_before (H := host_minus5) task_high_5 task_medium_1
  /\ sorts_before (H := host_minus5) task_high_2 task_medium_1
  /\ ~ sorts_before (H := host_minus5) task_medium_1 task_medium_1.
Proof.
  destruct (compareTasks_strict_weak_order (H := host_minus5) (HL := fixed_offset_laws _))
    as (Hirr & Htrans & _ & _ & _ & Hprio & Hdate & _).
  assert (H25 : sorts_before (H := host_minus5) task_high_2 task_high_5).
  { eapply (Hdate task_high_2 task_high_5);
      [reflexivity | vm_compute; reflexivity | vm_compute; reflexivity
      | vm_compute; reflexivity]. }
  assert (H5m : sorts_before (H := host_minus5) task_high_5 task_medium_1).
  { apply Hprio. vm_compute. reflexivity. }
  split_and!.
  - exact H25.
  - exact H5m.
  - apply (Htrans task_high_2 task_high_5 task_medium_1);
      try apply task_due_typed; assumption.
  - apply Hirr, task_due_typed.
Defined.

(** * Further properties of the lifecycle engine *)

Lemma lookup_of_get (o : object) k v :
  o !! k = Some v -> get o k = v.
Proof. unfold get. by intros ->. Qed.

(** Normalisation yields a task in normal form. *)
Lemma normalize_normalised (task : object) (c : clock) :
  normalised (normalizeTaskMetrics task c).1.
Proof.
  destruct (normalize_spec task c) as (Hts & Hc & _ & Hact).
  unfold normalised. rewrite normalize_keeps_completed. split_and!.
  - eexists. by apply (get_defined _ _ _ Hts).
  - rewrite Hc. eauto.
  - destruct (truthy (get task "completed")).
    + destruct Hact as [Ha _]. by apply (get_defined _ _ _ Ha).
    + destruct (Number_isFinite (get task "activatedAt")) eqn:Hfin.
      * destruct Hact as [Ha _]. rewrite Ha. unfold get in Hfin.
        destruct (task !! "activatedAt") as [[| | |[A| | |]|]|]; try discriminate. eauto.
      * destruct Hact as [Ha _]. eexists. by apply (get_defined _ _ _ Ha).
Qed.

(** On a task in normal form normalisation changes nothing and does not
    read the clock. *)
Lemma normalize_fixpoint (t : object) (c : clock) :
  normalised t -> normalizeTaskMetrics t c = (t, c).
Proof.
  intros ([T HT] & [v Hv] & Hact).
  destruct (normalize_spec t c) as (Hts & Hc & Hother & Ha).
  assert (Hfield : forall k, (normalizeTaskMetrics t c).1 !! k = t !! k
                   /\ (normalizeTaskMetrics t c).2 = c).
  { intros k.
    destruct (truthy (get t "completed")) eqn:Hd.
    - destruct Ha as [Ha Hck]. split; [| done].
      destruct (decide (k = "timeSpentMs")) as [-> |];
        [| destruct (decide (k = "activatedAt")) as [-> |];
           [| destruct (decide (k = "completedAt")) as [-> |]]].
      + rewrite (get_defined _ _ _ Hts); [| done].
        by rewrite (timeSpent_of_get _ _ (lookup_of_get _ _ _ HT)).
      + by rewrite (get_defined _ _ _ Ha).
      + by rewrite Hc, Hv.
      + by apply Hother.
    - destruct Hact as [A HA]. rewrite (lookup_of_get _ _ _ HA) in Ha.
      cbn [Number_isFinite] in Ha. destruct Ha as [Ha Hck]. split; [| done].
      destruct (decide (k = "timeSpentMs")) as [-> |];
        [| destruct (decide (k = "activatedAt")) as [-> |];
           [| destruct (decide (k = "completedAt")) as [-> |]]].
      + rewrite (get_defined _ _ _ Hts); [| done].
        by rewrite (timeSpent_of_get _ _ (lookup_of_get _ _ _ HT)).
      + done.
      + by rewrite Hc, Hv.
      + by apply Hother. }
  destruct (normalizeTaskMetrics t c) as [t' c'] eqn:E. cbn [fst snd] in Hfield.
  f_equal.
  - apply map_eq. intros k. apply Hfield.
  - apply (Hfield "").
Qed.

(** X1: normalising twice is normalising once: the second run returns the
    task of the first unchanged and reads no clock. *)
Theorem normalizeTaskMetrics_idempotent (task : object) (c c' : clock) :
  let once := (normalizeTaskMetrics task c).1 in
  normalizeTaskMetrics once c' = (once, c').
Proof. intros once. apply normalize_fixpoint, normalize_normalised. Qed.

Lemma normalised_of_fields (t : object) (T A : Z) (b : bool) (v : value) :
  get t "timeSpentMs" = VNum (Fin T) ->
  get t "completedAt" = v -> v <> VUndefined ->
  get t "completed" = VBool b ->
  get t "activatedAt" = (if b then VNull else VNum (Fin A)) ->
  normalised t.
Proof.
  intros Hts Hc Hv Hd Ha. unfold normalised. rewrite Hd. split_and!.
  - eexists. by apply (get_defined _ _ _ Hts).
  - rewrite (get_defined _ _ _ Hc Hv). eauto.
  - destruct b; cbn [truthy].
    + by apply (get_defined _ _ _ Ha).
    + eexists. by apply (get_defined _ _ _ Ha).
Qed.

(** Completing an active task, whatever its fields hold: the accumulated
    time becomes a finite number not below what the task carried. *)
Lemma handleStatusChange_complete_time (task : object) (c : clock) :
  getTaskStatus task = STATUS_ACTIVE ->
  let after := (handleStatusChange task (VStr STATUS_COMPLETED) c).1.2 in
  (exists T, get after "timeSpentMs" = VNum (Fin T) /\ timeSpent_of task <= T)
  /\ (forall k, k <> "completed" -> k <> "completedAt" -> k <> "activatedAt" ->
        k <> "timeSpentMs" -> after !! k = task !! k).
Proof.
  intros Hst after. subst after.
  rewrite handleStatusChange_unfold. cbv zeta. rewrite Hst. status_tests.
  destruct (normalize_spec task (fun n => c (S n))) as (Hts & _ & Hother & _).
  set (n := normalizeTaskMetrics task _) in *.
  cbn [fst snd]. fields.
  assert (Hkeep :
    (exists T, get (assign "completed" (VBool true) n.1) "timeSpentMs" = VNum (Fin T)
               /\ timeSpent_of task <= T)
    /\ (forall k, k <> "completed" -> k <> "completedAt" -> k <> "activatedAt" ->
          k <> "timeSpentMs" ->
          assign "activatedAt" VNull
            (assign "completedAt" (VNum (Fin (c O))) (assign "completed" (VBool true) n.1))
          !! k = task !! k)).
  { split.
    - exists (timeSpent_of task). fields. split; [exact Hts | lia].
    - intros k ? ? ? ?. unfold assign. rewrite !lookup_insert_ne by done.
      by apply Hother. }
  destruct (_ && _) eqn:Hguard; [| exact Hkeep].
  destruct (ngt _ _) eqn:Hpos; [| exact Hkeep].
  apply andb_prop in Hguard as [_ Hfin].
  destruct (get n.1 "activatedAt") as [| | |[A| | |]|]; try discriminate.
  cbn [num_of nsub nneg nadd ngt nlt] in *. apply Z.ltb_lt in Hpos.
  split.
  - unfold add_timeSpent. fields. rewrite Hts. cbn [num_of nadd].
    eexists. split; [reflexivity | lia].
  - intros k ? ? ? ?. unfold add_timeSpent, assign.
    rewrite !lookup_insert_ne by done. by apply Hother.
Qed.

(** The possible shapes of a call, by target and current status. *)
Lemma handleStatusChange_cases (task : object) (s : value) (c : clock) :
  (handleStatusChange task s c).1.2 = task
  \/ (s = VStr STATUS_ACTIVE /\ getTaskStatus task = STATUS_COMPLETED)
  \/ (s = VStr STATUS_COMPLETED /\ getTaskStatus task = STATUS_ACTIVE).
Proof.
  destruct (decide (s = VStr STATUS_ACTIVE)) as [-> | Ha];
    [| destruct (decide (s = VStr STATUS_COMPLETED)) as [-> | Hc]].
  - destruct (getTaskStatus_cases task) as [[_ Hst] | [_ Hst]]; [auto |].
    left. pose proof (handleStatusChange_same_status task _ c Hst) as Hr.
    unfold eval in Hr. by rewrite Hr.
  - destruct (getTaskStatus_cases task) as [[_ Hst] | [_ Hst]]; [| auto].
    left. pose proof (handleStatusChange_same_status task _ c Hst) as Hr.
    unfold eval in Hr. by rewrite Hr.
  - left. destruct (handleStatusChange_invalid_target_gen task s c Ha Hc) as [Hr _].
    unfold eval in Hr. by rewrite Hr.
Qed.

(** X2: whatever the target and whatever the fields of the task hold (the
    clock readings, and the stored time and session start where they are
    finite, being safe integers), a call of [handleStatusChange] never
    lowers the accumulated time and writes to no field other than
    [completed], [completedAt], [activatedAt] and [timeSpentMs]. *)
Theorem handleStatusChange_time_monotone (task : object) (s : value) (c : clock) :
  safe_clock c -> safe_metrics task ->
  let after := (eval (handleStatusChange task s) c).2 in
  timeSpent_of task <= timeSpent_of after
  /\ (forall k, k <> "completed" -> k <> "completedAt" -> k <> "activatedAt" ->
        k <> "timeSpentMs" -> after !! k = task !! k).
Proof.
  intros _ _ after. subst after. unfold eval.
  destruct (handleStatusChange_cases task s c) as [-> | [[-> Hst] | [-> Hst]]].
  - split; [lia | done].
  - destruct (handleStatusChange_reopen task c Hst) as (_ & _ & _ & _ & _ & Hts & _ & Hother).
    rewrite (timeSpent_of_get _ _ Hts). split; [lia | exact Hother].
  - destruct (handleStatusChange_complete_time task c Hst) as ([T [HT Hle]] & Hother).
    rewrite (timeSpent_of_get _ _ HT). split; [lia | exact Hother].
Qed.

Lemma createTask_normalised `{H : Host} (data : object) (tasks : list object) (c : clock) :
  exists t, (createTask data tasks c).1.2 = tasks ++ [t] /\ normalised t.
Proof.
  unfold createTask. rewrite !bind_run. unfold mret, M_ret. cbn [fst snd].
  eexists. split; [reflexivity |].
  set (id := (makeId c).1). set (now := Date_now _).
  unfold to_bool.
  destruct (truthy (get data "completed")) eqn:Hd.
  - apply (normalised_of_fields _ 0 0 true (VNum (Fin now.1)));
      unfold get, assign; by simplify_map_eq.
  - apply (normalised_of_fields _ 0 now.1 false VNull);
      unfold get, assign; by simplify_map_eq.
Qed.

Lemma handleStatusChange_normalised (task : object) (s : value) (c : clock) :
  normalised task -> normalised (handleStatusChange task s c).1.2.
Proof.
  intros Hn.
  destruct (handleStatusChange_cases task s c) as [-> | [[-> Hst] | [-> Hst]]]; [done | |].
  - destruct (handleStatusChange_reopen task c Hst) as (_ & _ & Hc & Hd & Ha & Hts & _).
    by apply (normalised_of_fields _ (timeSpent_of task) (c O) false VNull).
  - destruct (handleStatusChange_completed_fields task c Hst) as (Hc & Hd & Ha).
    destruct (handleStatusChange_complete_time task c Hst) as ([T [HT _]] & _).
    by apply (normalised_of_fields _ T 0 true (VNum (Fin (c O)))).
Qed.

Lemma updateFound_normalised (data t : object) (c : clock) :
  normalised (updateFound data t c).1.
Proof.
  rewrite updateFound_unfold. cbv zeta.
  pose proof (normalize_normalised (overwrite data t) c) as Hn.
  set (n := normalizeTaskMetrics _ c) in *.
  destruct (negb _).
  - cbn [fst]. by apply handleStatusChange_normalised.
  - destruct (String.eqb_spec (getTaskStatus (overwrite data t)) STATUS_ACTIVE) as [Hact | Hact];
      [| exact Hn].
    destruct (_ || _); [| exact Hn]. cbn [andb fst].
    destruct Hn as ([T HT] & [v Hv] & _).
    assert (Hopen : truthy (get n.1 "completed") = false).
    { unfold n. rewrite normalize_keeps_completed. by apply active_not_completed. }
    unfold normalised. fields. rewrite Hopen. unfold assign.
    rewrite !lookup_insert_ne by done. rewrite lookup_insert_eq. eauto.
Qed.

Lemma updateTask_found_normalised (data : object) (tasks : list object) (c : clock) i t :
  list_find (fun x => strict_eq (get x "id") (get data "id") = true) tasks = Some (i, t) ->
  exists t', (updateTask data tasks c).1 !! i = Some t' /\ normalised t'.
Proof.
  intros Hfind. unfold updateTask. rewrite Hfind, bind_run. unfold mret, M_ret. cbn [fst].
  apply list_find_Some in Hfind as (Hi & _ & _).
  eexists. split; [| apply (updateFound_normalised data t c)].
  apply list_lookup_insert_eq. by eapply lookup_lt_Some.
Qed.

(** X3: tasks made by [createTask] and tasks edited by [updateTask] are in
    normal form, [handleStatusChange] keeps a task in normal form (the
    clock readings, the stored time and the session start being safe
    integers, so that the sum it stores is finite), and on a task in
    normal form [normalizeTaskMetrics] changes nothing and reads no
    clock. *)
Theorem normal_form_kept `{H : Host} :
  (forall data tasks c,
     exists t, (eval (createTask data tasks) c).2 = tasks ++ [t] /\ normalised t)
  /\ (forall data tasks c i t,
        list_find (fun x => strict_eq (get x "id") (get data "id") = true) tasks
        = Some (i, t) ->
        exists t', eval (updateTask data tasks) c !! i = Some t' /\ normalised t')
  /\ (forall task s c,
        normalised task -> safe_clock c -> safe_metrics task ->
        normalised (eval (handleStatusChange task s) c).2)
  /\ (forall t c, normalised t -> normalizeTaskMetrics t c = (t, c)).
Proof.
  split_and!.
  - apply createTask_normalised.
  - intros data tasks c i t Hfind.
    by apply (updateTask_found_normalised data tasks c i t).
  - intros. by apply handleStatusChange_normalised.
  - intros. by apply normalize_fixpoint.
Qed.

Lemma task_t1_normalised : normalised task_t1.
Proof. by apply (normalised_of_fields _ 0 1000 false VNull). Qed.

Lemma normal_form_kept_witness :
  (exists t', eval (updateTask form_done_t1 [task_t1]) (clock_at 4000) !! 0%nat = Some t'
              /\ normalised t')
  /\ normalised (eval (handleStatusChange task_t1 (VStr STATUS_COMPLETED)) (clock_at 4000)).2
  /\ normalizeTaskMetrics task_t1 (clock_at 4000) = (task_t1, clock_at 4000).
Proof.
  destruct (normal_form_kept (H := fixed_offset_host 0)) as (_ & Hupd & Hhsc & Hfix).
  split_and!.
  - apply (Hupd form_done_t1 [task_t1] (clock_at 4000) 0%nat task_t1). reflexivity.
  - apply Hhsc; [apply task_t1_normalised | by vm_compute | by vm_compute].
  - apply Hfix, task_t1_normalised.
Defined.

(** ** Elapsed time, continued *)

Lemma calcTimeSpentMs_run (task : object) (t : number) (c : clock) :
  calcTimeSpentMs task (Some t) c =
  (nadd (if String.eqb (typeof (get task "timeSpentMs")) "number"
         then num_of (get task "timeSpentMs") else Fin 0)
        (if String.eqb (getTaskStatus task) STATUS_ACTIVE
            && String.eqb (typeof (get task "activatedAt")) "number"
         then Math_max (Fin 0) (nsub t (num_of (get task "activatedAt")))
         else Fin 0), c).
Proof. unfold calcTimeSpentMs. by rewrite bind_run. Qed.

(** X4: what the elapsed-time query shows for an active task at the
    instant [B] is exactly what completing the task at [B] stores in
    [timeSpentMs], and once completed the query returns that stored value
    at every later query instant.  The difference and the sum that both
    compute are on safe integers. *)
Theorem elapsed_matches_completion (task : object) (A T B : Z) (c c' : clock) :
  getTaskStatus task = STATUS_ACTIVE ->
  get task "activatedAt" = VNum (Fin A) ->
  get task "timeSpentMs" = VNum (Fin T) ->
  exact_difference B A ->
  exact_sum T (Z.max 0 (B - A)) ->
  let shown := eval (calcTimeSpentMs task (Some (Fin B))) c' in
  let after := (eval (handleStatusChange task (VStr STATUS_COMPLETED)) (tick B c)).2 in
  get after "timeSpentMs" = VNum shown
  /\ forall later, eval (calcTimeSpentMs after (Some (Fin later))) c' = shown.
Proof.
  intros Hst HA HT _ _ shown after.
  destruct (handleStatusChange_complete task A (tick B c) Hst HA)
    as (_ & _ & Hc & _ & _ & Hts & _).
  change (tick B c O) with B in *.
  assert (Hshown : shown = Fin (T + Z.max 0 (B - A))).
  { subst shown. unfold eval. rewrite calcTimeSpentMs_run. cbn [fst].
    rewrite HT, HA, Hst. cbn [typeof num_of].
    change (String.eqb "number" "number") with true.
    change (String.eqb STATUS_ACTIVE STATUS_ACTIVE) with true. cbn [andb].
    unfold nsub. cbn [nneg nadd Math_max nlt].
    destruct (Z.ltb_spec 0 (B + - A)); cbn [nadd]; f_equal; lia. }
  rewrite (timeSpent_of_get _ _ HT) in Hts.
  subst after. unfold eval. split.
  - by rewrite Hts, Hshown.
  - intros later. rewrite calcTimeSpentMs_run. cbn [fst]. rewrite Hts.
    rewrite (getTaskStatus_of_flag _ true Hc). cbn [typeof num_of].
    change (String.eqb "number" "number") with true.
    change (String.eqb STATUS_COMPLETED STATUS_ACTIVE) with false. cbn [andb].
    rewrite Hshown. cbn [nadd]. f_equal. lia.
Qed.

Lemma elapsed_matches_completion_witness :
  let shown := eval (calcTimeSpentMs task_t1 (Some (Fin 4000))) (clock_at 0) in
  let after :=
    (eval (handleStatusChange task_t1 (VStr STATUS_COMPLETED)) (tick 4000 (clock_at 0))).2 in
  get after "timeSpentMs" = VNum shown
  /\ forall later, eval (calcTimeSpentMs after (Some (Fin later))) (clock_at 0) = shown.
Proof.
  apply (elapsed_matches_completion task_t1 1000 0 4000 (clock_at 0) (clock_at 0));
    [reflexivity | reflexivity | reflexivity | by vm_compute | by vm_compute].
Defined.

Lemma nadd_monotone (b x y : number) :
  nlt y x = false -> nlt (nadd b y) (nadd b x) = false.
Proof.
  destruct b as [b| | |], x as [x| | |], y as [y| | |]; simpl; try done.
  intros Hxy. apply Z.ltb_ge in Hxy. apply Z.ltb_ge. lia.
Qed.

Lemma session_monotone (t1 t2 : Z) (a : number) :
  t1 <= t2 ->
  nlt (Math_max (Fin 0) (nsub (Fin t2) a)) (Math_max (Fin 0) (nsub (Fin t1) a)) = false.
Proof.
  intros Ht. destruct a as [a| | |]; simpl; try done.
  destruct (Z.ltb_spec 0 (t1 + - a)), (Z.ltb_spec 0 (t2 + - a)); simpl;
    apply Z.ltb_ge; lia.
Qed.

(** X5: the elapsed-time query never goes backwards as the query instant
    advances: for every task, whatever its fields hold (the instants, and
    the stored time and session start where they are finite, being safe
    integers), the result at a later instant is not below the result at an
    earlier one. *)
Theorem calcTimeSpentMs_monotone (task : object) (t1 t2 : Z) (c : clock) :
  safe_integer t1 -> safe_integer t2 -> safe_metrics task ->
  t1 <= t2 ->
  nlt (eval (calcTimeSpentMs task (Some (Fin t2))) c)
      (eval (calcTimeSpentMs task (Some (Fin t1))) c) = false.
Proof.
  intros _ _ _ Ht. unfold eval. rewrite !calcTimeSpentMs_run. cbn [fst].
  apply nadd_monotone.
  destruct (_ && _); [by apply session_monotone | done].
Qed.

Lemma calcTimeSpentMs_monotone_witness :
  nlt (eval (calcTimeSpentMs task_t1 (Some (Fin 9000))) (clock_at 0))
      (eval (calcTimeSpentMs task_t1 (Some (Fin 2500))) (clock_at 0)) = false.
Proof.
  apply (calcTimeSpentMs_monotone task_t1 2500 9000 (clock_at 0));
    [by vm_compute | by vm_compute | by vm_compute | lia].
Defined.

(** ** Edits *)

Lemma overwrite_lookup (data t : object) k :
  k <> "title" -> k <> "dueDate" -> k <> "priority" -> k <> "completed" ->
  overwrite data t !! k = t !! k.
Proof. intros. unfold overwrite, assign. by rewrite !lookup_insert_ne. Qed.

Lemma overwrite_flag (data t : object) :
  get (overwrite data t) "completed" = VBool (truthy (get data "completed")).
Proof. unfold overwrite. by fields. Qed.

(** The edited task is the normalised overwrite, with [activatedAt]
    possibly set once more. *)
Lemma updateFound_shape (data t : object) (c : clock) :
  let n := normalizeTaskMetrics (overwrite data t) c in
  (updateFound data t c).1 = n.1
  \/ (updateFound data t c).1 = assign "activatedAt" (VNum (Fin (n.2 O))) n.1.
Proof.
  intros n.
  destruct (String.eqb_spec (getTaskStatus t) (getTaskStatus (overwrite data t))) as [He | Hne].
  - rewrite updateFound_unfold. cbv zeta. fold n.
    destruct (String.eqb_spec (getTaskStatus t) (getTaskStatus (overwrite data t))); [| done].
    cbn [negb]. destruct (_ && _); [right | left]; reflexivity.
  - left. by apply updateFound_flip.
Qed.

Lemma updateFound_fields (data t : object) (c : clock) :
  let t' := (updateFound data t c).1 in
  get t' "title" = get data "title"
  /\ get t' "dueDate" = get data "dueDate"
  /\ get t' "priority" = get data "priority"
  /\ get t' "completed" = VBool (truthy (get data "completed"))
  /\ (forall k, k <> "title" -> k <> "dueDate" -> k <> "priority" -> k <> "completed" ->
        k <> "timeSpentMs" -> k <> "activatedAt" -> k <> "completedAt" ->
        t' !! k = t !! k).
Proof.
  intros t'. subst t'.
  destruct (normalize_spec (overwrite data t) c) as (_ & _ & Hother & _).
  assert (Hn : forall k, k <> "timeSpentMs" -> k <> "activatedAt" -> k <> "completedAt" ->
            (updateFound data t c).1 !! k = overwrite data t !! k).
  { intros k ? ? ?. destruct (updateFound_shape data t c) as [-> | ->].
    - by apply Hother.
    - unfold assign. rewrite lookup_insert_ne by done. by apply Hother. }
  assert (Hg : forall k, k <> "timeSpentMs" -> k <> "activatedAt" -> k <> "completedAt" ->
            get (updateFound data t c).1 k = get (overwrite data t) k).
  { intros k ? ? ?. unfold get. by rewrite Hn. }
  split_and!.
  - rewrite Hg by done. unfold overwrite. by fields.
  - rewrite Hg by done. unfold overwrite. by fields.
  - rewrite Hg by done. unfold overwrite. by fields.
  - rewrite Hg by done. apply overwrite_flag.
  - intros k ? ? ? ? ? ? ?. rewrite Hn by done. by apply overwrite_lookup.
Qed.

(** X6: [updateTask] edits one task: the list keeps its length, with no
    task of that id nothing changes, and otherwise only the first task
    with that id changes; it takes [title], [dueDate], [priority] and the
    flag [completed] from the form, and apart from the three metrics
    fields every other field of it ([id], [createdAt], ...) stays as it
    was. *)
Theorem updateTask_edits_one_task (data : object) (tasks : list object) (c : clock) :
  let found := list_find (fun x => strict_eq (get x "id") (get data "id") = true) tasks in
  let tasks' := eval (updateTask data tasks) c in
  length tasks' = length tasks
  /\ (found = None -> tasks' = tasks)
  /\ (forall i t, found = Some (i, t) ->
        (forall j, j <> i -> tasks' !! j = tasks !! j)
        /\ exists t', tasks' !! i = Some t'
           /\ get t' "title" = get data "title"
           /\ get t' "dueDate" = get data "dueDate"
           /\ get t' "priority" = get data "priority"
           /\ get t' "completed" = VBool (truthy (get data "completed"))
           /\ (forall k, k <> "title" -> k <> "dueDate" -> k <> "priority" ->
                 k <> "completed" -> k <> "timeSpentMs" -> k <> "activatedAt" ->
                 k <> "completedAt" -> t' !! k = t !! k)).
Proof.
  intros found tasks'. subst found tasks'. unfold eval, updateTask.
  destruct (list_find _ tasks) as [[i t] |] eqn:Hfind.
  - rewrite bind_run. unfold mret, M_ret. cbn [fst].
    split_and!; [by rewrite length_insert | done |].
    intros i' t0 [= <- <-]. split.
    + intros j Hj. by rewrite list_lookup_insert_ne.
    + apply list_find_Some in Hfind as (Hi & _ & _).
      exists (updateFound data t c).1. split.
      * apply list_lookup_insert_eq. by eapply lookup_lt_Some.
      * apply updateFound_fields.
  - by split_and!.
Qed.

Lemma updateTask_edits_one_task_witness :
  let tasks' := eval (updateTask form_open_t1 [task_t2; task_t1]) (clock_at 4000) in
  tasks' !! 0%nat = Some task_t2
  /\ exists t', tasks' !! 1%nat = Some t'
     /\ get t' "title" = VStr "Lab report, part 2"
     /\ get t' "id" = VStr "t1".
Proof.
  destruct (updateTask_edits_one_task form_open_t1 [task_t2; task_t1] (clock_at 4000))
    as (_ & _ & Hone).
  destruct (Hone 1%nat task_t1 eq_refl) as (Hothers & t' & Ht' & Htitle & _ & _ & _ & Hkeep).
  split.
  - rewrite (Hothers 0%nat); [reflexivity | discriminate].
  - exists t'. split_and!; [exact Ht' | exact Htitle |].
    unfold get. rewrite (Hkeep "id"); [reflexivity | discriminate ..].
Defined.

(** X7: an edit that keeps the completion flag of a task in normal form
    leaves its three metrics fields as they were and reads no clock. *)
Theorem updateTask_keeps_metrics (data : object) (tasks : list object) (c : clock) i t :
  list_find (fun x => strict_eq (get x "id") (get data "id") = true) tasks = Some (i, t) ->
  normalised t ->
  truthy (get data "completed") = truthy (get t "completed") ->
  (updateTask data tasks c).2 = c
  /\ exists t', eval (updateTask data tasks) c !! i = Some t'
     /\ t' !! "timeSpentMs" = t !! "timeSpentMs"
     /\ t' !! "activatedAt" = t !! "activatedAt"
     /\ t' !! "completedAt" = t !! "completedAt".
Proof.
  intros Hfind Hn Hsame.
  assert (Hflag : truthy (get (overwrite data t) "completed") = truthy (get t "completed")).
  { by rewrite overwrite_flag. }
  assert (Hst : getTaskStatus (overwrite data t) = getTaskStatus t).
  { unfold getTaskStatus. by rewrite Hflag. }
  assert (Hn' : normalised (overwrite data t)).
  { unfold normalised. rewrite Hflag, !overwrite_lookup by done. exact Hn. }
  assert (Hrun : updateFound data t c = (overwrite data t, c)).
  { rewrite updateFound_unfold. cbv zeta.
    rewrite (normalize_fixpoint _ c Hn'), Hst, String.eqb_refl. cbn [negb fst snd].
    destruct (String.eqb_spec (getTaskStatus t) STATUS_ACTIVE) as [Hact | Hact]; [| done].
    destruct Hn' as (_ & _ & Ha). rewrite Hflag, (active_not_completed _ Hact) in Ha.
    destruct Ha as [A HA]. by rewrite (lookup_of_get _ _ _ HA). }
  unfold eval, updateTask. rewrite Hfind, bind_run, Hrun. unfold mret, M_ret. cbn [fst snd].
  split; [done |].
  apply list_find_Some in Hfind as (Hi & _ & _).
  exists (overwrite data t). split_and!.
  - apply list_lookup_insert_eq. by eapply lookup_lt_Some.
  - by apply overwrite_lookup.
  - by apply overwrite_lookup.
  - by apply overwrite_lookup.
Qed.

Lemma updateTask_keeps_metrics_witness :
  (updateTask form_open_t1 [task_t1] (clock_at 4000)).2 = clock_at 4000
  /\ exists t', eval (updateTask form_open_t1 [task_t1]) (clock_at 4000) !! 0%nat = Some t'
     /\ t' !! "timeSpentMs" = task_t1 !! "timeSpentMs"
     /\ t' !! "activatedAt" = task_t1 !! "activatedAt"
     /\ t' !! "completedAt" = task_t1 !! "completedAt".
Proof.
  apply (updateTask_keeps_metrics form_open_t1 [task_t1] (clock_at 4000) 0%nat task_t1);
    [reflexivity | apply task_t1_normalised | reflexivity].
Defined.

(** X8: an edit that flips the completion flag of a task in normal form
    performs no transition: [timeSpentMs] and [completedAt] stay as they
    were stored, and [activatedAt] becomes [null] when the task is now
    completed and the current instant when it is now active. *)
Theorem updateTask_flip_effect (data : object) (tasks : list object) (c : clock) i t :
  list_find (fun x => strict_eq (get x "id") (get data "id") = true) tasks = Some (i, t) ->
  normalised t ->
  truthy (get data "completed") <> truthy (get t "completed") ->
  exists t', eval (updateTask data tasks) c !! i = Some t'
     /\ t' !! "timeSpentMs" = t !! "timeSpentMs"
     /\ t' !! "completedAt" = t !! "completedAt"
     /\ get t' "activatedAt"
        = (if truthy (get data "completed") then VNull else VNum (Fin (c O))).
Proof.
  intros Hfind ([T HT] & [v Hv] & Ha) Hflip.
  assert (Hne : getTaskStatus t <> getTaskStatus (overwrite data t)).
  { unfold getTaskStatus. rewrite overwrite_flag. cbn [truthy].
    destruct (truthy (get data "completed")), (truthy (get t "completed")); done. }
  pose proof (updateFound_flip data t c Hne) as Hrun.
  destruct (normalize_spec (overwrite data t) c) as (Hts & Hc & _ & Hact).
  rewrite overwrite_flag in Hact. cbn [truthy] in Hact.
  unfold eval, updateTask. rewrite Hfind, bind_run. unfold mret, M_ret. cbn [fst].
  apply list_find_Some in Hfind as (Hi & _ & _).
  exists (updateFound data t c).1. rewrite Hrun. split_and!.
  - apply list_lookup_insert_eq. by eapply lookup_lt_Some.
  - rewrite (get_defined _ _ _ Hts); [| done].
    unfold timeSpent_of, get. rewrite overwrite_lookup by done. by rewrite HT.
  - rewrite Hc, overwrite_lookup by done. by rewrite Hv.
  - destruct (truthy (get data "completed")) eqn:Hd; [by destruct Hact |].
    destruct (truthy (get t "completed")) eqn:Ht; [| done].
    unfold get at 1 in Hact. rewrite overwrite_lookup in Hact by done.
    rewrite Ha in Hact. cbn in Hact. by destruct Hact.
Qed.

Lemma updateTask_flip_effect_witness :
  exists t', eval (updateTask form_done_t1 [task_t1]) (clock_at 4000) !! 0%nat = Some t'
     /\ t' !! "timeSpentMs" = task_t1 !! "timeSpentMs"
     /\ t' !! "completedAt" = task_t1 !! "completedAt"
     /\ get t' "activatedAt" = VNull.
Proof.
  apply (updateTask_flip_effect form_done_t1 [task_t1] (clock_at 4000) 0%nat task_t1);
    [reflexivity | apply task_t1_normalised | discriminate].
Defined.

(** * Further properties of the scheduling engine *)

Section ViewProperties.

Context {H : Host}.

Lemma getCategory_names (task : object) (c : clock) :
  (getCategory task c).1 ∈ ["overdue"; "today"; "soon"; "upcoming"; "completed"].
Proof.
  unfold getCategory.
  destruct (truthy _); [set_solver |].
  destruct (parseYmd _); [| set_solver].
  rewrite bind_run.
  repeat (match goal with |- context [if ?b then _ else _] => destruct b end);
    set_solver.
Qed.

(** X9: for every task, clock and time zone, [getCategory] returns one of
    the five bucket names and the [cls] of [getDeadlineInfo] is one of
    [done], [safe], [warning], [overdue]. *)
Theorem category_and_class_ranges (task : object) (c : clock) :
  eval (getCategory task) c ∈ ["overdue"; "today"; "soon"; "upcoming"; "completed"]
  /\ cls (eval (getDeadlineInfo task) c) ∈ ["done"; "safe"; "warning"; "overdue"].
Proof.
  split; [apply getCategory_names |].
  unfold eval, getDeadlineInfo.
  destruct (truthy _); [set_solver |].
  destruct (parseYmd _); [| set_solver].
  rewrite bind_run.
  repeat (match goal with |- context [if ?b then mret _ else _] => destruct b end);
    set_solver.
Qed.

Lemma validate_cases (t : object) :
  (truthy (get t "title") = false
   /\ validate t = {[ "ok" := VBool false; "message" := VStr "Title is required." ]})
  \/ (truthy (get t "title") = true /\ truthy (get t "dueDate") = false
      /\ validate t = {[ "ok" := VBool false; "message" := VStr "Due date is required." ]})
  \/ (truthy (get t "title") = true /\ truthy (get t "dueDate") = true
      /\ parseYmd (get t "dueDate") = None
      /\ validate t = {[ "ok" := VBool false; "message" := VStr "Due date is invalid." ]})
  \/ (truthy (get t "title") = true /\ truthy (get t "dueDate") = true
      /\ (exists due, parseYmd (get t "dueDate") = Some due)
      /\ validate t = {[ "ok" := VBool true ]}).
Proof.
  unfold validate.
  destruct (truthy (get t "title")); [| by left].
  destruct (truthy (get t "dueDate")); [| by right; left].
  destruct (parseYmd (get t "dueDate")) as [due |] eqn:Hp.
  - right; right; right. split_and!; eauto.
  - right; right; left. by split_and!.
Qed.

(** X10: [validate] accepts a form record exactly when its title is
    non-empty and its due date parses; a record it rejects carries one of
    three messages, the missing title reported first, then the missing due
    date, then the invalid one. *)
Theorem validate_accepts_iff (t : object) :
  (get (validate t) "ok" = VBool true
   <-> truthy (get t "title") = true /\ exists due, parseYmd (get t "dueDate") = Some due)
  /\ (get (validate t) "ok" <> VBool true ->
      get (validate t) "ok" = VBool false
      /\ get (validate t) "message"
         = VStr (if negb (truthy (get t "title")) then "Title is required."
                 else if negb (truthy (get t "dueDate")) then "Due date is required."
                 else "Due date is invalid.")).
Proof.
  destruct (validate_cases t) as [(Ht & ->) | [(Ht & Hd & ->) | [(Ht & Hd & Hp & ->)
    | (Ht & Hd & [due Hp] & ->)]]]; rewrite Ht, ?Hd; cbn [negb].
  - split; [split; [discriminate | by intros [? _]] | by intros _].
  - split; [split; [discriminate |] | by intros _].
    intros [_ [due Hp]]. exfalso.
    unfold parseYmd in Hp. by rewrite Hd in Hp.
  - split; [split; [discriminate |] | by intros _].
    intros [_ [due Hp']]. congruence.
  - split; [split; [eauto | done] | done].
Qed.

End ViewProperties.

(** ** Calendar dates *)

(** Within a year counted from March, the day of the year determines the
    month. *)
Lemma month_part (mp d : Z) :
  0 <= mp <= 11 -> 1 <= d ->
  (mp = 11 -> d <= 29) ->
  (mp <= 10 -> d <= (153 * (mp + 1) + 2) / 5 - (153 * mp + 2) / 5) ->
  let doy := (153 * mp + 2) / 5 + d - 1 in
  (5 * doy + 2) / 153 = mp /\ 0 <= doy <= 365 /\ (doy = 365 -> mp = 11 /\ d = 29).
Proof.
  intros Hmp Hd Hfeb Hlen doy. subst doy.
  assert (mp = 0 \/ mp = 1 \/ mp = 2 \/ mp = 3 \/ mp = 4 \/ mp = 5 \/ mp = 6 \/ mp = 7 \/ mp = 8 \/ mp = 9 \/ mp = 10 \/ mp = 11) as Hc by lia.
  repeat (destruct Hc as [-> | Hc]); try subst mp; Z.div_mod_to_equations; lia.
Qed.

(** Within an era, the day of the era determines the year. *)
Lemma era_part (yoe doy : Z) :
  0 <= yoe <= 399 -> 0 <= doy <= 365 ->
  (doy = 365 -> (yoe + 1) mod 4 = 0 /\ ((yoe + 1) mod 100 <> 0 \/ yoe = 399)) ->
  let doe := yoe * 365 + yoe / 4 - yoe / 100 + doy in
  0 <= doe <= 146096 /\
  (doe - doe / 1460 + doe / 36524 - doe / 146096) / 365 = yoe.
Proof.
  intros Hy Hd Hl doe. subst doe.
  Z.div_mod_to_equations; lia.
Qed.

Lemma is_leap_spec (y : Z) :
  is_leap y = true <-> y mod 4 = 0 /\ (y mod 100 <> 0 \/ y mod 400 = 0).
Proof.
  unfold is_leap.
  destruct (Z.eqb_spec (y mod 4) 0), (Z.eqb_spec (y mod 100) 0), (Z.eqb_spec (y mod 400) 0);
    simpl; split; try tauto; try discriminate; try lia; intros; exfalso; lia.
Qed.

Lemma days_in_month_bound (y m d : Z) :
  valid_date y m d ->
  let mp := if 2 <? m then m - 3 else m + 9 in
  0 <= mp <= 11
  /\ (mp = 11 -> d <= 29)
  /\ (mp <= 10 -> d <= (153 * (mp + 1) + 2) / 5 - (153 * mp + 2) / 5)
  /\ (mp = 11 -> d = 29 -> is_leap y = true).
Proof.
  intros [Hm Hd] mp. subst mp. unfold days_in_month in Hd.
  destruct (Z.ltb_spec 2 m) as [Hlt | Hge].
  - assert (m = 3 \/ m = 4 \/ m = 5 \/ m = 6 \/ m = 7 \/ m = 8 \/ m = 9
            \/ m = 10 \/ m = 11 \/ m = 12) as Hc by lia.
    repeat (destruct Hc as [-> | Hc]); try subst m; cbn in Hd;
      split_and!; intros; try (Z.div_mod_to_equations; lia).
  - assert (m = 1 \/ m = 2) as [-> | ->] by lia; cbn in Hd.
    + split_and!; intros; try (Z.div_mod_to_equations; lia).
    + destruct (is_leap y); split_and!; intros; try (Z.div_mod_to_equations; lia);
        reflexivity.
Qed.

(** The day number of a calendar date denotes that date. *)
Lemma civil_from_days_from_civil (y m d : Z) :
  valid_date y m d -> civil_from_days (days_from_civil y m d) = (y, m, d).
Proof.
  intros Hv. pose proof (days_in_month_bound y m d Hv) as (Hmp & Hfeb & Hlen & Hleap).
  destruct Hv as [Hm Hd].
  unfold days_from_civil.
  set (mp := if 2 <? m then m - 3 else m + 9) in *.
  set (y' := if m <=? 2 then y - 1 else y).
  set (era := y' / 400). set (yoe := y' - era * 400).
  assert (Hyoe : 0 <= yoe <= 399) by (subst yoe era; Z.div_mod_to_equations; lia).
  destruct (month_part mp d Hmp (proj1 Hd) Hfeb Hlen) as (Hmonth & Hdoy & H365).
  set (doy := (153 * mp + 2) / 5 + d - 1) in *.
  assert (Hl : doy = 365 -> (yoe + 1) mod 4 = 0 /\ ((yoe + 1) mod 100 <> 0 \/ yoe = 399)).
  { intros E. destruct (H365 E) as [E11 E29].
    apply is_leap_spec in Hleap; [| done | done].
    assert (m = 2) by (subst mp; destruct (Z.ltb_spec 2 m); lia). subst m.
    subst y'. cbn in era, yoe. subst yoe era. Z.div_mod_to_equations. lia. }
  destruct (era_part yoe doy Hyoe Hdoy Hl) as (Hdoe & Hback).
  set (doe := yoe * 365 + yoe / 4 - yoe / 100 + doy) in *.
  unfold civil_from_days.
  replace (era * 146097 + doe - 719468 + 719468) with (era * 146097 + doe) by lia.
  replace ((era * 146097 + doe) / 146097) with era by (Z.div_mod_to_equations; lia).
  replace (era * 146097 + doe - era * 146097) with doe by lia.
  rewrite Hback.
  replace (doe - (365 * yoe + yoe / 4 - yoe / 100)) with doy by (subst doe; lia).
  rewrite Hmonth.
  replace (doy - (153 * mp + 2) / 5 + 1) with d by (subst doy; lia).
  subst mp y' yoe.
  destruct (Z.ltb_spec 2 m), (Z.leb_spec m 2); try lia.
  - destruct (Z.ltb_spec (m - 3) 10); [| lia].
    replace (m - 3 + 3) with m by lia.
    destruct (Z.leb_spec m 2); [lia |]. f_equal. f_equal. subst era. lia.
  - destruct (Z.ltb_spec (m + 9) 10); [lia |].
    replace (m + 9 - 9) with m by lia.
    destruct (Z.leb_spec m 2); [| lia]. f_equal. f_equal. subst era. lia.
Qed.

Lemma days_from_civil_day (y m d : Z) :
  days_from_civil y m d = days_from_civil y m 1 + d - 1.
Proof. unfold days_from_civil. lia. Qed.

(** The first of the next month comes [days_in_month] days after the
    first of this one. *)
Lemma next_month_start (y m : Z) :
  1 <= m <= 12 ->
  days_from_civil (if m =? 12 then y + 1 else y) (if m =? 12 then 1 else m + 1) 1
  = days_from_civil y m 1 + days_in_month y m.
Proof.
  intros Hm. unfold days_in_month.
  assert (m = 1 \/ m = 2 \/ m = 3 \/ m = 4 \/ m = 5 \/ m = 6 \/ m = 7 \/ m = 8 \/ m = 9
          \/ m = 10 \/ m = 11 \/ m = 12) as Hc by lia.
  repeat (destruct Hc as [-> | Hc]); try subst m; unfold days_from_civil;
    repeat (match goal with
            | |- context [?a =? ?b] =>
                let v := eval vm_compute in (a =? b) in change (a =? b) with v
            | |- context [?a <=? ?b] =>
                let v := eval vm_compute in (a <=? b) in change (a <=? b) with v
            | |- context [?a <? ?b] =>
                let v := eval vm_compute in (a <? b) in change (a <? b) with v
            end); cbn [orb];
    try (Z.div_mod_to_equations; lia).
  pose proof (is_leap_spec y) as Hleap.
  destruct (is_leap y).
  - destruct (proj1 Hleap eq_refl) as [H4 H100]. Z.div_mod_to_equations. lia.
  - assert (~ (y mod 4 = 0 /\ (y mod 100 <> 0 \/ y mod 400 = 0))) as Hn
      by (intros Hy; apply Hleap in Hy; discriminate).
    Z.div_mod_to_equations. lia.
Qed.

(** The civil date of a day number is a date of the calendar. *)
Lemma civil_from_days_valid (z y m d : Z) :
  civil_from_days z = (y, m, d) -> valid_date y m d /\ days_from_civil y m d = z.
Proof.
  intros Hc. pose proof (civil_from_days_spec z) as Hs. rewrite Hc in Hs.
  destruct Hs as (Hm & Hd & Hz).
  assert (Hday : days_from_civil y m d = z) by (rewrite days_from_civil_day; lia).
  split; [| exact Hday]. split; [exact Hm |]. split; [lia |].
  destruct (Z.le_gt_cases d (days_in_month y m)) as [? | Hover]; [done | exfalso].
  set (y2 := if m =? 12 then y + 1 else y). set (m2 := if m =? 12 then 1 else m + 1).
  assert (Hv2 : valid_date y2 m2 (d - days_in_month y m)).
  { assert (28 <= days_in_month y m <= 31)
      by (unfold days_in_month; repeat destruct (_ =? _); try destruct (is_leap y);
          cbn; lia).
    split; [subst m2; destruct (Z.eqb_spec m 12); lia |].
    split; [lia |].
    assert (28 <= days_in_month y2 m2)
      by (unfold days_in_month; repeat destruct (_ =? _); try destruct (is_leap y2);
          cbn; lia).
    lia. }
  pose proof (civil_from_days_from_civil _ _ _ Hv2) as Hback.
  rewrite days_from_civil_day in Hback. unfold y2, m2 in Hback.
  rewrite (next_month_start y m Hm) in Hback.
  replace (days_from_civil y m 1 + days_in_month y m + (d - days_in_month y m) - 1)
    with z in Hback by lia.
  rewrite Hc in Hback. injection Hback as _ Hm2 _.
  destruct (Z.eqb_spec m 12); lia.
Qed.

Lemma split_dash_nonempty (s : string) p0 p1 p2 :
  split_dash s = [p0; p1; p2] -> s <> EmptyString.
Proof. by intros Hs ->. Qed.

Section DateProperties.

Context {H : Host} {HL : HostLaws H}.

Lemma parsed_day_and_time (y m d : Z) (dt : Date) (t : Z) :
  1 <= m <= 12 ->
  dt = Date_ymd (Fin y) (Fin (m + - (1))) (Fin d) ->
  getTime dt = Fin t ->
  let yr := if (0 <=? y) && (y <=? 99) then 1900 + y else y in
  t = local_midnight (days_from_civil yr m d) /\ day_of dt = days_from_civil yr m d.
Proof.
  intros Hm -> Ht yr.
  assert (Hday : day_of (Date_ymd (Fin y) (Fin (m + - (1))) (Fin d)) = local_day t)
    by (unfold day_of; by rewrite Ht).
  cbn [Date_ymd getTime] in Ht. apply TimeClip_Fin in Ht. fold yr in Ht.
  replace ((m + - (1)) / 12) with 0 in Ht by (Z.div_mod_to_equations; lia).
  replace ((m + - (1)) mod 12 + 1) with m in Ht by (Z.div_mod_to_equations; lia).
  replace (yr + 0) with yr in Ht by lia.
  rewrite <- days_from_civil_day in Ht.
  split; [exact Ht |]. by rewrite Hday, Ht, local_day_midnight.
Qed.

(** X11: what [parseYmd] accepts is a text of three parts that convert to
    integers [y], [m], [d] forming a date of the Gregorian calendar with a
    year outside 0..99; the result is the start of exactly that local
    day, so no day or month overflow is ever accepted. *)
Theorem parseYmd_accepts_only_dates (v : value) (due : Date) :
  parseYmd v = Some due ->
  exists s p0 p1 p2 y m d,
    v = VStr s /\ split_dash s = [p0; p1; p2]
    /\ Number_ p0 = Fin y /\ Number_ p1 = Fin m /\ Number_ p2 = Fin d
    /\ valid_date y m d /\ ~ 0 <= y <= 99
    /\ day_of due = days_from_civil y m d
    /\ getTime due = Fin (local_midnight (days_from_civil y m d)).
Proof.
  intros Hp.
  destruct (parseYmd_civil v due Hp) as (s & p0 & p1 & p2 & y & m & d & -> & Hs & E0 & E1 & E2 & Hc).
  destruct (civil_from_days_valid _ _ _ _ Hc) as [Hv Hday].
  pose proof (parseYmd_start_of_day _ _ Hp) as Hstart.
  pose proof (start_of_day_time _ Hstart) as Htime.
  exists s, p0, p1, p2, y, m, d. split_and!; try done.
  - intros Hy.
    assert (Hbuilt : due = Date_ymd (Fin y) (Fin (m + - (1))) (Fin d)).
    { unfold parseYmd in Hp. rewrite Hs, E0, E1, E2 in Hp.
      destruct (negb (truthy (VStr s)) || _); [discriminate |].
      cbn [Number_isInteger negb orb nsub nneg nadd] in Hp.
      destruct (negb _ || _ || _); [discriminate |]. by injection Hp as <-. }
    destruct (parsed_day_and_time y m d due _ (proj1 Hv) Hbuilt Htime) as [_ Hd].
    replace ((0 <=? y) && (y <=? 99)) with true in Hd by lia.
    rewrite <- Hday in Hd. clear -Hd Hv Hy.
    destruct Hv as [Hm _]. rewrite !(days_from_civil_day _ m d) in Hd.
    unfold days_from_civil in Hd.
    destruct (m <=? 2), (2 <? m); Z.div_mod_to_equations; lia.
  - by rewrite Htime, Hday.
Qed.

(** X12: conversely, a text of three parts that convert to a date of the
    calendar with a year outside 0..99, whose local midnight lies in the
    range of [Date], is accepted, and the result is the start of that
    day. *)
Theorem parseYmd_accepts_dates (s p0 p1 p2 : string) (y m d : Z) :
  split_dash s = [p0; p1; p2] ->
  Number_ p0 = Fin y -> Number_ p1 = Fin m -> Number_ p2 = Fin d ->
  valid_date y m d -> ~ 0 <= y <= 99 ->
  Z.abs (local_midnight (days_from_civil y m d)) <= 8640000000000000 ->
  parseYmd (VStr s) = Some (mkDate (Fin (local_midnight (days_from_civil y m d)))).
Proof.
  intros Hs E0 E1 E2 Hv Hy Hrange.
  pose proof (split_dash_nonempty s _ _ _ Hs) as Hne.
  unfold parseYmd. rewrite Hs, E0, E1, E2.
  assert (Htruthy : truthy (VStr s) = true).
  { cbn [truthy]. by destruct s. }
  rewrite Htruthy. cbn [typeof negb orb Number_isInteger nsub nneg nadd].
  change (String.eqb "string" "string") with true. cbv iota. cbn [negb].
  assert (Hbuilt : Date_ymd (Fin y) (Fin (m + - (1))) (Fin d)
                   = mkDate (Fin (local_midnight (days_from_civil y m d)))).
  { destruct Hv as [Hm _]. unfold Date_ymd.
    replace ((0 <=? y) && (y <=? 99)) with false by lia.
    replace ((m + - (1)) / 12) with 0 by (Z.div_mod_to_equations; lia).
    replace ((m + - (1)) mod 12 + 1) with m by (Z.div_mod_to_equations; lia).
    replace (y + 0) with y by lia.
    by rewrite <- days_from_civil_day, TimeClip_in_range. }
  rewrite Hbuilt. unfold getFullYear, getMonth, getDate. cbn [getTime].
  rewrite local_day_midnight, (civil_from_days_from_civil _ _ _ Hv). cbn [fst snd num_eq].
  replace (m - 1 =? m + - (1)) with true by lia.
  by rewrite !Z.eqb_refl.
Qed.

(** X13: on two starts of local days whose instants differ by a safe
    integer, [diffDays] is the difference of the day numbers (also across
    a daylight-saving change), it changes sign when its arguments are
    swapped, [sameDay] holds exactly when it is 0 and [<] on the dates
    exactly when it is positive. *)
Theorem diffDays_counts_days (a b : Date) (ta tb : Z) :
  start_of_day a -> start_of_day b ->
  getTime a = Fin ta -> getTime b = Fin tb -> exact_difference tb ta ->
  diffDays a b = Fin (day_of b - day_of a)
  /\ diffDays b a = nneg (diffDays a b)
  /\ sameDay a b = num_eq (diffDays a b) (Fin 0)
  /\ nlt (getTime a) (getTime b) = ngt (diffDays a b) (Fin 0).
Proof.
  intros Ha Hb _ _ _.
  rewrite (diffDays_days a b Ha Hb), (diffDays_days b a Hb Ha),
    (sameDay_days a b Ha Hb), (date_lt_days a b Ha Hb).
  unfold ngt. cbn [nneg num_eq nlt]. split_and!.
  - reflexivity.
  - f_equal. lia.
  - destruct (Z.eqb_spec (day_of a) (day_of b)), (Z.eqb_spec (day_of b - day_of a) 0); lia.
  - destruct (Z.ltb_spec (day_of a) (day_of b)), (Z.ltb_spec 0 (day_of b - day_of a)); lia.
Qed.

(** X14: at every instant of the range of [Date] whose local year is
    outside 0..99, [startOfToday()] is valid, is the start of the local
    day that contains the instant, and [startOfDay] leaves it as it is. *)
Theorem startOfToday_is_today (c : clock) :
  Z.abs (c O) <= 8640000000000000 ->
  Z.abs (local_midnight (local_day (c O))) <= 8640000000000000 ->
  ~ 0 <= (civil_from_days (local_day (c O))).1.1 <= 99 ->
  let today := eval startOfToday c in
  getTime today = Fin (local_midnight (local_day (c O)))
  /\ day_of today = local_day (c O)
  /\ startOfDay today = today.
Proof.
  intros Hnow Hmid Hyear today.
  destruct (startOfToday_start_of_day c Hnow Hmid Hyear) as [Hs Hd].
  fold today in Hs, Hd. split_and!; [| exact Hd | by apply start_of_day_idem].
  by rewrite (start_of_day_time _ Hs), Hd.
Qed.

(** X15: read on the same day, bucket and descriptor agree: a task is in
    bucket [overdue] exactly when its descriptor has class [overdue], in
    [completed] exactly when the class is [done], and in [today] exactly
    when the text is ["Due today"]. *)
Theorem category_agrees_with_descriptor (task : object) (c : clock) :
  start_of_day (eval startOfToday c) ->
  let category := eval (getCategory task) c in
  let info := eval (getDeadlineInfo task) c in
  (category = "overdue" <-> cls info = "overdue")
  /\ (category = "completed" <-> cls info = "done")
  /\ (category = "today" <-> text info = "Due today").
Proof.
  intros Htoday category info. subst category info.
  destruct (truthy (get task "completed")) eqn:Hdone.
  { unfold eval, getCategory, getDeadlineInfo. rewrite Hdone. cbn. by split_and!. }
  destruct (parseYmd (get task "dueDate")) as [due |] eqn:Hparse.
  2: { unfold eval, getCategory, getDeadlineInfo. rewrite Hdone, Hparse. cbn. by split_and!. }
  rewrite (getCategory_dated task c due Hdone Hparse Htoday),
    (getDeadlineInfo_dated task c due Hdone Hparse Htoday). cbv zeta.
  set (delta := day_of due - day_of (eval startOfToday c)).
  destruct (delta <? 0); [cbn; by split_and! |].
  destruct (delta =? 0); [cbn; by split_and! |].
  destruct (delta =? 1) eqn:H1.
  { destruct (_ && _); cbn; by split_and!. }
  destruct (_ && _), (delta <=? 3); cbn [cls text]; split_and!; split; try done.
  all: intros Habs; exfalso; revert Habs; unfold decimal; cbn [String_of_number];
    destruct (NilZero.string_of_int (Z.to_int delta)) as [|? [|? ?]]; cbn; try done.
Qed.

End DateProperties.

(** * Escaping *)

Lemma append_cons (x : ascii) (a b : string) : String x a +:+ b = String x (a +:+ b).
Proof. reflexivity. Qed.

Lemma append_empty_l (b : string) : EmptyString +:+ b = b.
Proof. reflexivity. Qed.

Lemma append_assoc (a b c : string) : (a +:+ b) +:+ c = a +:+ (b +:+ c).
Proof.
  induction a as [| x a IH]; [done |]. by rewrite !append_cons, IH.
Qed.

Lemma replaceAll_append (c : ascii) (r a b : string) :
  replaceAll c r (a +:+ b) = replaceAll c r a +:+ replaceAll c r b.
Proof.
  induction a as [| x a IH]; [done |].
  rewrite append_cons. cbn [replaceAll].
  destruct (Ascii.eqb x c); by rewrite IH, ?append_assoc, ?append_cons.
Qed.

Lemma replaceAll_substitute (c : ascii) (r : string) (f : ascii -> string) (s : string) :
  replaceAll c r (substitute f s) = substitute (fun x => replaceAll c r (f x)) s.
Proof.
  induction s as [| x s IH]; [done |].
  cbn [substitute]. by rewrite replaceAll_append, IH.
Qed.

Lemma replaceAll_as_substitute (c : ascii) (r : string) (s : string) :
  replaceAll c r s
  = substitute (fun x => if Ascii.eqb x c then r else String x EmptyString) s.
Proof.
  induction s as [| x s IH]; [done |].
  cbn [replaceAll substitute]. destruct (Ascii.eqb x c); by rewrite IH.
Qed.

Lemma substitute_ext (f g : ascii -> string) (s : string) :
  (forall x, f x = g x) -> substitute f s = substitute g s.
Proof.
  intros Hfg. induction s as [| x s IH]; [done |].
  cbn [substitute]. by rewrite Hfg, IH.
Qed.

Lemma substitute_append (f : ascii -> string) (a b : string) :
  substitute f (a +:+ b) = substitute f a +:+ substitute f b.
Proof.
  induction a as [| x a IH]; [done |].
  rewrite append_cons. cbn [substitute]. by rewrite IH, append_assoc.
Qed.

Lemma escape_passes_char (x : ascii) :
  replaceAll squote "&#039;"
    (replaceAll dquote "&quot;"
       (replaceAll ">" "&gt;"
          (replaceAll "<" "&lt;"
             (if Ascii.eqb x "&" then "&amp;" else String x EmptyString))))
  = escape_char x.
Proof. by destruct x as [[] [] [] [] [] [] [] []]. Qed.

(** The five passes amount to one pass of [escape_char]. *)
Lemma escapeHtml_substitute (v : value) :
  escapeHtml v = substitute escape_char (ToString v).
Proof.
  unfold escapeHtml.
  rewrite (replaceAll_as_substitute "&"), !replaceAll_substitute.
  apply substitute_ext, escape_passes_char.
Qed.

(** X16: the five replacements of [escapeHtml], made one after the other,
    amount to replacing each character once: the entities written by an
    earlier pass are not escaped again.  Hence escaping distributes over
    concatenation and leaves text without the five characters as it is. *)
Theorem escapeHtml_single_pass :
  (forall s, escapeHtml (VStr s) = substitute escape_char s)
  /\ (forall a b, escapeHtml (VStr (a +:+ b)) = escapeHtml (VStr a) +:+ escapeHtml (VStr b))
  /\ (forall s,
        (forall x, In x (chars s) ->
                   x <> "&"%char /\ x <> "<"%char /\ x <> ">"%char
                   /\ x <> dquote /\ x <> squote) ->
        escapeHtml (VStr s) = s).
Proof.
  split_and!.
  - intros s. apply escapeHtml_substitute.
  - intros a b. rewrite !escapeHtml_substitute. apply substitute_append.
  - intros s Hsafe. rewrite escapeHtml_substitute. cbn [ToString].
    induction s as [| x s IH]; [done |]. cbn [substitute].
    rewrite IH by (intros y Hy; apply Hsafe; by right).
    destruct (Hsafe x) as (H1 & H2 & H3 & H4 & H5); [by left |].
    unfold escape_char.
    apply Ascii.eqb_neq in H1, H2, H3, H4, H5. by rewrite H1, H2, H3, H4, H5.
Qed.

Lemma escapeHtml_single_pass_witness :
  escapeHtml (VStr "Lab report 3") = "Lab report 3".
Proof.
  apply (proj2 (proj2 escapeHtml_single_pass)).
  intros x Hx. cbn in Hx.
  repeat (destruct Hx as [<- | Hx]; [by split_and! |]). done.
Defined.

Lemma escape_char_clean (x y : ascii) :
  In y (chars (escape_char x)) ->
  y <> "<"%char /\ y <> ">"%char /\ y <> dquote /\ y <> squote.
Proof.
  destruct x as [[] [] [] [] [] [] [] []]; cbn; intros Hy;
    repeat (destruct Hy as [<- | Hy]; [by split_and! |]); done.
Qed.

Lemma chars_append (a b : string) :
  chars (a +:+ b) = chars a ++ chars b.
Proof.
  induction a as [| x a IH]; [done |].
  rewrite append_cons. cbn [chars]. by rewrite IH.
Qed.

(** X17: whatever value is escaped (a text, a boolean, [null],
    [undefined], or a number that is a safe integer or not finite), the
    result contains none of the characters [<], [>], double quote and
    apostrophe. *)
Theorem escapeHtml_no_markup (v : value) (y : ascii) :
  safe_number (num_of v) ->
  In y (chars (escapeHtml v)) ->
  y <> "<"%char /\ y <> ">"%char /\ y <> dquote /\ y <> squote.
Proof.
  intros _. rewrite escapeHtml_substitute.
  induction (ToString v) as [| x s IH]; [done |]. cbn [substitute].
  rewrite chars_append, in_app_iff.
  intros [Hy | Hy]; [by apply (escape_char_clean x) | by apply IH].
Qed.

Lemma escapeHtml_no_markup_witness :
  let y := "t"%char in
  y <> "<"%char /\ y <> ">"%char /\ y <> dquote /\ y <> squote.
Proof.
  apply (escapeHtml_no_markup (VStr "<b onclick='x'>Essay</b>") "t"%char); [exact I |].
  vm_compute. tauto.
Defined.

(** * Handlers *)

Section HandlerProperties.

Context {H : Host}.

Lemma toggleComplete_found (id : value) (tasks : list object) (c : clock) i t :
  list_find (fun x => strict_eq (get x "id") id = true) tasks = Some (i, t) ->
  let next := if truthy (get t "completed") then STATUS_ACTIVE else STATUS_COMPLETED in
  let t' := (handleStatusChange t (VStr next) c).1.2 in
  toggleComplete id tasks c =
  (<[i := t']> tasks,
   [Saved (<[i := t']> tasks); Rendered (<[i := t']> tasks);
    Announced (VStr (if truthy (get t "completed")
                     then "Marked open." else "Marked completed."));
    Focused id]).
Proof.
  intros Hfind next t'. subst next t'. unfold toggleComplete, eval. rewrite Hfind.
  destruct (truthy (get t "completed")) eqn:Hd.
  - assert (Hst : getTaskStatus t = STATUS_COMPLETED) by (unfold getTaskStatus; by rewrite Hd).
    destruct (handleStatusChange_reopen t c Hst) as (Hres & _).
    destruct (handleStatusChange t (VStr STATUS_ACTIVE) c) as [[res t'] c'].
    cbn [fst snd] in *. by rewrite Hres.
  - assert (Hst : getTaskStatus t = STATUS_ACTIVE) by (unfold getTaskStatus; by rewrite Hd).
    assert (Hres : (handleStatusChange t (VStr STATUS_COMPLETED) c).1.1
                   = result_status STATUS_COMPLETED).
    { rewrite handleStatusChange_unfold. cbv zeta. rewrite Hst. by status_tests. }
    destruct (handleStatusChange t (VStr STATUS_COMPLETED) c) as [[res t'] c'].
    cbn [fst snd] in *. by rewrite Hres.
Qed.

(** X18: [toggleComplete] with an unknown id does nothing at all.  With a
    known id it always performs a transition on the first task of that
    id, which ends in the other status with the lifecycle invariant and in
    normal form (the clock readings, the stored time and the session start
    being safe integers, so that the sum it stores is finite); it saves,
    renders, announces ["Marked completed."] or ["Marked open."] and
    focuses the card: the branch that announces ["Status update ignored."]
    is never taken. *)
Theorem toggleComplete_always_transitions (id : value) (tasks : list object) (c : clock) :
  let found := list_find (fun x => strict_eq (get x "id") id = true) tasks in
  (found = None -> toggleComplete id tasks c = (tasks, []))
  /\ (forall i t, found = Some (i, t) -> safe_clock c -> safe_metrics t ->
        exists t',
          toggleComplete id tasks c =
          (<[i := t']> tasks,
           [Saved (<[i := t']> tasks); Rendered (<[i := t']> tasks);
            Announced (VStr (if truthy (get t "completed")
                             then "Marked open." else "Marked completed."));
            Focused id])
          /\ get t' "completed" = VBool (negb (truthy (get t "completed")))
          /\ lifecycle_invariant t' /\ normalised t'
          /\ get t' "id" = get t "id")
  /\ Announced (VStr "Status update ignored.") ∉ (toggleComplete id tasks c).2.
Proof.
  intros found. subst found.
  assert (Hfound : forall i t,
    list_find (fun x => strict_eq (get x "id") id = true) tasks = Some (i, t) ->
    exists t',
      toggleComplete id tasks c =
      (<[i := t']> tasks,
       [Saved (<[i := t']> tasks); Rendered (<[i := t']> tasks);
        Announced (VStr (if truthy (get t "completed")
                         then "Marked open." else "Marked completed."));
        Focused id])
      /\ get t' "completed" = VBool (negb (truthy (get t "completed")))
      /\ lifecycle_invariant t' /\ normalised t'
      /\ get t' "id" = get t "id").
  { intros i t Hfind. eexists. split; [by apply toggleComplete_found |].
    destruct (truthy (get t "completed")) eqn:Hd.
    - assert (Hst : getTaskStatus t = STATUS_COMPLETED)
        by (unfold getTaskStatus; by rewrite Hd).
      destruct (handleStatusChange_reopen t c Hst)
        as (_ & _ & Hc & Hca & Haa & Hts & _ & Hother).
      split_and!; [done | | |].
      + by apply (invariant_of_fields _ false (c O)).
      + by apply (normalised_of_fields _ (timeSpent_of t) (c O) false VNull).
      + unfold get. by rewrite Hother.
    - assert (Hst : getTaskStatus t = STATUS_ACTIVE)
        by (unfold getTaskStatus; by rewrite Hd).
      destruct (handleStatusChange_completed_fields t c Hst) as (Hc & Hca & Haa).
      destruct (handleStatusChange_complete_time t c Hst) as ([T [HT _]] & Hother).
      split_and!; [done | | |].
      + by apply (invariant_of_fields _ true (c O)).
      + by apply (normalised_of_fields _ T 0 true (VNum (Fin (c O)))).
      + unfold get. by rewrite Hother. }
  split_and!.
  - intros Hnone. unfold toggleComplete. by rewrite Hnone.
  - intros i t Hfind _ _. by apply Hfound.
  - destruct (list_find (fun x => strict_eq (get x "id") id = true) tasks)
      as [[i t] |] eqn:Hfind.
    + destruct (Hfound i t eq_refl) as (t' & -> & _). cbn [snd].
      destruct (truthy (get t "completed"));
        rewrite !not_elem_of_cons; split_and!; try discriminate; apply not_elem_of_nil.
    + unfold toggleComplete. rewrite Hfind. apply not_elem_of_nil.
Qed.

Lemma toggleComplete_always_transitions_witness :
  exists t',
    toggleComplete (VStr "t1") [task_t2; task_t1] (clock_at 4000) =
    ([task_t2; t'],
     [Saved [task_t2; t']; Rendered [task_t2; t'];
      Announced (VStr "Marked completed."); Focused (VStr "t1")])
    /\ get t' "completed" = VBool true.
Proof.
  destruct (toggleComplete_always_transitions (VStr "t1") [task_t2; task_t1] (clock_at 4000))
    as (_ & Hfound & _).
  destruct (Hfound 1%nat task_t1 eq_refl) as (t' & Hrun & Hflag & _);
    [by vm_compute | by vm_compute |].
  exists t'. split; [exact Hrun | exact Hflag].
Defined.

Lemma filter_id_not_found (id : value) (tasks : list object) :
  list_find (fun x => strict_eq (get x "id") id = true)
    (filter (fun t => strict_eq (get t "id") id = false) tasks) = None.
Proof.
  apply list_find_None. apply Forall_forall. intros t Ht.
  apply list_elem_of_filter in Ht as [Ht _]. by rewrite Ht.
Qed.

(** X19: [deleteTask] removes every task whose id is the given one and
    keeps all others in their order; afterwards an edit or a toggle that
    names that id finds nothing and leaves the list as it is. *)
Theorem deleteTask_removes_id (id : value) (tasks : list object) (c : clock) :
  let tasks' := (deleteTask id tasks).1 in
  (forall t, t ∈ tasks' <-> t ∈ tasks /\ strict_eq (get t "id") id = false)
  /\ tasks' `sublist_of` tasks
  /\ (forall data, get data "id" = id -> eval (updateTask data tasks') c = tasks')
  /\ toggleComplete id tasks' c = (tasks', [])
  /\ (deleteTask id tasks').1 = tasks'.
Proof.
  intros tasks'. subst tasks'. unfold deleteTask. cbn [fst].
  split_and!.
  - intros t. rewrite list_elem_of_filter. tauto.
  - apply sublist_filter.
  - intros data <-. unfold eval, updateTask. by rewrite filter_id_not_found.
  - unfold toggleComplete. by rewrite filter_id_not_found.
  - apply list_filter_filter_l. naive_solver.
Qed.

Lemma deleteTask_removes_id_witness :
  eval (updateTask form_done_t1 (deleteTask (VStr "t1") [task_t2; task_t1]).1) (clock_at 4000)
  = (deleteTask (VStr "t1") [task_t2; task_t1]).1.
Proof.
  destruct (deleteTask_removes_id (VStr "t1") [task_t2; task_t1] (clock_at 4000))
    as (_ & _ & Hupd & _).
  apply Hupd. reflexivity.
Defined.

End HandlerProperties.

Section SubmitProperties.

Context {H : Host}.



End SubmitProperties.





(** * The bucket view *)

Lemma sort_insert_Permutation cmp (x : object) (l : list object) :
  sort_insert cmp x l ≡ₚ x :: l.
Proof.
  induction l as [| y l IH]; [done |]. cbn [sort_insert].
  destruct (ngt _ _); [| done]. by rewrite IH, Permutation_swap.
Qed.

Lemma Array_sort_Permutation cmp (l : list object) : Array_sort cmp l ≡ₚ l.
Proof.
  induction l as [| x l IH]; [done |].
  change (Array_sort cmp (x :: l)) with (sort_insert cmp x (Array_sort cmp l)).
  rewrite sort_insert_Permutation. by f_equiv.
Qed.

Lemma bucket_push_spec (name : string) (t : object) (b : gmap string (list object)) :
  name ∈ ["overdue"; "today"; "soon"; "upcoming"; "completed"] ->
  five_buckets b ->
  exists b', bucket_push name t b = Some b'
    /\ five_buckets b'
    /\ bucket name b' = bucket name b ++ [t]
    /\ (forall other, other <> name -> bucket other b' = bucket other b)
    /\ all_tasks b' ≡ₚ all_tasks b ++ [t].
Proof.
  intros Hname Hfive. destruct (Hfive name Hname) as [l Hl].
  unfold bucket_push. rewrite Hl. eexists. split; [reflexivity |].
  assert (Hsame : bucket name (<[name := l ++ [t]]> b) = bucket name b ++ [t]).
  { unfold bucket. by rewrite lookup_insert_eq, Hl. }
  assert (Hother : forall other, other <> name ->
            bucket other (<[name := l ++ [t]]> b) = bucket other b).
  { intros other Hne. unfold bucket. by rewrite lookup_insert_ne. }
  split_and!; [| done | done |].
  - intros other Hin. rewrite lookup_insert_is_Some. destruct (decide (name = other)); auto.
  - unfold all_tasks.
    repeat (apply elem_of_cons in Hname as [-> | Hname]);
      [.. | by apply elem_of_nil in Hname];
      rewrite Hsame, !Hother by discriminate; solve_Permutation.
Qed.

Lemma bucket_in_all_tasks (name : string) (b : gmap string (list object)) (t : object) :
  name ∈ ["overdue"; "today"; "soon"; "upcoming"; "completed"] ->
  t ∈ bucket name b -> t ∈ all_tasks b.
Proof.
  intros Hname Ht. unfold all_tasks. rewrite !elem_of_app.
  repeat (apply elem_of_cons in Hname as [-> | Hname]);
    [.. | by apply elem_of_nil in Hname]; tauto.
Qed.

Section BucketProperties.

Context {H : Host}.

Lemma getCategory_completed (t : object) (c : clock) :
  (getCategory t c).1 = "completed" <-> truthy (get t "completed") = true.
Proof.
  unfold getCategory. destruct (truthy _); [done |].
  destruct (parseYmd _); [| done]. rewrite bind_run.
  repeat (match goal with |- context [if ?b then _ else _] => destruct b end); done.
Qed.

Lemma fill_buckets_spec (tasks : list object) :
  forall (b : gmap string (list object)) (c : clock),
    five_buckets b ->
    exists b', (fill_buckets tasks b c).1 = Some b'
      /\ five_buckets b'
      /\ all_tasks b' ≡ₚ all_tasks b ++ tasks
      /\ bucket "completed" b'
         = bucket "completed" b ++ filter (fun t => truthy (get t "completed") = true) tasks.
Proof.
  induction tasks as [| t tasks IH]; intros b c Hfive.
  - exists b. cbn. rewrite !app_nil_r. by split_and!.
  - cbn [fill_buckets]. rewrite bind_run.
    destruct (bucket_push_spec _ t b (getCategory_names t c) Hfive)
      as (b1 & Hpush & Hfive1 & Hsame & Hother & Hperm).
    rewrite Hpush.
    destruct (IH b1 (getCategory t c).2 Hfive1) as (b' & Hrun & Hfive' & Hperm' & Hdone).
    exists b'. split_and!; [done | done | |].
    + rewrite Hperm', Hperm. by rewrite <- app_assoc.
    + rewrite Hdone, filter_cons.
      destruct (decide (truthy (get t "completed") = true)) as [Ht | Ht].
      * apply getCategory_completed with (c := c) in Ht. rewrite Ht in Hsame.
        by rewrite Hsame, <- app_assoc.
      * rewrite Hother; [done |]. intros Heq. apply Ht.
        by apply (getCategory_completed t c).
Qed.

Lemma empty_buckets_five : five_buckets empty_buckets.
Proof.
  intros name Hname. unfold empty_buckets.
  repeat (apply elem_of_cons in Hname as [-> | Hname]); [.. | by apply elem_of_nil in Hname];
    by eexists.
Qed.

Lemma empty_buckets_keys (name : string) (l : list object) :
  empty_buckets !! name = Some l ->
  name ∈ ["overdue"; "today"; "soon"; "upcoming"; "completed"].
Proof.
  unfold empty_buckets. intros Hl.
  repeat (rewrite lookup_insert in Hl; case_decide;
          [subst; rewrite !elem_of_cons; tauto |]).
  apply lookup_singleton_Some in Hl as [<- _]. rewrite !elem_of_cons; tauto.
Qed.

Lemma fill_buckets_keys (tasks : list object) :
  forall (b : gmap string (list object)) (c : clock) b',
    (fill_buckets tasks b c).1 = Some b' ->
    forall name, is_Some (b' !! name) -> is_Some (b !! name).
Proof.
  induction tasks as [| t tasks IH]; intros b c b' Hrun name Hn.
  - cbn in Hrun. by injection Hrun as ->.
  - cbn [fill_buckets] in Hrun. rewrite bind_run in Hrun.
    unfold bucket_push in Hrun.
    destruct (b !! (getCategory t c).1) as [l |] eqn:Hb; [| discriminate].
    specialize (IH _ _ _ Hrun name Hn). rewrite lookup_insert_is_Some in IH.
    destruct IH as [<- | [_ ?]]; eauto.
Qed.

Lemma bucket_fmap_sort cmp (name : string) (b : gmap string (list object)) :
  bucket name (Array_sort cmp <$> b) = Array_sort cmp (bucket name b).
Proof. unfold bucket. rewrite lookup_fmap. by destruct (b !! name). Qed.

Lemma render_buckets_runs (tasks : list object) (c : clock) :
  exists b, eval (render_buckets tasks) c = Some b.
Proof.
  unfold eval, render_buckets. rewrite bind_run.
  destruct (fill_buckets_spec tasks empty_buckets c empty_buckets_five) as (b & Hrun & _).
  rewrite Hrun. by eexists.
Qed.

(** X21: the bucket computation of [render()] never fails: the name
    [getCategory] returns always is one of the five buckets.  The five
    sorted buckets together hold exactly the tasks of the list, none lost
    and none twice, and the bucket [completed] holds exactly the completed
    tasks. *)
Theorem render_buckets_partition (tasks : list object) (c : clock) :
  exists b, eval (render_buckets tasks) c = Some b
    /\ five_buckets b
    /\ all_tasks b ≡ₚ tasks
    /\ bucket "completed" b
       ≡ₚ filter (fun t => truthy (get t "completed") = true) tasks.
Proof.
  unfold eval, render_buckets. rewrite bind_run.
  destruct (fill_buckets_spec tasks empty_buckets c empty_buckets_five)
    as (b & Hrun & Hfive & Hperm & Hdone).
  rewrite Hrun. unfold mret, M_ret. cbn [fst fmap option_fmap option_map].
  eexists. split; [reflexivity |]. split_and!.
  - intros name Hname. rewrite lookup_fmap. destruct (Hfive name Hname) as [l ->].
    by eexists.
  - unfold all_tasks. rewrite !bucket_fmap_sort, !Array_sort_Permutation.
    exact Hperm.
  - rewrite bucket_fmap_sort, Array_sort_Permutation, Hdone. done.
Qed.

End BucketProperties.

Lemma key_le_trans x y z : ~ key_lt y x -> ~ key_lt z y -> ~ key_lt z x.
Proof.
  destruct x as [[[[x1 x2] x3] x4] x5], y as [[[[y1 y2] y3] y4] y5],
    z as [[[[z1 z2] z3] z4] z5].
  unfold key_lt. lia.
Qed.

Lemma key_lt_asym x y : key_lt x y -> ~ key_lt y x.
Proof.
  destruct x as [[[[x1 x2] x3] x4] x5], y as [[[[y1 y2] y3] y4] y5].
  unfold key_lt. lia.
Qed.

Section SortedBuckets.

Context {H : Host} {HL : HostLaws H}.

Lemma sort_insert_sorted (x : object) (l : list object) :
  createdAt_typed x -> Forall createdAt_typed l ->
  StronglySorted (fun a b => ~ key_lt (sort_key b) (sort_key a)) l ->
  StronglySorted (fun a b => ~ key_lt (sort_key b) (sort_key a))
    (sort_insert compareTasks x l).
Proof.
  intros Hx Hl Hs. induction Hs as [| y l Hs IH Hy]; cbn [sort_insert].
  - by repeat constructor.
  - apply Forall_cons in Hl as [Hty Hl].
    destruct (ngt (compareTasks x y) (Fin 0)) eqn:Hcmp.
    + apply (sorts_before_key y x Hty Hx) in Hcmp.
      constructor; [by apply IH |].
      rewrite sort_insert_Permutation. constructor; [by apply key_lt_asym | done].
    + assert (Hxy : ~ key_lt (sort_key y) (sort_key x)).
      { intros Hlt. apply (sorts_before_key y x Hty Hx) in Hlt. congruence. }
      constructor; [by constructor |].
      constructor; [done |].
      eapply Forall_impl; [exact Hy |]. intros z Hz. cbv beta in Hz |- *.
      by apply (key_le_trans _ (sort_key y)).
Qed.

Lemma Array_sort_sorted (l : list object) :
  Forall createdAt_typed l ->
  StronglySorted (fun a b => ~ sorts_before b a) (Array_sort compareTasks l).
Proof.
  intros Hl.
  assert (Hkey : StronglySorted (fun a b => ~ key_lt (sort_key b) (sort_key a))
                   (Array_sort compareTasks l)).
  { induction Hl as [| x l Hx Hl IH]; [constructor |].
    change (Array_sort compareTasks (x :: l))
      with (sort_insert compareTasks x (Array_sort compareTasks l)).
    apply sort_insert_sorted; [done | | done].
    by rewrite Array_sort_Permutation. }
  assert (Hty : Forall createdAt_typed (Array_sort compareTasks l))
    by by rewrite Array_sort_Permutation.
  induction Hkey as [| x s Hs IH Hx]; [constructor |].
  apply Forall_cons in Hty as [Htx Hts].
  constructor; [by apply IH |].
  apply Forall_forall. intros y Hy.
  rewrite Forall_forall in Hx, Hts.
  intros Hlt. apply (Hx y Hy).
  by apply (proj1 (sorts_before_key y x (Hts y Hy) Htx)).
Qed.

(** X22: when every task's [createdAt] is an instant, each bucket that
    [render()] computes is in comparator order: no task of a bucket sorts
    before a task placed ahead of it. *)
Theorem render_buckets_sorted (tasks : list object) (c : clock)
    (b : gmap string (list object)) (name : string) :
  Forall createdAt_typed tasks ->
  eval (render_buckets tasks) c = Some b ->
  StronglySorted (fun x y => ~ sorts_before y x) (bucket name b).
Proof.
  intros Hty Hrun.
  unfold eval, render_buckets in Hrun. rewrite bind_run in Hrun.
  destruct (fill_buckets_spec tasks empty_buckets c empty_buckets_five)
    as (b0 & Hfill & _ & Hperm & _).
  rewrite Hfill in Hrun. unfold mret, M_ret in Hrun.
  cbn [fst fmap option_fmap option_map] in Hrun. injection Hrun as <-.
  rewrite bucket_fmap_sort. apply Array_sort_sorted.
  assert (Hall : Forall createdAt_typed (all_tasks b0)) by by rewrite Hperm.
  destruct (decide (name ∈ ["overdue"; "today"; "soon"; "upcoming"; "completed"]))
    as [Hname | Hname].
  - apply Forall_forall. intros t Ht. rewrite Forall_forall in Hall. apply Hall.
    by apply (bucket_in_all_tasks name).
  - replace (bucket name b0) with (@nil object); [constructor |].
    unfold bucket. destruct (b0 !! name) as [l |] eqn:Hl; [exfalso | done].
    destruct (fill_buckets_keys _ _ _ _ Hfill name (mk_is_Some _ _ Hl)) as [l0 Hl0].
    apply Hname. by apply empty_buckets_keys in Hl0.
Qed.

End SortedBuckets.

(** The due dates of bucket [soon] for the three sample tasks, in the
    order the view shows them. *)
Lemma soon_due_dates :
  (fun t => get t "dueDate") <$>
    bucket "soon" (default ∅ (eval (render_buckets (H := host_minus5)
                                     [task_high_5; task_high_2; task_medium_1])
                                (clock_at afternoon_2024_03_10)))
  = [VStr "2024-03-12"; VStr "2024-03-15"; VStr "2024-03-11"].
Proof. by vm_compute. Qed.

Lemma render_buckets_sorted_witness :
  let tasks := [task_high_5; task_high_2; task_medium_1] in
  exists b,
    eval (render_buckets (H := host_minus5) tasks) (clock_at afternoon_2024_03_10) = Some b
    /\ (fun t => get t "dueDate") <$> bucket "soon" b
       = [VStr "2024-03-12"; VStr "2024-03-15"; VStr "2024-03-11"]
    /\ StronglySorted (fun x y => ~ sorts_before (H := host_minus5) y x) (bucket "soon" b).
Proof.
  intros tasks.
  destruct (render_buckets_runs (H := host_minus5) tasks (clock_at afternoon_2024_03_10))
    as [b Hb].
  exists b. split; [exact Hb |]. split.
  { pose proof soon_due_dates as Hd. fold tasks in Hd. by rewrite Hb in Hd. }
  apply (render_buckets_sorted (H := host_minus5) (HL := fixed_offset_laws _)
           tasks (clock_at afternoon_2024_03_10) b "soon").
  - repeat constructor; apply task_due_typed.
  - exact Hb.
Defined.

(** * Instances of the further properties *)

Lemma handleStatusChange_time_monotone_witness :
  let after := (eval (handleStatusChange task_t1 (VStr STATUS_COMPLETED)) (clock_at 4000)).2 in
  timeSpent_of task_t1 <= timeSpent_of after /\ after !! "id" = task_t1 !! "id".
Proof.
  destruct (handleStatusChange_time_monotone task_t1 (VStr STATUS_COMPLETED) (clock_at 4000))
    as [Hle Hother]; [by vm_compute | by vm_compute |].
  split; [exact Hle | apply Hother; discriminate].
Defined.

Lemma validate_accepts_iff_witness :
  get (validate (H := host_minus5) form_new_quiz) "ok" = VBool true
  /\ get (validate (H := host_minus5) form_bad_date) "message" = VStr "Due date is invalid.".
Proof.
  split.
  - apply (proj1 (validate_accepts_iff (H := host_minus5) form_new_quiz)).
    split; [reflexivity | eexists; by vm_compute].
  - destruct (proj2 (validate_accepts_iff (H := host_minus5) form_bad_date)) as [_ Hmsg];
      [by vm_compute | exact Hmsg].
Defined.

Lemma due_2024_02_29 :
  parseYmd (H := host_minus5) (VStr "2024-02-29")
  = Some (mkDate (Fin (local_midnight (Host := host_minus5) (days_from_civil 2024 2 29)))).
Proof. by vm_compute. Qed.

Lemma parseYmd_accepts_only_dates_witness :
  exists s p0 p1 p2 y m d,
    VStr "2024-02-29" = VStr s /\ split_dash s = [p0; p1; p2]
    /\ Number_ (Host := host_minus5) p0 = Fin y
    /\ Number_ (Host := host_minus5) p1 = Fin m
    /\ Number_ (Host := host_minus5) p2 = Fin d
    /\ valid_date y m d /\ ~ 0 <= y <= 99
    /\ day_of (H := host_minus5)
         (mkDate (Fin (local_midnight (Host := host_minus5) (days_from_civil 2024 2 29))))
       = days_from_civil y m d
    /\ getTime (mkDate (Fin (local_midnight (Host := host_minus5) (days_from_civil 2024 2 29))))
       = Fin (local_midnight (Host := host_minus5) (days_from_civil y m d)).
Proof.
  apply (parseYmd_accepts_only_dates (H := host_minus5) (HL := fixed_offset_laws _)
           (VStr "2024-02-29")).
  apply due_2024_02_29.
Defined.

Lemma parseYmd_accepts_dates_witness :
  parseYmd (H := host_minus5) (VStr "2024-02-29")
  = Some (mkDate (Fin (local_midnight (Host := host_minus5) (days_from_civil 2024 2 29)))).
Proof.
  apply (parseYmd_accepts_dates (H := host_minus5) (HL := fixed_offset_laws _)
           "2024-02-29" "2024" "02" "29" 2024 2 29);
    try reflexivity.
  - split; [lia | by vm_compute].
  - lia.
  - by vm_compute.
Defined.

Lemma start_2024_03_12 :
  start_of_day (H := host_minus5)
    (mkDate (Fin (local_midnight (Host := host_minus5) (days_from_civil 2024 3 12)))).
Proof. split; [eexists |]; vm_compute; reflexivity. Qed.

Lemma diffDays_counts_days_witness :
  let a := eval (startOfToday (H := host_minus5)) (clock_at afternoon_2024_03_10) in
  let b := mkDate (Fin (local_midnight (Host := host_minus5) (days_from_civil 2024 3 12))) in
  diffDays (H := host_minus5) a b
  = Fin (day_of (H := host_minus5) b - day_of (H := host_minus5) a)
  /\ diffDays (H := host_minus5) b a = nneg (diffDays (H := host_minus5) a b)
  /\ sameDay (H := host_minus5) a b = num_eq (diffDays (H := host_minus5) a b) (Fin 0)
  /\ nlt (getTime a) (getTime b) = ngt (diffDays (H := host_minus5) a b) (Fin 0).
Proof.
  apply (diffDays_counts_days (H := host_minus5) (HL := fixed_offset_laws _) _ _
           1710046800000 1710219600000);
    [apply today_2024_03_10 | apply start_2024_03_12
     | by vm_compute | by vm_compute | by vm_compute].
Defined.

Lemma startOfToday_is_today_witness :
  let c := clock_at afternoon_2024_03_10 in
  let today := eval (startOfToday (H := host_minus5)) c in
  getTime today = Fin (local_midnight (Host := host_minus5)
                         (local_day (Host := host_minus5) (c O)))
  /\ day_of (H := host_minus5) today = local_day (Host := host_minus5) (c O)
  /\ startOfDay (H := host_minus5) today = today.
Proof.
  apply (startOfToday_is_today (H := host_minus5) (HL := fixed_offset_laws _)
           (clock_at afternoon_2024_03_10)).
  - by vm_compute.
  - by vm_compute.
  - vm_compute. intros [_ Hle]. by apply Hle.
Defined.

Lemma category_agrees_with_descriptor_witness :
  let c := clock_at afternoon_2024_03_10 in
  let task := task_due "2024-03-09" "high" 1 in
  (eval (getCategory (H := host_minus5) task) c = "overdue"
   <-> cls (eval (getDeadlineInfo (H := host_minus5) task) c) = "overdue")
  /\ (eval (getCategory (H := host_minus5) task) c = "completed"
      <-> cls (eval (getDeadlineInfo (H := host_minus5) task) c) = "done")
  /\ (eval (getCategory (H := host_minus5) task) c = "today"
      <-> text (eval (getDeadlineInfo (H := host_minus5) task) c) = "Due today").
Proof.
  apply (category_agrees_with_descriptor (H := host_minus5) (HL := fixed_offset_laws _)).
  apply today_2024_03_10.
Defined.

Lemma escape_char_head (x : ascii) :
  (escape_char x = String x EmptyString /\ x <> "&"%char)
  \/ (x = "&"%char /\ escape_char x = "&amp;")
  \/ (x = "<"%char /\ escape_char x = "&lt;")
  \/ (x = ">"%char /\ escape_char x = "&gt;")
  \/ (x = dquote /\ escape_char x = "&quot;")
  \/ (x = squote /\ escape_char x = "&#039;").
Proof.
  unfold escape_char.
  destruct (Ascii.eqb_spec x "&") as [-> | H1]; [by right; left |].
  destruct (Ascii.eqb_spec x "<") as [-> | H2]; [by right; right; left |].
  destruct (Ascii.eqb_spec x ">") as [-> | H3]; [by right; right; right; left |].
  destruct (Ascii.eqb_spec x dquote) as [-> | H4]; [by right; right; right; right; left |].
  destruct (Ascii.eqb_spec x squote) as [-> | H5]; [by right; right; right; right; right |].
  by left.
Qed.

Lemma escape_char_cancel (x y : ascii) (a b : string) :
  escape_char x +:+ a = escape_char y +:+ b -> x = y /\ a = b.
Proof.
  destruct (escape_char_head x) as [[-> Hx] | [[-> ->] | [[-> ->] | [[-> ->] | [[-> ->] | [-> ->]]]]]];
    destruct (escape_char_head y) as [[-> Hy] | [[-> ->] | [[-> ->] | [[-> ->] | [[-> ->] | [-> ->]]]]]];
    intros Heq; rewrite ?append_cons, ?append_empty_l in Heq;
    try (injection Heq as -> ->; done); try (by injection Heq); try discriminate;
    try (injection Heq as Hh _; congruence).
Qed.

Lemma substitute_escape_injective (s t : string) :
  substitute escape_char s = substitute escape_char t -> s = t.
Proof.
  revert t. induction s as [| x s IH]; intros [| y t] Heq; cbn [substitute] in Heq.
  - done.
  - exfalso. destruct (escape_char_head y) as [[Hy _] | [[_ Hy] | [[_ Hy] | [[_ Hy] | [[_ Hy] | [_ Hy]]]]]];
      rewrite Hy in Heq; discriminate.
  - exfalso. destruct (escape_char_head x) as [[Hx _] | [[_ Hx] | [[_ Hx] | [[_ Hx] | [[_ Hx] | [_ Hx]]]]]];
      rewrite Hx in Heq; discriminate.
  - apply escape_char_cancel in Heq as [-> Heq]. f_equal. by apply IH.
Qed.

(** X23: escaping loses nothing: two texts with the same escaped form are
    the same text. *)
Theorem escapeHtml_injective (s t : string) :
  escapeHtml (VStr s) = escapeHtml (VStr t) -> s = t.
Proof.
  rewrite !escapeHtml_substitute. apply substitute_escape_injective.
Qed.

Lemma escapeHtml_injective_witness : "a<b" = "a<b".
Proof. apply (escapeHtml_injective "a<b" "a<b"). reflexivity. Defined.
